(** * do_release.py: the release script of kotlin-datastore

    A shallow embedding of [do_release.py] and the properties of its version
    handling, of its rewriting of the build files and of the sequence of
    commands it runs.

    Conventions of the embedding.
    - A Python [str] is a Rocq [string]; its characters are the code points
      0..255.
    - A Python [int] is a [Z]; [int] and [str] refuse more than 4300
      digits, the default limit of the interpreter.
    - The working tree is a finite map from the paths [os.walk('.')] produces
      to the stored contents of the files. Every file can be read and
      decoded; text-mode reading applies the universal-newline translation,
      text-mode writing stores the text as it is (the POSIX behaviour; the
      script runs [./gradlew]).
    - The order in which [os.walk('.')] comes to the files is the file
      system's, and is a parameter: a listing of the paths, each of them
      once, that depends on no more than which paths there are.
    - A command without a null character in its arguments can be started:
      the program is there and the arguments are within the limits of the
      system. What it does to the files and to the rest of the world, and
      its exit status, are a parameter.
    - What [re] makes of a backslash in a replacement template depends on
      the version of Python, and is a parameter: a replacement function,
      [re.error] or [IndexError].
    - A function that prints, writes, runs a command or raises is a function
      from the world to a result and a world; what is printed, written and
      run is recorded in a trace. *)

From Stdlib Require Import ZArith Ascii String DecimalString.
From Stdlib Require Import Lia.
From Stdlib Require Import DecimalZ.
From stdpp Require Import base option list strings gmap sorting.
From Equations Require Import Equations.

Local Open Scope Z_scope.

(** ** Characters and strings *)

Module Py.

Definition LF : ascii := "010"%char.
Definition CR : ascii := "013"%char.
Definition DQUOTE : ascii := "034"%char.
Definition BACKSLASH : ascii := "092"%char.
Definition NUL : ascii := "000"%char.

Definition chr (c : ascii) : string := String c "".

(** [c in s] for a single character. *)
Fixpoint has_char (c : ascii) (s : string) : bool :=
  match s with
  | "" => false
  | String d s' => Ascii.eqb d c || has_char c s'
  end.

(** [s.startswith(p)] *)
Fixpoint startswith (p s : string) : bool :=
  match p, s with
  | "", _ => true
  | String _ _, "" => false
  | String a p', String b s' => Ascii.eqb a b && startswith p' s'
  end.

(** [needle in s]. *)
Fixpoint contains (needle s : string) : bool :=
  startswith needle s ||
  match s with
  | "" => false
  | String _ s' => contains needle s'
  end.

(** [s.split(sep)] for a one-character separator: never the empty list. *)
Fixpoint split (sep : ascii) (s : string) : list string :=
  match s with
  | "" => [""]
  | String c s' =>
      if Ascii.eqb c sep then "" :: split sep s'
      else match split sep s' with
           | [] => [chr c]
           | w :: ws => String c w :: ws
           end
  end.

(** [sep.join(l)]. *)
Fixpoint join (sep : string) (l : list string) : string :=
  match l with
  | [] => ""
  | [x] => x
  | x :: l' => x +:+ sep +:+ join sep l'
  end.

(** The decimal text of an [int]. *)
Definition decimal (n : Z) : string := NilZero.string_of_int (Z.to_int n).

(** *** [int(s)], base 10

    Surrounding white space is skipped, one sign is allowed, and the digits
    may be grouped by single underscores. White space is what [int] skips
    for a string of code points below 256: the six ASCII ones, and U+0085
    and U+00A0, which are normalised to a blank first. *)

Definition is_space (c : ascii) : bool :=
  match c with
  | "009" | "010" | "011" | "012" | "013" | " " | "133" | "160" => true
  | _ => false
  end%char.

(** The value of a decimal digit, from its code point. *)
Definition digit (c : ascii) : option Z :=
  let code := Z.of_N (N_of_ascii c) in
  if (48 <=? code) && (code <=? 57) then Some (code - 48) else None.

Fixpoint lstrip (s : string) : string :=
  match s with
  | "" => ""
  | String c s' => if is_space c then lstrip s' else s
  end.

Fixpoint rstrip (s : string) : string :=
  match s with
  | "" => ""
  | String c s' =>
      match rstrip s' with
      | "" => if is_space c then "" else chr c
      | r => String c r
      end
  end.

(** The digits after the first one; [us] tells that the previous character
    was an underscore. *)
Fixpoint digits (acc : Z) (us : bool) (s : string) : option Z :=
  match s with
  | "" => if us then None else Some acc
  | String c s' =>
      if Ascii.eqb c "_" then (if us then None else digits acc true s')
      else match digit c with
           | Some d => digits (10 * acc + d) false s'
           | None => None
           end
  end.

Definition unsigned (s : string) : option Z :=
  match s with
  | "" => None
  | String c s' =>
      match digit c with
      | Some d => digits d false s'
      | None => None
      end
  end.

(** The value of a literal, whatever its length. *)
Definition literal (s : string) : option Z :=
  match rstrip (lstrip s) with
  | String "+" s' => unsigned s'
  | String "-" s' => Z.opp <$> unsigned s'
  | s' => unsigned s'
  end.

(** *** The limit on the conversions between [int] and [str]

    [int] refuses a string with more decimal digits than the limit, leading
    zeros counted and underscores not, and [str] refuses a number whose
    decimal text has more digits; the limit is the interpreter's default. *)

Definition max_str_digits : Z := 4300.

Fixpoint count_digits (s : string) : Z :=
  match s with
  | "" => 0
  | String c s' =>
      match digit c with
      | Some _ => 1 + count_digits s'
      | None => count_digits s'
      end
  end.

(** [int(s)]; [None] stands for its [ValueError]. *)
Definition int (s : string) : option Z :=
  if count_digits s <=? max_str_digits then literal s else None.

(** [str(n)] for an [int]; [None] stands for its [ValueError]. *)
Definition str (n : Z) : option string :=
  if count_digits (decimal n) <=? max_str_digits then Some (decimal n) else None.

(** *** Comparison of lists of [int]: the first place where the two lists
    differ decides; when there is none the shorter list is the smaller. *)

Fixpoint list_lt (a b : list Z) : bool :=
  match a, b with
  | [], [] => false
  | [], _ :: _ => true
  | _ :: _, [] => false
  | x :: a', y :: b' => if x =? y then list_lt a' b' else x <? y
  end.

Fixpoint list_le (a b : list Z) : bool :=
  match a, b with
  | [], _ => true
  | _ :: _, [] => false
  | x :: a', y :: b' => if x =? y then list_le a' b' else x <? y
  end.

End Py.

Definition NL : string := Py.chr Py.LF.
Definition Q : string := Py.chr Py.DQUOTE.

(** ** The two regular expressions of the script *)

(** [re.sub(r'-pre.*', '', s)]: every occurrence of [-pre] goes, together
    with what follows it on its line ([.] does not match a line feed).
    [skip] holds inside an occurrence. *)
Fixpoint sub_pre (skip : bool) (s : string) : string :=
  match s with
  | "" => ""
  | String c s' =>
      if Ascii.eqb c Py.LF then String c (sub_pre false s')
      else if skip || Py.startswith "-pre" s then sub_pre true s'
      else String c (sub_pre false s')
  end.

Definition inspect {A : Type} (a : A) : {b : A | a = b} := exist _ a eq_refl.

(** [VERSION_RE], compiled with [re.MULTILINE]: at the start of a line, the
    text [version = ], a double quote, one or more characters other than a
    double quote (group 1), and a double quote. *)
Module VERSION_RE.

Definition PREFIX : string := "version = " +:+ Py.chr Py.DQUOTE.

(** [s] without the prefix [p], when it starts with it. *)
Fixpoint strip_prefix (p s : string) : option string :=
  match p, s with
  | "", _ => Some s
  | String _ _, "" => None
  | String a p', String b s' =>
      if Ascii.eqb a b then strip_prefix p' s' else None
  end.

(** The characters before the first double quote, and what follows that
    quote. *)
Fixpoint until_quote (s : string) : option (string * string) :=
  match s with
  | "" => None
  | String c s' =>
      if Ascii.eqb c Py.DQUOTE then Some ("", s')
      else match until_quote s' with
           | Some (v, rest) => Some (String c v, rest)
           | None => None
           end
  end.

(** A match that starts at the head of [s], the head being at the start of
    a line: group 1 and the text after the match. Group 1 takes every
    character up to the next double quote, line feeds too, and at least
    one. *)
Definition match_at (s : string) : option (string * string) :=
  match strip_prefix PREFIX s with
  | Some s1 =>
      match until_quote s1 with
      | Some (String c v, rest) => Some (String c v, rest)
      | _ => None
      end
  | None => None
  end.

(** [VERSION_RE.search(s)], as group 1 of the leftmost match; [bol] tells
    that the head of [s] is at the start of a line. *)
Fixpoint search_from (bol : bool) (s : string) : option string :=
  match (if bol then match_at s else None) with
  | Some (v, _) => Some v
  | None =>
      match s with
      | "" => None
      | String c s' => search_from (Ascii.eqb c Py.LF) s'
      end
  end.

Definition search (s : string) : option string := search_from true s.

Lemma strip_prefix_length p s r :
  strip_prefix p s = Some r -> (String.length r <= String.length s)%nat.
Proof.
  revert s; induction p as [|a p IH]; intros [|b s]; simpl; intros H;
    try discriminate; try (injection H as <-; simpl; lia).
  destruct (Ascii.eqb a b); [|discriminate].
  apply IH in H. lia.
Qed.

Lemma until_quote_length s v r :
  until_quote s = Some (v, r) -> (String.length r < String.length s)%nat.
Proof.
  revert v; induction s as [|c s IH]; simpl; intros v H; [discriminate|].
  destruct (Ascii.eqb c Py.DQUOTE).
  - injection H as _ <-. lia.
  - destruct (until_quote s) as [[v' r']|]; [|discriminate].
    injection H as _ <-. specialize (IH _ eq_refl). lia.
Qed.

Lemma match_at_length s v r :
  match_at s = Some (v, r) -> (String.length r < String.length s)%nat.
Proof.
  unfold match_at. destruct (strip_prefix PREFIX s) as [s1|] eqn:Hp; [|discriminate].
  destruct (until_quote s1) as [[[|c w] r']|] eqn:Hq; try discriminate.
  intros H; injection H as _ <-.
  apply strip_prefix_length in Hp. apply until_quote_length in Hq. lia.
Qed.

(** [VERSION_RE.sub(repl, s)] for a replacement given as a function of the
    whole match and of group 1. The scan goes on after a match, which ends
    in a double quote, so not at the start of a line. *)
Equations? sub_from (repl : string -> string -> string) (bol : bool) (s : string)
  : string by wf (String.length s) lt :=
  sub_from repl bol s with inspect (if bol then match_at s else None) := {
    | exist _ (Some (v, rest)) Hm :=
        repl (PREFIX +:+ v +:+ Py.chr Py.DQUOTE) v +:+ sub_from repl false rest;
    | exist _ None _ with s := {
        | "" := "";
        | String c s' := String c (sub_from repl (Ascii.eqb c Py.LF) s') } }.
Proof.
  destruct bol; [|discriminate]. eapply match_at_length; eauto.
Qed.

Definition sub (repl : string -> string -> string) (s : string) : string :=
  sub_from repl true s.

End VERSION_RE.

(** ** Text files *)

(** What text-mode reading makes of the stored characters: [CR LF] and a
    lone [CR] are read as [LF]. [cr] tells that the previous character was
    a [CR]. *)
Fixpoint universal_newlines (cr : bool) (s : string) : string :=
  match s with
  | "" => ""
  | String c s' =>
      if Ascii.eqb c Py.CR then String Py.LF (universal_newlines true s')
      else if cr && Ascii.eqb c Py.LF then universal_newlines false s'
      else String c (universal_newlines false s')
  end.

(** [f.readlines()] on the text read: the lines, each with its line feed. *)
Fixpoint readlines (s : string) : list string :=
  match s with
  | "" => []
  | String c s' =>
      if Ascii.eqb c Py.LF then Py.chr Py.LF :: readlines s'
      else match readlines s' with
           | [] => [Py.chr c]
           | l :: ls => String c l :: ls
           end
  end.

(** The loop of [get_version_from_build]: group 1 of the first line that
    has a match. *)
Fixpoint first_version (lines : list string) : option string :=
  match lines with
  | [] => None
  | line :: lines' =>
      match VERSION_RE.search line with
      | Some v => Some v
      | None => first_version lines'
      end
  end.

(** ** Exceptions, output and the world *)

(** The two messages of [InvalidVersionError]. *)
Inductive invalid : Type :=
| Inconsistent (versions : list string)
| Not_allowed (old_version version : string).

(** What [ValueError] is raised for: a string that [int] refuses, a number
    that [str] refuses, a command with a null character in an argument. *)
Inductive value_error : Type :=
| Int_refuses (literal : string)
| Str_refuses (n : Z)
| Embedded_null (command : list string).

(** What [IndexError] is raised for: a list without the item asked for, a
    replacement template that names a group the pattern has not. *)
Inductive index_error : Type :=
| No_item
| Unknown_group (template : string).

(** What the script can raise: its own two exceptions,
    [subprocess.CalledProcessError] of [subprocess.run(..., check=True)],
    and what the library functions it calls raise. *)
Inductive exn : Type :=
| VersionParsingError (build_filename : string)
| InvalidVersionError (why : invalid)
| CalledProcessError (command : list string) (returncode : Z)
| ValueError (what : value_error)
| re_error (template : string)
| IndexError (what : index_error)
| FileNotFoundError (path : string).

Inductive result (A : Type) : Type :=
| OK (a : A)
| Raise (e : exn).
Arguments OK {A} a.
Arguments Raise {A} e.

(** The two lines the script prints in dry-run mode. *)
Inductive message : Type :=
| Would_run (command : list string)
| Would_set_contents (build_filename contents : string).

Inductive event : Type :=
| Printed (m : message)
| Wrote (path contents : string)
| Ran (command : list string) (returncode : Z).

(** [version_ints]: the list comprehension raises at the first component
    that [int] refuses. *)
Fixpoint ints (components : list string) : result (list Z) :=
  match components with
  | [] => OK []
  | v :: rest =>
      match Py.int v with
      | None => Raise (ValueError (Int_refuses v))
      | Some n =>
          match ints rest with
          | OK l => OK (n :: l)
          | Raise e => Raise e
          end
      end
  end.

Definition version_ints (version : string) : result (list Z) :=
  ints (Py.split "." (sub_pre false version)).

(** The test of [set_version]: [<=] when the old version has [-pre] in it,
    [<] otherwise; the old version is converted first. *)
Definition version_ok (old_version version : string) : result bool :=
  match version_ints old_version with
  | Raise e => Raise e
  | OK old_i =>
      match version_ints version with
      | Raise e => Raise e
      | OK new_i =>
          OK (if Py.contains "-pre" old_version
              then Py.list_le old_i new_i
              else Py.list_lt old_i new_i)
      end
  end.

(** [version_i[-1] += 1]; [None] stands for the [IndexError] on the empty
    list. *)
Fixpoint incr_last (l : list Z) : option (list Z) :=
  match l with
  | [] => None
  | [x] => Some [x + 1]
  | x :: l' => cons x <$> incr_last l'
  end.

(** [[str(v) for v in version_i]]: the list comprehension raises at the
    first number that [str] refuses. *)
Fixpoint strs (version_i : list Z) : result (list string) :=
  match version_i with
  | [] => OK []
  | v :: rest =>
      match Py.str v with
      | None => Raise (ValueError (Str_refuses v))
      | Some s =>
          match strs rest with
          | OK l => OK (s :: l)
          | Raise e => Raise e
          end
      end
  end.

(** The version that [do_release] sets after the release. *)
Definition next_version (version : string) : result string :=
  match version_ints version with
  | Raise e => Raise e
  | OK version_i =>
      match incr_last version_i with
      | None => Raise (IndexError No_item)
      | Some version_i' =>
          match strs version_i' with
          | Raise e => Raise e
          | OK components => OK (Py.join "." components +:+ "-pre1")
          end
      end
  end.

(** [VERSION_BUMP_COMMIT_TEMPLATE % {'version': ..., 'auditors': ...}] *)
Definition VERSION_BUMP_COMMIT (version auditors : string) : string :=
  "Auto-bump version to " +:+ version +:+ NL +:+ NL +:+
  "Test plan:" +:+ NL +:+ "- fingers crossed" +:+ NL +:+ NL +:+
  "Auditors: " +:+ auditors +:+ NL.

(** The replacement string of [set_version]. *)
Definition version_line (version : string) : string :=
  VERSION_RE.PREFIX +:+ version +:+ Q.

(** [s] ends with [suffix]. *)
Fixpoint ends_with (suffix s : string) : bool :=
  String.eqb s suffix ||
  match s with
  | "" => false
  | String _ s' => ends_with suffix s'
  end.

(** [os.path.join(root, file)] with [file == 'build.gradle.kts']. *)
Definition is_build_file (path : string) : bool :=
  ends_with "/build.gradle.kts" path.

(** [os.walk('.')] goes through the working tree top-down, and the file
    system decides in which order the entries of a directory are listed.
    [os_walk paths] is the order in which the walk comes to the files of a
    working tree whose files are [paths]: it comes to each of them once. *)
Class Listing : Type := {
  os_walk : gset string -> list string;
  os_walk_lists : forall paths : gset string, os_walk paths ≡ₚ elements paths
}.

(** [build_filenames()], run to its end: the files named
    [build.gradle.kts], in the order in which the walk comes to them. *)
Definition walk {L : Listing} (fs : gmap string string) : list string :=
  filter (fun p => is_build_file p = true) (os_walk (dom fs)).

(** A listing for the examples: every directory is listed in the order of
    the names. The walk then comes to the files in the order of their
    directories, a directory before the directories inside it. *)
Fixpoint directory (path : string) : string :=
  match path with
  | "" => ""
  | String c path' =>
      if Py.has_char "/" path then String c (directory path') else ""
  end.

Definition visited_before (p q : string) : Prop :=
  String.leb (directory p) (directory q) = true.

#[local] Instance visited_before_dec (p q : string) : Decision (visited_before p q) :=
  decide (String.leb (directory p) (directory q) = true).

Definition top_down : Listing := {|
  os_walk := fun paths => merge_sort visited_before (elements paths);
  os_walk_lists := fun paths => merge_sort_Permutation visited_before (elements paths)
|}.

(** The world: the files of the working tree by path, what the commands act
    on besides them (the index, the refs and the remotes of git, the maven
    repository), and what has happened so far. *)
Record world (E : Type) : Type := World {
  files : gmap string string;
  ext : E;
  trace : list event
}.
Arguments World {E} files ext trace.
Arguments files {E} w.
Arguments ext {E} w.
Arguments trace {E} w.

Definition M (E A : Type) : Type := world E -> result A * world E.

(** What [re] makes of a replacement template: a function of the whole
    match and of group 1, or one of its two refusals, [re.error] for a
    template it cannot read and [IndexError] for a group name that the
    pattern has not. *)
Inductive refusal : Type := Bad_template | No_such_group.

Inductive compiled : Type :=
| Replaces (repl : string -> string -> string)
| Refuses (why : refusal).

Definition template_exn (why : refusal) (template : string) : exn :=
  match why with
  | Bad_template => re_error template
  | No_such_group => IndexError (Unknown_group template)
  end.

(** An argument of the command has a null character. *)
Definition has_null (command : list string) : bool :=
  existsb (Py.has_char Py.NUL) command.

Section Monad.
Context {E : Type}.

Definition ret {A : Type} (a : A) : M E A := fun w => (OK a, w).
Definition raise {A : Type} (e : exn) : M E A := fun w => (Raise e, w).
Definition lift {A : Type} (r : result A) : M E A := fun w => (r, w).
Definition bind {A B : Type} (m : M E A) (k : A -> M E B) : M E B :=
  fun w => match m w with
           | (OK a, w') => k a w'
           | (Raise e, w') => (Raise e, w')
           end.

End Monad.

Notation "x <~ m ; k" := (bind m (fun x => k))
  (at level 20, m at level 100, k at level 200).
Notation "m >> k" := (bind m (fun _ => k))
  (at level 100, k at level 200, right associativity).

(** ** The script *)

Section Release.
Context {E : Type} {L : Listing}.

(** [subprocess.run]: a command changes the files and the rest, and exits
    with a status. *)
Variable exec : list string -> gmap string string -> E -> Z * gmap string string * E.

(** What [re] makes of a template that has a backslash in it. *)
Variable compile_escapes : string -> compiled.

(** [for x in l: body(x)] *)
Fixpoint for_each {A : Type} (l : list A) (body : A -> M E unit) : M E unit :=
  match l with
  | [] => ret tt
  | x :: l' => body x >> for_each l' body
  end.

(** [for x in l: acc.append(f(x))] *)
Fixpoint collect {A B : Type} (l : list A) (f : A -> M E B) : M E (list B) :=
  match l with
  | [] => ret []
  | x :: l' => y <~ f x ; ys <~ collect l' f ; ret (y :: ys)
  end.

Definition log (ev : event) : M E unit :=
  fun w => (OK tt, World (files w) (ext w) (trace w ++ [ev])).

Definition print (m : message) : M E unit := log (Printed m).

(** [open(path).read()] *)
Definition read (path : string) : M E string :=
  fun w => match files w !! path with
           | Some stored => (OK (universal_newlines false stored), w)
           | None => (Raise (FileNotFoundError path), w)
           end.

(** [open(path, 'w').write(contents)] *)
Definition write (path contents : string) : M E unit :=
  fun w => (OK tt, World (<[path := contents]> (files w)) (ext w)
                         (trace w ++ [Wrote path contents])).

(** [subprocess.run] raises [ValueError] for a command with a null
    character, before it starts anything. *)
Definition run_command (command : list string) (dry_run : bool) : M E unit :=
  if dry_run then print (Would_run command)
  else if has_null command then raise (ValueError (Embedded_null command))
  else fun w =>
    let '(returncode, files', ext') := exec command (files w) (ext w) in
    let w' := World files' ext' (trace w ++ [Ran command returncode]) in
    if returncode =? 0 then (OK tt, w')
    else (Raise (CalledProcessError command returncode), w').

Definition get_version_from_build (build_filename : string) : M E string :=
  contents <~ read build_filename ;
  match first_version (readlines contents) with
  | Some v => ret v
  | None => raise (VersionParsingError build_filename)
  end.

(** The generator is run to its end when a loop is entered. The loops of
    [set_version] add and remove no file, so these are the files the
    generator yields to them; for the loop of [commit_version_bump] they are
    when the commands add and remove no file, which the properties that
    tell what is staged assume. *)
Definition build_filenames : M E (list string) :=
  fun w => (OK (walk (files w)), w).

(** [re] takes a template without a backslash as it is. *)
Definition compile_repl (template : string) : compiled :=
  if Py.has_char Py.BACKSLASH template then compile_escapes template
  else Replaces (fun _ _ => template).

Definition VERSION_RE_sub (template contents : string) : M E string :=
  match compile_repl template with
  | Replaces repl => ret (VERSION_RE.sub repl contents)
  | Refuses why => raise (template_exn why template)
  end.

(** The first loop of [set_version]. *)
Definition found_versions : M E (list string) :=
  names <~ build_filenames ;
  collect names get_version_from_build.

(** The second loop of [set_version]. *)
Definition rewrite_build_files (version : string) (dry_run : bool) : M E unit :=
  names <~ build_filenames ;
  for_each names (fun build_filename =>
    contents <~ read build_filename ;
    contents' <~ VERSION_RE_sub (version_line version) contents ;
    if dry_run
    then print (Would_set_contents build_filename contents')
    else write build_filename contents').

Definition set_version (version : string) (dry_run : bool) : M E unit :=
  versions <~ found_versions ;
  if decide (size (list_to_set versions : gset string) = 1%nat) then
    match versions with
    | [] => raise (IndexError No_item)
    | old_version :: _ =>
        ok <~ lift (version_ok old_version version) ;
        if ok : bool then rewrite_build_files version dry_run
        else raise (InvalidVersionError (Not_allowed old_version version))
    end
  else raise (InvalidVersionError (Inconsistent versions)).

Definition commit_version_bump (version auditors : string) (dry_run : bool)
  : M E unit :=
  names <~ build_filenames ;
  for_each names (fun build_filename =>
    run_command ["git"; "add"; build_filename] dry_run) >>
  run_command ["git"; "commit"; "-m"; VERSION_BUMP_COMMIT version auditors] dry_run.

Definition make_tag (version : string) (dry_run : bool) : M E unit :=
  run_command ["git"; "tag"; "v" +:+ version] dry_run.

Definition git_push (dry_run : bool) : M E unit :=
  run_command ["git"; "push"] dry_run >>
  run_command ["git"; "push"; "--tags"] dry_run.

Definition do_publish (dry_run : bool) : M E unit :=
  run_command ["./gradlew"; "publish"] dry_run.

Definition do_release (version auditors : string) (dry_run : bool) : M E unit :=
  set_version version dry_run >>
  commit_version_bump version auditors dry_run >>
  make_tag version dry_run >>
  git_push dry_run >>
  do_publish dry_run >>
  next <~ lift (next_version version) ;
  set_version next dry_run >>
  commit_version_bump next auditors dry_run >>
  git_push dry_run.

End Release.

(** ** The notions the properties are stated with *)

(** The lexicographic order on lists of integers. *)
Inductive lex_lt : list Z -> list Z -> Prop :=
| lex_lt_shorter (y : Z) (b : list Z) : lex_lt [] (y :: b)
| lex_lt_head (x y : Z) (a b : list Z) : x < y -> lex_lt (x :: a) (y :: b)
| lex_lt_tail (x : Z) (a b : list Z) : lex_lt a b -> lex_lt (x :: a) (x :: b).

Definition lex_le (a b : list Z) : Prop := a = b \/ lex_lt a b.

(** The change from [old_version] to [version] that the policy permits. *)
Definition permitted (old_version version : string) (old_i new_i : list Z) : Prop :=
  (Py.contains "-pre" old_version = true /\ lex_le old_i new_i) \/
  (Py.contains "-pre" old_version = false /\ lex_lt old_i new_i).

(** The version that the file [f] of [w] declares. *)
Definition declared {E : Type} (w : world E) (f : string) : option string :=
  match files w !! f with
  | Some stored => first_version (readlines (universal_newlines false stored))
  | None => None
  end.

(** There are build files, and they all declare the version [v]. *)
Definition agree_on {E : Type} {L : Listing} (w : world E) (v : string) : Prop :=
  walk (files w) <> [] /\
  Forall (fun f => declared w f = Some v) (walk (files w)).

(** A line that starts with [version = ] and a double quote has another
    double quote. *)
Definition line_closed (line : string) : bool :=
  match VERSION_RE.strip_prefix VERSION_RE.PREFIX line with
  | Some s1 => Py.has_char Py.DQUOTE s1
  | None => true
  end.

(** What the rewriting makes of a line taken alone: the match at its start,
    when there is one, becomes the replacement. *)
Definition rewrite_line (repl : string -> string -> string) (line : string) : string :=
  match VERSION_RE.match_at line with
  | Some (v, rest) => repl (VERSION_RE.PREFIX +:+ v +:+ Q) v +:+ rest
  | None => line
  end.

(** A version without double quote, backslash, line feed and carriage
    return. *)
Definition plain (version : string) : bool :=
  negb (Py.has_char Py.DQUOTE version || Py.has_char Py.BACKSLASH version
        || Py.has_char Py.LF version || Py.has_char Py.CR version).


(** The errors [do_release] raises, each with what causes it. *)
Definition expected (e : exn) : Prop :=
  match e with
  | VersionParsingError build_filename => is_build_file build_filename = true
  | InvalidVersionError (Inconsistent versions) =>
      size (list_to_set versions : gset string) <> 1%nat
  | InvalidVersionError (Not_allowed old_version version) =>
      version_ok old_version version = OK false
  | CalledProcessError _ returncode => returncode <> 0
  | ValueError (Int_refuses literal) => Py.int literal = None
  | ValueError (Str_refuses n) => Py.str n = None
  | ValueError (Embedded_null command) => has_null command = true
  | re_error template => Py.has_char Py.BACKSLASH template = true
  | IndexError (Unknown_group template) =>
      Py.has_char Py.BACKSLASH template = true
  | IndexError No_item | FileNotFoundError _ => False
  end.

(** From [w] to [w'] nothing has happened but printing. *)
Definition is_print (ev : event) : Prop := exists m, ev = Printed m.
Definition only_printed {E : Type} (w w' : world E) : Prop :=
  files w' = files w /\ ext w' = ext w /\
  exists evs, trace w' = trace w ++ evs /\ Forall is_print evs.

(** What a command leaves in the trace when it succeeds. *)
Definition command_event (dry_run : bool) (command : list string) : event :=
  if dry_run then Printed (Would_run command) else Ran command 0.

(** The text written to a file whose stored text is [stored]. *)
Definition rewritten (repl : string -> string -> string) (stored : string) : string :=
  VERSION_RE.sub repl (universal_newlines false stored).

(** A character that is neither a digit nor the minus sign. *)
Definition not_numeric (c : ascii) : Prop :=
  Py.digit c = None /\ c <> "-"%char.

(** A computation that moves the world along a relation [T]. *)
Definition along {E : Type} (T : world E -> world E -> Prop) {A : Type}
    (m : M E A) : Prop :=
  forall w, T w (m w).2.

(** The trace of [w'] goes on from the one of [w]. *)
Definition grows {E : Type} (w w' : world E) : Prop :=
  exists evs, trace w' = trace w ++ evs.

Definition same {E : Type} (w w' : world E) : Prop := w' = w.


(** ** Worlds for the examples *)

(** Commands that succeed and change nothing, and an [re] that refuses
    every escape. *)
Definition exec_ok (command : list string) (fs : gmap string string) (x : unit)
  : Z * gmap string string * unit := (0, fs, x).
Definition no_escapes (template : string) : compiled := Refuses Bad_template.

Definition tree_019 : gmap string string :=
  {[ "./build.gradle.kts" := "plugins {}" +:+ NL +:+ version_line "0.1.9" +:+ NL;
     "./sub/build.gradle.kts" := version_line "0.1.9" +:+ NL +:+ "dependencies {}" +:+ NL;
     "./README.md" := version_line "7" +:+ NL ]}.
Definition world_019 : world unit := World tree_019 tt [].

Definition tree_mixed : gmap string string :=
  {[ "./build.gradle.kts" := version_line "0.1.9" +:+ NL;
     "./sub/build.gradle.kts" := version_line "0.2.0" +:+ NL ]}.
Definition world_mixed : world unit := World tree_mixed tt [].

Definition world_bare : world unit :=
  World {[ "./README.md" := version_line "7" +:+ NL ]} tt [].

Definition CRLF : string := String Py.CR NL.
Definition world_crlf : world unit :=
  World {[ "./build.gradle.kts" :=
             version_line "0.1.9" +:+ CRLF +:+ "plugins {}" +:+ CRLF ]} tt [].

Definition world_open_quote : world unit :=
  World {[ "./build.gradle.kts" :=
             version_line "0.1.9" +:+ NL +:+
             "version = " +:+ Q +:+ "a" +:+ NL +:+ "b" +:+ Q +:+ NL ]} tt [].

(** ** The claims that fail, as they are stated *)

(** C5 as stated: after any [set_version] that succeeds, every build file
    declares the version that was set. *)
Definition roundtrip_for_every_version : Prop :=
  forall (E : Type) (L : Listing) (compile_escapes : string -> compiled)
         (w w' : world E) (version : string),
    set_version compile_escapes version false w = (OK tt, w') ->
    Forall (fun f => declared w' f = Some version) (walk (files w')).

(** C7 as stated: the push that ends a release does not push the tags. *)
Definition last_push_without_tags : Prop :=
  forall (E : Type) (L : Listing) exec compile_escapes (w w' : world E)
         (version auditors : string),
    do_release exec compile_escapes version auditors false w = (OK tt, w') ->
    last (trace w') <> Some (Ran ["git"; "push"; "--tags"] 0).


(** C9 as stated: a line of a build file that has no match is, after the
    rewriting, the same line at the same place. *)
Definition other_lines_kept : Prop :=
  forall (E : Type) (L : Listing) (compile_escapes : string -> compiled)
         (w w' : world E) (version f stored stored' : string) (i : nat)
         (line : string),
    set_version compile_escapes version false w = (OK tt, w') ->
    is_build_file f = true ->
    files w !! f = Some stored ->
    files w' !! f = Some stored' ->
    readlines stored !! i = Some line ->
    VERSION_RE.search line = None ->
    readlines stored' !! i = Some line.

(** ** The notions the further properties are stated with *)

(** The command that an event runs or shows. *)
Definition command_of (ev : event) : option (list string) :=
  match ev with
  | Ran command _ => Some command
  | Printed (Would_run command) => Some command
  | _ => None
  end.

Definition commands (evs : list event) : list (list string) :=
  omap command_of evs.

(** The commands that stage the files [names]. *)
Definition add_commands (names : list string) : list (list string) :=
  (fun build_filename => ["git"; "add"; build_filename]) <$> names.

(** What the second loop of [set_version] makes of the file [f] of the
    files [fs], and what it leaves in the trace for it. *)
Definition new_contents (repl : string -> string -> string)
    (fs : gmap string string) (f : string) : string :=
  rewritten repl (default "" (fs !! f)).

Definition set_event (dry_run : bool) (repl : string -> string -> string)
    (fs : gmap string string) (f : string) : event :=
  if dry_run then Printed (Would_set_contents f (new_contents repl fs f))
  else Wrote f (new_contents repl fs f).

(** Commands that exit with status zero and leave the files as they are. *)
Definition harmless {E : Type}
    (exec : list string -> gmap string string -> E -> Z * gmap string string * E)
  : Prop :=
  forall command fs x, exists x', exec command fs x = (0, fs, x').

(** A computation that raises [CalledProcessError] only outside dry-run
    mode, for a non-zero status, and with the failed command as the last
    thing that happened. *)
Definition fails_last {E A : Type} (dry_run : bool) (m : M E A) : Prop :=
  forall w command returncode w',
    m w = (Raise (CalledProcessError command returncode), w') ->
    dry_run = false /\ returncode <> 0
    /\ last (trace w') = Some (Ran command returncode).

(** Commands that add and remove no file. *)
Definition keeps_paths {E : Type}
    (exec : list string -> gmap string string -> E -> Z * gmap string string * E)
  : Prop :=
  forall command fs x, dom (exec command fs x).1.2 = dom fs.

(** From [w] to [w'] no file has been added or removed. *)
Definition same_paths {E : Type} (w w' : world E) : Prop :=
  dom (files w') = dom (files w).

Definition no_null (s : string) : Prop := Py.has_char Py.NUL s = false.

(** The commands of a release of [version] over the files [fs] go through
    and leave the files alone: it is a dry run, or they are harmless and
    none of what goes into their arguments has a null character. *)
Definition quiet {E : Type} {L : Listing}
    (exec : list string -> gmap string string -> E -> Z * gmap string string * E)
    (dry_run : bool) (version auditors : string) (fs : gmap string string)
  : Prop :=
  dry_run = true \/
  (harmless exec /\ no_null version /\ no_null auditors
   /\ Forall no_null (walk fs)).

(** What the failure of a command is: the [ValueError] of a null character,
    or the error of a status other than zero. *)
Definition command_failed (command : list string) (e : exn) : Prop :=
  (e = ValueError (Embedded_null command) /\ has_null command = true)
  \/ exists returncode,
       e = CalledProcessError command returncode /\ returncode <> 0.

(** A computation that, from the files [fs], succeeds and leaves them as
    they are. *)
Definition keeps_files {E : Type} (fs : gmap string string) (m : M E unit) : Prop :=
  forall w, files w = fs -> exists w', m w = (OK tt, w') /\ files w' = fs.

(** The end of a line, or the start of the text. *)
Definition line_start (before : string) : Prop :=
  before = "" \/ exists b, before = b +:+ NL.

(** Commands that succeed and change nothing, but for [git push], which
    has no remote to push to. *)
Definition exec_no_remote (command : list string) (fs : gmap string string)
    (x : unit) : Z * gmap string string * unit :=
  (if decide (command = ["git"; "push"]) then 128 else 0, fs, x).

(** An [re] whose pattern has no group of the name [x], and that refuses
    every other escape. *)
Definition no_group_x (template : string) : compiled :=
  if Py.contains "\g<x>" template then Refuses No_such_group
  else Refuses Bad_template.

(** A working tree whose build files declare no version. *)
Definition world_no_version : world unit :=
  World {[ "./sub/build.gradle.kts" := "dependencies {}" +:+ NL;
           "./build.gradle.kts" := "plugins {}" +:+ NL ]} tt [].

(** A deeper working tree. *)
Definition tree_deep : gmap string string :=
  {[ "./b/build.gradle.kts" := version_line "1.0" +:+ NL;
     "./a/x/build.gradle.kts" := version_line "1.0" +:+ NL;
     "./a/build.gradle.kts" := version_line "1.0" +:+ NL;
     "./build.gradle.kts" := version_line "1.0" +:+ NL;
     "./a/notes.txt" := "" ]}.

(** [n] times the digit [c]. *)
Fixpoint digits_of (c : ascii) (n : nat) : string :=
  match n with
  | O => ""
  | S n' => String c (digits_of c n')
  end.

(** The numeral of [n] times the digit [d]. *)
Fixpoint numeral_of (d : Decimal.uint -> Decimal.uint) (n : nat) : Decimal.uint :=
  match n with
  | O => Decimal.Nil
  | S n' => d (numeral_of d n')
  end.

(** The working tree of the examples after [set_version] to 0.1.10. *)
Definition bumped_019 : world unit :=
  (set_version (L:=top_down) no_escapes "0.1.10" false world_019).2.

(** * Proofs *)

Import VERSION_RE.

(** ** Strings *)

Lemma append_nil_r (s : string) : s +:+ "" = s.
Proof. induction s as [|c s IH]; [done|]. by rewrite <- IH at 2. Qed.

Lemma append_cons (c : ascii) (s t : string) : String c s +:+ t = String c (s +:+ t).
Proof. done. Qed.

Lemma append_assoc (s t u : string) : (s +:+ t) +:+ u = s +:+ t +:+ u.
Proof. induction s as [|c s IH]; [done|]. rewrite !append_cons. by f_equal. Qed.

Lemma has_char_app c s t :
  Py.has_char c (s +:+ t) = Py.has_char c s || Py.has_char c t.
Proof.
  induction s as [|d s IH]; [done|].
  rewrite append_cons. simpl. rewrite IH. by rewrite orb_assoc.
Qed.

(** ** [version_ints] *)

(** An occurrence of [-pre] cannot start in [s] and end in a following
    [-pre]. *)
Lemma startswith_pre_app (c : ascii) (s t : string) :
  Py.startswith "-pre" (String c s +:+ "-pre" +:+ t) = Py.startswith "-pre" (String c s).
Proof.
  rewrite append_cons. cbn [Py.startswith].
  destruct (Ascii.eqb_spec "-" c) as [<-|]; [|done].
  destruct s as [|c1 s]; [done|]. rewrite append_cons.
  destruct (Ascii.eqb_spec "p" c1) as [<-|]; [|done].
  destruct s as [|c2 s]; [done|]. rewrite append_cons.
  destruct (Ascii.eqb_spec "r" c2) as [<-|]; [|done].
  destruct s as [|c3 s]; [done|]. rewrite append_cons.
  destruct (Ascii.eqb_spec "e" c3) as [<-|]; [|done].
  done.
Qed.

Lemma sub_pre_skip_line (s : string) :
  Py.has_char Py.LF s = false -> sub_pre true s = "".
Proof.
  induction s as [|c s IH]; [done|]. cbn [Py.has_char sub_pre].
  destruct (Ascii.eqb c Py.LF); [done|]. simpl. auto.
Qed.

Lemma sub_pre_suffix (skip : bool) (v s : string) :
  Py.has_char Py.LF s = false ->
  sub_pre skip (v +:+ "-pre" +:+ s) = sub_pre skip v.
Proof.
  intros Hs. revert skip. induction v as [|c v IH]; intros skip.
  - assert (sub_pre true ("-pre" +:+ s) = "") as H by (by apply sub_pre_skip_line).
    destruct skip; [exact H|].
    change (sub_pre true ("pre" +:+ s) = ""). by apply sub_pre_skip_line.
  - pose proof (startswith_pre_app c v s) as Hp.
    rewrite append_cons in *.
    cbn [sub_pre]. rewrite Hp.
    destruct (Ascii.eqb c Py.LF); [by rewrite IH|].
    destruct (skip || Py.startswith "-pre" (String c v)); by rewrite IH.
Qed.

Lemma version_ints_suffix (v s : string) :
  Py.has_char Py.LF s = false ->
  version_ints (v +:+ "-pre" +:+ s) = version_ints v.
Proof. intros Hs. unfold version_ints. by rewrite sub_pre_suffix. Qed.

Lemma sub_pre_id (s : string) :
  Py.contains "-pre" s = false -> sub_pre false s = s.
Proof.
  induction s as [|c s IH]; [done|].
  cbn [Py.contains sub_pre]. intros [H1 H2]%orb_false_iff.
  rewrite H1. rewrite (IH H2). by destruct (Ascii.eqb c Py.LF).
Qed.

(** ** Comparison of the lists of integers *)

Lemma list_lt_lex (a b : list Z) : Py.list_lt a b = true <-> lex_lt a b.
Proof.
  revert b; induction a as [|x a IH]; intros [|y b]; simpl.
  - split; [done|inversion 1].
  - split; [constructor|done].
  - split; [done|inversion 1].
  - destruct (Z.eqb_spec x y) as [->|Hne].
    + rewrite IH. split; [by constructor|].
      inversion 1; subst; [lia|done].
    + rewrite Z.ltb_lt. split; [by constructor|].
      inversion 1; subst; [done|congruence].
Qed.

Lemma list_le_lex (a b : list Z) : Py.list_le a b = true <-> lex_le a b.
Proof.
  unfold lex_le. revert b; induction a as [|x a IH]; intros [|y b]; simpl.
  - by split; [left|].
  - split; [right; constructor|done].
  - split; [done|]. intros [|H]; [done|inversion H].
  - destruct (Z.eqb_spec x y) as [->|Hne].
    + rewrite IH. split.
      * intros [->|H]; [by left|right; by constructor].
      * intros [[= ->]|H]; [by left|].
        inversion H; subst; [lia|by right].
    + rewrite Z.ltb_lt. split; [right; by constructor|].
      intros [[= ? ?]|H]; [done|]. inversion H; subst; [done|congruence].
Qed.

Lemma lex_lt_irrefl (a : list Z) : ~ lex_lt a a.
Proof. induction a as [|x a IH]; inversion 1; subst; [lia|auto]. Qed.

Lemma version_ok_spec (old_version version : string) (old_i new_i : list Z) :
  version_ints old_version = OK old_i ->
  version_ints version = OK new_i ->
  exists ok, version_ok old_version version = OK ok /\
    (ok = true <-> permitted old_version version old_i new_i).
Proof.
  intros Ho Hn. unfold version_ok, permitted. rewrite Ho, Hn.
  eexists; split; [done|].
  destruct (Py.contains "-pre" old_version).
  - rewrite list_le_lex. intuition congruence.
  - rewrite list_lt_lex. intuition congruence.
Qed.

(** ** The walk *)

Lemma elem_of_walk {L : Listing} (fs : gmap string string) (f : string) :
  f ∈ walk fs <-> is_build_file f = true /\ is_Some (fs !! f).
Proof.
  unfold walk.
  rewrite list_elem_of_filter, (os_walk_lists (dom fs)), elem_of_elements, elem_of_dom.
  done.
Qed.

Lemma NoDup_walk {L : Listing} (fs : gmap string string) : NoDup (walk fs).
Proof.
  apply NoDup_filter. rewrite (os_walk_lists (dom fs)). apply NoDup_elements.
Qed.

Lemma walk_same_dom {L : Listing} (fs fs' : gmap string string) :
  (forall f, is_Some (fs' !! f) <-> is_Some (fs !! f)) -> walk fs' = walk fs.
Proof.
  intros H. unfold walk. f_equal. f_equal. apply set_eq. intros f.
  rewrite !elem_of_dom. apply H.
Qed.

Section Preorders.
Context {E : Type} {L : Listing}.
Variable exec : list string -> gmap string string -> E -> Z * gmap string string * E.
Variable compile_escapes : string -> compiled.

Implicit Types (w : world E) (f v version : string) (dry_run : bool).

(** ** The monad *)

Lemma bind_OK_inv {A B : Type} (m : M E A) (k : A -> M E B) w b w' :
  bind m k w = (OK b, w') ->
  exists a w1, m w = (OK a, w1) /\ k a w1 = (OK b, w').
Proof.
  unfold bind. destruct (m w) as [[a|e] w1]; [eauto|discriminate].
Qed.

Lemma bind_Raise_inv {A B : Type} (m : M E A) (k : A -> M E B) w e w' :
  bind m k w = (Raise e, w') ->
  m w = (Raise e, w') \/ exists a w1, m w = (OK a, w1) /\ k a w1 = (Raise e, w').
Proof.
  unfold bind. destruct (m w) as [[a|e1] w1]; [eauto|]. intros [= -> ->]. by left.
Qed.

Section Along.
Variable T : world E -> world E -> Prop.
Hypothesis T_refl : forall w, T w w.
Hypothesis T_trans : forall w1 w2 w3, T w1 w2 -> T w2 w3 -> T w1 w3.

Lemma along_ret {A : Type} (a : A) : along T (ret a).
Proof. intros w. apply T_refl. Qed.

Lemma along_raise {A : Type} (e : exn) : along T (raise (A:=A) e).
Proof. intros w. apply T_refl. Qed.

Lemma along_lift {A : Type} (r : result A) : along T (lift r).
Proof. intros w. apply T_refl. Qed.

Lemma along_bind {A B : Type} (m : M E A) (k : A -> M E B) :
  along T m -> (forall a, along T (k a)) -> along T (bind m k).
Proof.
  intros Hm Hk w. unfold bind. specialize (Hm w).
  destruct (m w) as [[a|e] w1]; simpl in *; [|done].
  eapply T_trans; [exact Hm|apply Hk].
Qed.

Lemma along_for_each {A : Type} (l : list A) (body : A -> M E unit) :
  (forall x, along T (body x)) -> along T (for_each l body).
Proof.
  intros Hb. induction l as [|x l IH]; simpl.
  - apply along_ret.
  - apply along_bind; auto.
Qed.

Lemma along_collect {A B : Type} (l : list A) (g : A -> M E B) :
  (forall x, along T (g x)) -> along T (collect l g).
Proof.
  intros Hg. induction l as [|x l IH]; simpl.
  - apply along_ret.
  - apply along_bind; [auto|]. intros y. apply along_bind; [auto|].
    intros ys. apply along_ret.
Qed.

Lemma along_read f : along T (read f).
Proof. intros w. unfold read. destruct (files w !! f); apply T_refl. Qed.

Lemma along_build_filenames : along T build_filenames.
Proof. intros w. apply T_refl. Qed.

Lemma along_get_version_from_build f : along T (get_version_from_build f).
Proof.
  apply along_bind; [apply along_read|]. intros c.
  destruct (first_version _); [apply along_ret|apply along_raise].
Qed.

Lemma along_found_versions : along T found_versions.
Proof.
  apply along_bind; [apply along_build_filenames|]. intros names.
  apply along_collect, along_get_version_from_build.
Qed.

Lemma along_VERSION_RE_sub template contents :
  along T (VERSION_RE_sub compile_escapes template contents).
Proof.
  unfold VERSION_RE_sub. destruct (compile_repl _ _); [apply along_ret|apply along_raise].
Qed.

(** When printing does, and outside dry-run mode writing and running do,
    move the world along [T], the whole script does. *)
Variable dry_run : bool.
Hypothesis T_print : forall m, along T (print m).
Hypothesis T_write : dry_run = false -> forall f c, along T (write f c).
Hypothesis T_run :
  dry_run = false -> forall command, along T (run_command exec command false).

Lemma along_run_command command : along T (run_command exec command dry_run).
Proof. destruct dry_run; [apply T_print|by apply T_run]. Qed.

Lemma along_rewrite_build_files version :
  along T (rewrite_build_files compile_escapes version dry_run).
Proof.
  apply along_bind; [apply along_build_filenames|]. intros names.
  apply along_for_each. intros f.
  apply along_bind; [apply along_read|]. intros c.
  apply along_bind; [apply along_VERSION_RE_sub|]. intros c'.
  destruct dry_run; [apply T_print|by apply T_write].
Qed.

Lemma along_set_version version :
  along T (set_version compile_escapes version dry_run).
Proof.
  apply along_bind; [apply along_found_versions|]. intros versions.
  case_decide; [|apply along_raise].
  destruct versions as [|old ?]; [apply along_raise|].
  apply along_bind; [apply along_lift|]. intros [|];
    [apply along_rewrite_build_files|apply along_raise].
Qed.

Lemma along_commit_version_bump version auditors :
  along T (commit_version_bump exec version auditors dry_run).
Proof.
  apply along_bind; [apply along_build_filenames|]. intros names.
  apply along_bind; [|intros _; apply along_run_command].
  apply along_for_each. intros f. apply along_run_command.
Qed.

Lemma along_git_push : along T (git_push exec dry_run).
Proof. apply along_bind; [|intros _]; apply along_run_command. Qed.

Lemma along_do_release version auditors :
  along T (do_release exec compile_escapes version auditors dry_run).
Proof.
  unfold do_release.
  apply along_bind; [apply along_set_version|intros _].
  apply along_bind; [apply along_commit_version_bump|intros _].
  apply along_bind; [apply along_run_command|intros _].
  apply along_bind; [apply along_git_push|intros _].
  apply along_bind; [apply along_run_command|intros _].
  apply along_bind; [apply along_lift|intros next].
  apply along_bind; [apply along_set_version|intros _].
  apply along_bind; [apply along_commit_version_bump|intros _].
  apply along_git_push.
Qed.

End Along.

(** *** Dry-run mode *)

Lemma only_printed_refl w : only_printed w w.
Proof. repeat split. exists []. by rewrite app_nil_r. Qed.

Lemma only_printed_trans w1 w2 w3 :
  only_printed w1 w2 -> only_printed w2 w3 -> only_printed w1 w3.
Proof.
  intros (Hf1 & Hx1 & evs1 & Ht1 & Hp1) (Hf2 & Hx2 & evs2 & Ht2 & Hp2).
  repeat split; [congruence..|].
  exists (evs1 ++ evs2). split; [|by apply Forall_app].
  by rewrite Ht2, Ht1, app_assoc.
Qed.

Lemma only_printed_print m : along (only_printed (E:=E)) (print m).
Proof.
  intros w. repeat split. exists [Printed m]. split; [done|].
  constructor; [by eexists|constructor].
Qed.

(** *** The trace only grows *)

Lemma grows_refl w : grows w w.
Proof. exists []. by rewrite app_nil_r. Qed.

Lemma grows_trans w1 w2 w3 : grows w1 w2 -> grows w2 w3 -> grows w1 w3.
Proof.
  intros [evs1 H1] [evs2 H2]. exists (evs1 ++ evs2).
  by rewrite H2, H1, app_assoc.
Qed.

Lemma grows_print m : along (grows (E:=E)) (print m).
Proof. intros w. by eexists. Qed.

Lemma grows_write f c : along (grows (E:=E)) (write f c).
Proof. intros w. by eexists. Qed.

Lemma grows_run command : along grows (run_command exec command false).
Proof.
  intros w. unfold run_command.
  destruct (has_null command); [apply grows_refl|].
  destruct (exec command (files w) (ext w)) as [[rc fs] x].
  destruct (rc =? 0); by eexists.
Qed.

(** *** Reading changes nothing *)

Lemma found_versions_same w : (found_versions w).2 = w.
Proof. apply (along_found_versions same); unfold same; congruence. Qed.

End Preorders.

Section First_loop.
Context {E : Type} {L : Listing}.
Variable exec : list string -> gmap string string -> E -> Z * gmap string string * E.
Variable compile_escapes : string -> compiled.

Implicit Types (w : world E) (f v version : string) (dry_run : bool).

(** ** The first loop of [set_version] *)

Lemma get_version_from_build_eq f w :
  get_version_from_build f w =
  match files w !! f with
  | None => (Raise (FileNotFoundError f), w)
  | Some _ =>
      match declared w f with
      | Some v => (OK v, w)
      | None => (Raise (VersionParsingError f), w)
      end
  end.
Proof.
  unfold get_version_from_build, bind, read, declared.
  destruct (files w !! f) as [stored|]; [|done].
  by destruct (first_version _).
Qed.

Lemma collect_versions (names : list string) w :
  Forall (fun f => is_Some (files w !! f)) names ->
  match collect names get_version_from_build w with
  | (OK versions, w') => w' = w /\ Forall2 (fun f v => declared w f = Some v) names versions
  | (Raise e, w') =>
      w' = w /\ exists f, f ∈ names /\ declared w f = None /\ e = VersionParsingError f
  end.
Proof.
  induction 1 as [|f names [c Hc] _ IH]; [by repeat constructor|].
  cbn [collect]. unfold bind at 1. rewrite get_version_from_build_eq, Hc.
  destruct (declared w f) as [v|] eqn:Hv.
  - unfold bind at 1.
    destruct (collect names get_version_from_build w) as [[versions|e] w'].
    + destruct IH as [-> IH]. split; [done|]. by constructor.
    + destruct IH as [-> (g & Hg & Hd & ->)]. split; [done|].
      exists g. split; [by right|done].
  - split; [done|]. exists f. split; [by left|done].
Qed.

Lemma found_versions_spec w :
  match found_versions w with
  | (OK versions, w') =>
      w' = w /\ Forall2 (fun f v => declared w f = Some v) (walk (files w)) versions
  | (Raise e, w') =>
      w' = w /\ exists f, f ∈ walk (files w) /\ declared w f = None
                          /\ e = VersionParsingError f
  end.
Proof.
  unfold found_versions, bind, build_filenames.
  apply collect_versions, Forall_forall. by intros f [_ ?]%elem_of_walk.
Qed.

Lemma agree_on_found w v :
  agree_on w v ->
  exists rest, found_versions w = (OK (v :: rest), w) /\
    (list_to_set (v :: rest) : gset string) = {[ v ]}.
Proof.
  intros [Hne Hall]. pose proof (found_versions_spec w) as H.
  destruct (found_versions w) as [[versions|e] w'].
  - destruct H as [-> H].
    assert (Forall (fun x => x = v) versions) as Hv.
    { clear Hne. induction H as [|f x names versions Hx _ IH];
        [constructor|].
      apply Forall_cons in Hall as [Hf Hall]. constructor; [congruence|auto]. }
    destruct versions as [|x rest].
    + apply Forall2_nil_inv_r in H. done.
    + apply Forall_cons in Hv as [-> Hv]. exists rest. split; [done|].
      apply set_eq. intros y. rewrite elem_of_list_to_set, elem_of_singleton.
      split; [|intros ->; by left].
      intros [->|Hy]%elem_of_cons; [done|].
      by apply (proj1 (Forall_forall _ _) Hv).
  - destruct H as [_ (f & Hf & Hd & _)].
    apply (proj1 (Forall_forall _ _) Hall) in Hf. congruence.
Qed.

Lemma declared_unique w (names versions versions' : list string) :
  Forall2 (fun f v => declared w f = Some v) names versions ->
  Forall2 (fun f v => declared w f = Some v) names versions' ->
  versions' = versions.
Proof.
  intros H. revert versions'.
  induction H as [|f x names vs Hx _ IH]; intros versions' Hd;
    inversion Hd; subst; [done|].
  f_equal; [congruence|auto].
Qed.

Lemma found_versions_declared w (versions : list string) :
  Forall2 (fun f v => declared w f = Some v) (walk (files w)) versions ->
  found_versions w = (OK versions, w).
Proof.
  intros Hdecl. pose proof (found_versions_spec w) as Hf.
  destruct (found_versions w) as [[versions'|e] w1].
  - destruct Hf as [-> Hf]. by rewrite (declared_unique _ _ _ _ Hdecl Hf).
  - destruct Hf as [_ (f & Hf & Hnone & _)].
    apply list_elem_of_lookup in Hf as [i Hi].
    destruct (Forall2_lookup_l _ _ _ _ _ Hdecl Hi) as (v & _ & Hv). congruence.
Qed.

(** ** [set_version], by cases *)

Lemma set_version_eq version dry_run w :
  set_version compile_escapes version dry_run w =
  match (found_versions w).1 with
  | Raise e => (Raise e, w)
  | OK versions =>
      if decide (size (list_to_set versions : gset string) = 1%nat) then
        match versions with
        | [] => (Raise (IndexError No_item), w)
        | old_version :: _ =>
            match version_ok old_version version with
            | Raise e => (Raise e, w)
            | OK true => rewrite_build_files compile_escapes version dry_run w
            | OK false =>
                (Raise (InvalidVersionError (Not_allowed old_version version)), w)
            end
        end
      else (Raise (InvalidVersionError (Inconsistent versions)), w)
  end.
Proof.
  unfold set_version, bind at 1.
  pose proof (found_versions_same w) as Hw.
  destruct (found_versions w) as [[versions|e] w']; simpl in *; subst w'; [|done].
  case_decide; [|done]. destruct versions as [|old ?]; [done|].
  unfold bind, lift. by destruct (version_ok old version) as [[|]|].
Qed.

Lemma set_version_agree version dry_run w old_version :
  agree_on w old_version ->
  set_version compile_escapes version dry_run w =
  match version_ok old_version version with
  | Raise e => (Raise e, w)
  | OK true => rewrite_build_files compile_escapes version dry_run w
  | OK false => (Raise (InvalidVersionError (Not_allowed old_version version)), w)
  end.
Proof.
  intros (rest & Hf & Hs)%agree_on_found. rewrite set_version_eq, Hf. cbn [fst].
  rewrite decide_True; [done|].
  rewrite Hs. apply size_singleton.
Qed.

End First_loop.

Section Second_loop.
Context {E : Type} {L : Listing}.
Variable exec : list string -> gmap string string -> E -> Z * gmap string string * E.
Variable compile_escapes : string -> compiled.

Implicit Types (w : world E) (f v version : string) (dry_run : bool).

(** ** The second loop of [set_version] *)

Lemma rewrite_step version dry_run f w stored :
  files w !! f = Some stored ->
  (contents <~ read f ;
   contents' <~ VERSION_RE_sub compile_escapes (version_line version) contents ;
   if dry_run then print (Would_set_contents f contents')
   else write f contents') w =
  match compile_repl compile_escapes (version_line version) with
  | Refuses why => (Raise (template_exn why (version_line version)), w)
  | Replaces repl =>
      if dry_run
      then print (Would_set_contents f (rewritten repl stored)) w
      else write f (rewritten repl stored) w
  end.
Proof.
  intros Hf. unfold bind, read, VERSION_RE_sub. rewrite Hf.
  destruct (compile_repl _ _); [|done]. simpl. by destruct dry_run.
Qed.

Lemma rewrite_loop_raises version dry_run (names : list string) w e w' :
  Forall (fun f => is_Some (files w !! f)) names ->
  for_each names (fun build_filename =>
    contents <~ read build_filename ;
    contents' <~ VERSION_RE_sub compile_escapes (version_line version) contents ;
    if dry_run then print (Would_set_contents build_filename contents')
    else write build_filename contents') w = (Raise e, w') ->
  exists why,
    e = template_exn why (version_line version) /\
    compile_repl compile_escapes (version_line version) = Refuses why.
Proof.
  intros Hall. revert w Hall.
  induction names as [|f names IH]; intros w Hall; [done|].
  apply Forall_cons in Hall as [[stored Hf] Hall].
  cbn [for_each]. unfold bind at 1. rewrite (rewrite_step _ _ _ _ _ Hf).
  destruct (compile_repl _ _) as [repl|why] eqn:Hc;
    [|intros [= <- <-]; by exists why].
  destruct dry_run.
  - apply IH. exact Hall.
  - apply IH. simpl. eapply Forall_impl; [exact Hall|].
    intros g Hg. by apply lookup_insert_is_Some'; right.
Qed.

Lemma rewrite_loop_refused version dry_run (names : list string) w f why :
  compile_repl compile_escapes (version_line version) = Refuses why ->
  is_Some (files w !! f) ->
  for_each (f :: names) (fun build_filename =>
    contents <~ read build_filename ;
    contents' <~ VERSION_RE_sub compile_escapes (version_line version) contents ;
    if dry_run then print (Would_set_contents build_filename contents')
    else write build_filename contents') w
  = (Raise (template_exn why (version_line version)), w).
Proof.
  intros Hc [stored Hf]. cbn [for_each]. unfold bind at 1.
  by rewrite (rewrite_step _ _ _ _ _ Hf), Hc.
Qed.

Lemma rewrite_loop_written version dry_run repl (names : list string) :
  dry_run = false ->
  compile_repl compile_escapes (version_line version) = Replaces repl ->
  NoDup names ->
  forall w, Forall (fun f => is_Some (files w !! f)) names ->
  exists w',
    for_each names (fun build_filename =>
      contents <~ read build_filename ;
      contents' <~ VERSION_RE_sub compile_escapes (version_line version) contents ;
      if dry_run then print (Would_set_contents build_filename contents')
      else write build_filename contents') w = (OK tt, w')
    /\ ext w' = ext w
    /\ forall f, files w' !! f =
         if decide (f ∈ names) then rewritten repl <$> files w !! f
         else files w !! f.
Proof.
  intros Hd Hc. induction 1 as [|x names Hx _ IH]; intros w Hall.
  - exists w. split; [done|]. split; [done|]. intros f.
    rewrite decide_False; [done|]. by inversion 1.
  - apply Forall_cons in Hall as [[stored Hf] Hall].
    cbn [for_each]. unfold bind at 1. rewrite (rewrite_step _ _ _ _ _ Hf), Hc.
    assert ((if dry_run
             then print (Would_set_contents x (rewritten repl stored)) w
             else write x (rewritten repl stored) w)
            = write x (rewritten repl stored) w) as -> by (by rewrite Hd).
    cbn [write]. set (w1 := World _ _ _).
    destruct (IH w1) as (w' & Hrun & Hext & Hfiles).
    { eapply Forall_impl; [exact Hall|]. intros g Hg.
      by apply lookup_insert_is_Some'; right. }
    exists w'. split; [exact Hrun|]. split; [by rewrite Hext|].
    intros f. rewrite Hfiles. subst w1. cbn [files].
    destruct (decide (f = x)) as [->|Hne].
    + rewrite decide_False by done. rewrite decide_True by (by left).
      by rewrite lookup_insert_eq, Hf.
    + rewrite lookup_insert_ne by done.
      destruct (decide (f ∈ names)) as [Hin|Hin].
      * rewrite decide_True by (by right). done.
      * rewrite decide_False; [done|]. by intros [->|?]%elem_of_cons.
Qed.

Lemma rewrite_build_files_raises version dry_run w e w' :
  rewrite_build_files compile_escapes version dry_run w = (Raise e, w') ->
  exists why,
    e = template_exn why (version_line version) /\
    compile_repl compile_escapes (version_line version) = Refuses why.
Proof.
  unfold rewrite_build_files, bind at 1, build_filenames.
  apply rewrite_loop_raises, Forall_forall. by intros f [_ ?]%elem_of_walk.
Qed.

Lemma rewrite_build_files_written version dry_run w w' :
  dry_run = false ->
  walk (files w) <> [] ->
  rewrite_build_files compile_escapes version dry_run w = (OK tt, w') ->
  exists repl,
    compile_repl compile_escapes (version_line version) = Replaces repl
    /\ ext w' = ext w
    /\ forall f, files w' !! f =
         if decide (f ∈ walk (files w)) then rewritten repl <$> files w !! f
         else files w !! f.
Proof.
  intros Hd Hne. unfold rewrite_build_files, bind at 1, build_filenames.
  assert (Forall (fun f => is_Some (files w !! f)) (walk (files w))) as Hall.
  { apply Forall_forall. by intros f [_ ?]%elem_of_walk. }
  destruct (compile_repl compile_escapes (version_line version)) as [repl|why] eqn:Hc.
  - destruct (rewrite_loop_written _ _ _ _ Hd Hc (NoDup_walk (files w)) w Hall)
      as (w1 & Hrun & Hext & Hfiles).
    rewrite Hrun. intros [= <-]. by exists repl.
  - destruct (walk (files w)) as [|f names] eqn:Hw; [done|].
    apply Forall_cons in Hall as [Hf _].
    by rewrite (rewrite_loop_refused _ _ _ _ _ _ Hc Hf).
Qed.

End Second_loop.

(** ** [VERSION_RE.sub], step by step *)

Lemma sub_from_Some repl (bol : bool) s v rest :
  (if bol then match_at s else None) = Some (v, rest) ->
  sub_from repl bol s = repl (PREFIX +:+ v +:+ Q) v +:+ sub_from repl false rest.
Proof.
  intros H. rewrite sub_from_equation_1.
  destruct (inspect (if bol then match_at s else None)) as [[[v' rest']|] Hm].
  - rewrite sub_from_clause_1_equation_1.
    rewrite H in Hm. by injection Hm as <- <-.
  - congruence.
Qed.

Lemma sub_from_None repl (bol : bool) s :
  (if bol then match_at s else None) = None ->
  sub_from repl bol s =
  match s with
  | "" => ""
  | String c s' => String c (sub_from repl (Ascii.eqb c Py.LF) s')
  end.
Proof.
  intros H. rewrite sub_from_equation_1.
  destruct (inspect (if bol then match_at s else None)) as [[[v' rest']|] Hm].
  - congruence.
  - rewrite sub_from_clause_1_equation_2. clear H.
    destruct s.
    + by rewrite sub_from_clause_1_clause_2_equation_1.
    + by rewrite sub_from_clause_1_clause_2_equation_2.
Qed.

Lemma sub_from_true_None repl s :
  match_at s = None -> sub_from repl true s = sub_from repl false s.
Proof. intros H. by rewrite !sub_from_None. Qed.

(** Off the start of a line, a text without line feed is copied. *)
Lemma sub_from_false_app repl (l t : string) :
  Py.has_char Py.LF l = false ->
  sub_from repl false (l +:+ t) = l +:+ sub_from repl false t.
Proof.
  induction l as [|c l IH]; [done|]. cbn [Py.has_char].
  intros [Hc Hl]%orb_false_iff. rewrite !append_cons.
  rewrite sub_from_None by done. rewrite Hc. by rewrite IH.
Qed.

Lemma sub_from_false_LF repl (t : string) :
  sub_from repl false (String Py.LF t) = String Py.LF (sub_from repl true t).
Proof. by rewrite sub_from_None. Qed.

Lemma sub_from_nil repl (bol : bool) : sub_from repl bol "" = "".
Proof. rewrite sub_from_None; [done|]. by destruct bol. Qed.

(** ** Lines *)

(** A text ends, or goes on with a line feed. *)
Inductive line_end : string -> Prop :=
| line_end_eof : line_end ""
| line_end_LF (rest : string) : line_end (String Py.LF rest).

Lemma first_line (s : string) :
  exists l t, s = l +:+ t /\ Py.has_char Py.LF l = false /\ line_end t.
Proof.
  induction s as [|c s (l & t & -> & Hl & Ht)].
  - exists "", "". repeat split. constructor.
  - destruct (Ascii.eqb_spec c Py.LF) as [->|Hc].
    + exists "", (String Py.LF (l +:+ t)). repeat split. constructor.
    + exists (String c l), t. split; [done|]. split; [|done].
      cbn [Py.has_char]. rewrite Hl. apply orb_false_iff. split; [|done].
      by apply Ascii.eqb_neq.
Qed.

(** Induction on a text, line by line. *)
Lemma line_ind (P : string -> Prop) :
  P "" ->
  (forall l, Py.has_char Py.LF l = false -> l <> "" -> P l) ->
  (forall l rest, Py.has_char Py.LF l = false -> P rest ->
     P (l +:+ String Py.LF rest)) ->
  forall s, P s.
Proof.
  intros Hnil Hlast Hline s.
  remember (String.length s) as n eqn:Hn. revert s Hn.
  induction n as [n IH] using lt_wf_ind. intros s ->.
  destruct (first_line s) as (l & t & -> & Hl & Ht).
  destruct Ht as [|rest].
  - rewrite append_nil_r. destruct l as [|c l]; [done|]. by apply Hlast.
  - apply Hline; [done|]. eapply IH; [|done].
    clear. induction l as [|c l IHl]; simpl; lia.
Qed.

Lemma readlines_line (l rest : string) :
  Py.has_char Py.LF l = false ->
  readlines (l +:+ String Py.LF rest) = (l +:+ NL) :: readlines rest.
Proof.
  induction l as [|c l IH]; [done|]. cbn [Py.has_char].
  intros [Hc Hl]%orb_false_iff. rewrite !append_cons. cbn [readlines].
  rewrite Hc, IH by done. done.
Qed.

Lemma readlines_last (l : string) :
  Py.has_char Py.LF l = false -> l <> "" -> readlines l = [l].
Proof.
  induction l as [|c l IH]; [done|]. cbn [Py.has_char].
  intros [Hc Hl]%orb_false_iff _. cbn [readlines]. rewrite Hc.
  destruct l as [|d l]; [done|]. by rewrite IH.
Qed.

(** A text without line feed in front of a text goes to its first line. *)
Lemma readlines_app (a t : string) :
  Py.has_char Py.LF a = false -> a <> "" ->
  readlines (a +:+ t) =
  match readlines t with
  | [] => [a]
  | l :: ls => (a +:+ l) :: ls
  end.
Proof.
  induction a as [|c a IH]; [done|]. cbn [Py.has_char].
  intros [Hc Ha]%orb_false_iff _. rewrite append_cons. cbn [readlines].
  rewrite Hc. destruct a as [|d a].
  - change ("" +:+ t) with t. by destruct (readlines t).
  - rewrite IH by done. by destruct (readlines t).
Qed.

(** ** Matches and lines *)

Lemma strip_prefix_self (p u : string) : strip_prefix p (p +:+ u) = Some u.
Proof.
  induction p as [|a p IH]; [by destruct u|].
  rewrite append_cons. cbn [strip_prefix]. by rewrite Ascii.eqb_refl.
Qed.

Lemma strip_prefix_app (p l t r : string) :
  strip_prefix p l = Some r -> strip_prefix p (l +:+ t) = Some (r +:+ t).
Proof.
  revert l; induction p as [|a p IH]; intros l.
  - destruct l; intros [= <-]; by destruct t.
  - destruct l as [|b l]; [done|]. rewrite append_cons. cbn [strip_prefix].
    destruct (Ascii.eqb a b); [apply IH|done].
Qed.

Lemma strip_prefix_None_line (p l rest : string) :
  Py.has_char Py.LF p = false ->
  strip_prefix p (l +:+ NL) = None ->
  strip_prefix p ((l +:+ NL) +:+ rest) = None.
Proof.
  revert l; induction p as [|a p IH]; intros l.
  - by destruct (l +:+ NL).
  - cbn [Py.has_char]. intros [Ha Hp]%orb_false_iff.
    destruct l as [|b l].
    + intros _. change (("" +:+ NL) +:+ rest) with (String Py.LF rest).
      cbn [strip_prefix]. by rewrite Ha.
    + rewrite !append_cons. cbn [strip_prefix].
      destruct (Ascii.eqb a b); [by apply IH|done].
Qed.

Lemma strip_prefix_line (p l r : string) :
  Py.has_char Py.LF p = false -> Py.has_char Py.LF l = false ->
  strip_prefix p (l +:+ NL) = Some r ->
  exists l', r = l' +:+ NL /\ Py.has_char Py.LF l' = false.
Proof.
  revert l; induction p as [|a p IH]; intros l.
  - intros _ Hl H. exists l. split; [|done].
    destruct (l +:+ NL); by injection H as <-.
  - cbn [Py.has_char]. intros [Ha Hp]%orb_false_iff.
    destruct l as [|b l].
    + intros _. change ("" +:+ NL) with (String Py.LF "").
      cbn [strip_prefix]. by rewrite Ha.
    + cbn [Py.has_char]. intros [Hb Hl]%orb_false_iff.
      rewrite append_cons. cbn [strip_prefix].
      destruct (Ascii.eqb a b); [by apply IH|done].
Qed.

Lemma strip_prefix_has_char (c : ascii) (p l r : string) :
  strip_prefix p l = Some r -> Py.has_char c l = false -> Py.has_char c r = false.
Proof.
  revert l; induction p as [|a p IH]; intros l.
  - destruct l; by intros [= <-].
  - destruct l as [|b l]; [done|]. cbn [strip_prefix Py.has_char].
    destruct (Ascii.eqb a b); [|done]. intros H [_ Hl]%orb_false_iff. eauto.
Qed.

Lemma until_quote_self (x t : string) :
  Py.has_char Py.DQUOTE x = false ->
  until_quote (x +:+ String Py.DQUOTE t) = Some (x, t).
Proof.
  induction x as [|c x IH]; [done|]. cbn [Py.has_char].
  intros [Hc Hx]%orb_false_iff. rewrite append_cons. cbn [until_quote].
  by rewrite Hc, IH.
Qed.

Lemma until_quote_app (s t v r : string) :
  until_quote s = Some (v, r) -> until_quote (s +:+ t) = Some (v, r +:+ t).
Proof.
  revert v; induction s as [|c s IH]; intros v; [done|].
  rewrite append_cons. cbn [until_quote].
  destruct (Ascii.eqb c Py.DQUOTE); [by intros [= <- <-]|].
  destruct (until_quote s) as [[v' r']|]; [|done].
  intros [= <- <-]. by rewrite (IH _ eq_refl).
Qed.

Lemma until_quote_line (l v r : string) :
  Py.has_char Py.LF l = false ->
  until_quote (l +:+ NL) = Some (v, r) ->
  exists l', r = l' +:+ NL /\ Py.has_char Py.LF l' = false.
Proof.
  revert v; induction l as [|c l IH]; intros v; [done|].
  cbn [Py.has_char]. intros [Hc Hl]%orb_false_iff.
  rewrite append_cons. cbn [until_quote].
  destruct (Ascii.eqb c Py.DQUOTE); [intros [= <- <-]; eauto|].
  destruct (until_quote (l +:+ NL)) as [[v' r']|]; [|done].
  intros [= <- <-]. eauto.
Qed.

Lemma until_quote_has_char (c : ascii) (s v r : string) :
  until_quote s = Some (v, r) -> Py.has_char c s = false -> Py.has_char c r = false.
Proof.
  revert v; induction s as [|d s IH]; intros v; [done|].
  cbn [until_quote Py.has_char]. intros H [_ Hs]%orb_false_iff.
  destruct (Ascii.eqb d Py.DQUOTE); [by injection H as <- <-|].
  destruct (until_quote s) as [[v' r']|]; [|done].
  injection H as <- <-. eauto.
Qed.

Lemma until_quote_found (s : string) :
  Py.has_char Py.DQUOTE s = true -> exists v r, until_quote s = Some (v, r).
Proof.
  induction s as [|c s IH]; [done|]. cbn [Py.has_char until_quote].
  destruct (Ascii.eqb c Py.DQUOTE); [eauto|]. simpl.
  intros (v & r & ->)%IH. eauto.
Qed.

Lemma match_at_version_line (x t : string) :
  x <> "" -> Py.has_char Py.DQUOTE x = false ->
  match_at (version_line x +:+ t) = Some (x, t).
Proof.
  intros Hne Hx. unfold match_at, version_line.
  rewrite append_assoc, strip_prefix_self, append_assoc.
  change (Q +:+ t) with (String Py.DQUOTE t).
  rewrite until_quote_self by done. by destruct x.
Qed.

Lemma match_at_app (s t v r : string) :
  match_at s = Some (v, r) -> match_at (s +:+ t) = Some (v, r +:+ t).
Proof.
  unfold match_at.
  destruct (strip_prefix PREFIX s) as [s1|] eqn:Hp; [|done].
  rewrite (strip_prefix_app _ _ t _ Hp).
  destruct (until_quote s1) as [[[|c w] r']|] eqn:Hq; try done.
  rewrite (until_quote_app _ t _ _ Hq). by intros [= <- <-].
Qed.

Lemma match_at_None_closed (s t : string) :
  line_closed s = true -> match_at s = None ->
  strip_prefix PREFIX s <> None -> match_at (s +:+ t) = None.
Proof.
  unfold line_closed, match_at.
  destruct (strip_prefix PREFIX s) as [s1|] eqn:Hp; [|done].
  intros (v & r & Hq)%until_quote_found. rewrite Hq.
  rewrite (strip_prefix_app _ _ t _ Hp), (until_quote_app _ t _ _ Hq).
  by destruct v.
Qed.

Lemma match_at_None_line (l rest : string) :
  line_closed (l +:+ NL) = true -> match_at (l +:+ NL) = None ->
  match_at ((l +:+ NL) +:+ rest) = None.
Proof.
  intros Hc Hm.
  destruct (strip_prefix PREFIX (l +:+ NL)) as [s1|] eqn:Hp.
  - apply match_at_None_closed; [done..|]. by rewrite Hp.
  - unfold match_at. by rewrite strip_prefix_None_line.
Qed.

Lemma match_at_line (l v r : string) :
  Py.has_char Py.LF l = false ->
  match_at (l +:+ NL) = Some (v, r) ->
  exists l', r = l' +:+ NL /\ Py.has_char Py.LF l' = false.
Proof.
  intros Hl. unfold match_at.
  destruct (strip_prefix PREFIX (l +:+ NL)) as [s1|] eqn:Hp; [|done].
  apply strip_prefix_line in Hp as (l1 & -> & Hl1); [|done..].
  destruct (until_quote (l1 +:+ NL)) as [[[|c w] r']|] eqn:Hq; try done.
  intros [= _ <-]. by eapply until_quote_line.
Qed.

Lemma match_at_has_char (c : ascii) (s v r : string) :
  match_at s = Some (v, r) -> Py.has_char c s = false -> Py.has_char c r = false.
Proof.
  unfold match_at.
  destruct (strip_prefix PREFIX s) as [s1|] eqn:Hp; [|done].
  destruct (until_quote s1) as [[[|d w] r']|] eqn:Hq; try done.
  intros [= _ <-] Hs. eapply until_quote_has_char; [done|].
  by eapply strip_prefix_has_char.
Qed.

(** ** Searching a line *)

Lemma search_from_false (l : string) :
  Py.has_char Py.LF l = false ->
  search_from false l = None /\ search_from false (l +:+ NL) = None.
Proof.
  induction l as [|c l IH]; [done|]. cbn [Py.has_char].
  intros [Hc Hl]%orb_false_iff. rewrite append_cons. cbn [search_from].
  rewrite Hc. auto.
Qed.

Lemma search_unfold (s : string) :
  search s =
  match match_at s with
  | Some (v, _) => Some v
  | None =>
      match s with
      | "" => None
      | String c s' => search_from (Ascii.eqb c Py.LF) s'
      end
  end.
Proof. by destruct s. Qed.

Lemma search_match (s v r : string) : match_at s = Some (v, r) -> search s = Some v.
Proof. intros H. by rewrite search_unfold, H. Qed.

Lemma search_last (l : string) :
  Py.has_char Py.LF l = false -> match_at l = None -> search l = None.
Proof.
  intros Hl Hm. rewrite search_unfold, Hm. destruct l as [|c l]; [done|].
  cbn [Py.has_char] in Hl. apply orb_false_iff in Hl as [-> Hl].
  by apply search_from_false.
Qed.

Lemma search_line (l : string) :
  Py.has_char Py.LF l = false -> match_at (l +:+ NL) = None ->
  search (l +:+ NL) = None.
Proof.
  intros Hl Hm. rewrite search_unfold, Hm. destruct l as [|c l]; [done|].
  cbn [Py.has_char] in Hl. apply orb_false_iff in Hl as [Hc Hl].
  rewrite append_cons, Hc. by apply search_from_false.
Qed.

(** ** The rewritten text *)

(** The version read back from a text that starts with the new version
    line. *)
Lemma first_version_version_line (x t : string) :
  x <> "" -> Py.has_char Py.DQUOTE x = false -> Py.has_char Py.LF x = false ->
  first_version (readlines (version_line x +:+ t)) = Some x.
Proof.
  intros Hne Hq Hl. rewrite readlines_app.
  - destruct (readlines t) as [|l ls]; cbn [first_version].
    + rewrite <- (append_nil_r (version_line x)).
      by rewrite (search_match _ x ""); [|apply match_at_version_line].
    + by rewrite (search_match _ x l); [|apply match_at_version_line].
  - unfold version_line. by rewrite !has_char_app, Hl.
  - done.
Qed.

(** After the rewriting the first version line found is the new one. *)
Lemma first_version_sub (x s v : string) :
  x <> "" -> Py.has_char Py.DQUOTE x = false -> Py.has_char Py.LF x = false ->
  first_version (readlines s) = Some v ->
  first_version (readlines (sub (fun _ _ => version_line x) s)) = Some x.
Proof.
  intros Hne Hq Hl. unfold sub. revert v.
  induction s as [|l Hl' Hnil|l rest Hl' IH] using line_ind; intros v.
  - done.
  - rewrite readlines_last by done. cbn [first_version].
    destruct (match_at l) as [[v' r]|] eqn:Hm.
    + intros _. rewrite (sub_from_Some _ true _ _ _ Hm).
      by apply first_version_version_line.
    + by rewrite search_last.
  - rewrite readlines_line by done. cbn [first_version].
    destruct (match_at (l +:+ String Py.LF rest)) as [[v' r]|] eqn:Hm.
    + intros _. rewrite (sub_from_Some _ true _ _ _ Hm).
      by apply first_version_version_line.
    + assert (match_at (l +:+ NL) = None) as Hm'.
      { destruct (match_at (l +:+ NL)) as [[v' r]|] eqn:Hm'; [|done].
        apply (match_at_app _ rest) in Hm'.
        rewrite append_assoc in Hm'. change (NL +:+ rest) with (String Py.LF rest) in Hm'.
        congruence. }
      rewrite search_line by done. intros Hv.
      rewrite sub_from_true_None, sub_from_false_app, sub_from_false_LF by done.
      rewrite readlines_line by done. cbn [first_version].
      rewrite search_line by done. eauto.
Qed.

(** ** Carriage returns *)

Lemma universal_newlines_id (s : string) :
  Py.has_char Py.CR s = false -> universal_newlines false s = s.
Proof.
  induction s as [|c s IH]; [done|]. cbn [Py.has_char universal_newlines].
  intros [-> Hs]%orb_false_iff. cbn. by rewrite IH.
Qed.

Lemma universal_newlines_no_CR (cr : bool) (s : string) :
  Py.has_char Py.CR (universal_newlines cr s) = false.
Proof.
  revert cr; induction s as [|c s IH]; intros cr; [done|].
  cbn [universal_newlines].
  destruct (Ascii.eqb c Py.CR) eqn:Hc; [cbn; apply IH|].
  destruct (cr && Ascii.eqb c Py.LF); [apply IH|].
  cbn [Py.has_char]. by rewrite Hc, IH.
Qed.

Lemma sub_from_has_char (c : ascii) (R : string) (bol : bool) (s : string) :
  Py.has_char c R = false -> Py.has_char c s = false ->
  Py.has_char c (sub_from (fun _ _ => R) bol s) = false.
Proof.
  intros HR. remember (String.length s) as n eqn:Hn. revert bol s Hn.
  induction n as [n IH] using lt_wf_ind. intros bol s -> Hs.
  destruct (if bol then match_at s else None) as [[v rest]|] eqn:Hm.
  - rewrite (sub_from_Some _ _ _ _ _ Hm), has_char_app, HR.
    assert (match_at s = Some (v, rest)) as Hm' by (by destruct bol).
    eapply IH; [|done|].
    + by eapply match_at_length.
    + by eapply match_at_has_char.
  - rewrite (sub_from_None _ _ _ Hm). destruct s as [|d s]; [done|].
    cbn [Py.has_char] in *. apply orb_false_iff in Hs as [-> Hs].
    eapply IH; [|done..]. simpl. lia.
Qed.

Lemma version_line_has_char (c : ascii) (x : string) :
  Py.has_char c PREFIX = false -> Ascii.eqb Py.DQUOTE c = false ->
  Py.has_char c x = false -> Py.has_char c (version_line x) = false.
Proof.
  intros Hp Hq Hx. unfold version_line. rewrite !has_char_app, Hp, Hx.
  change (Py.has_char c Q) with (Ascii.eqb Py.DQUOTE c || false). by rewrite Hq.
Qed.

Lemma plain_chars (x : string) :
  plain x = true ->
  Py.has_char Py.DQUOTE x = false /\ Py.has_char Py.BACKSLASH x = false
  /\ Py.has_char Py.LF x = false /\ Py.has_char Py.CR x = false.
Proof.
  unfold plain. rewrite negb_true_iff, !orb_false_iff. tauto.
Qed.

Lemma version_ints_nonempty (x : string) (l : list Z) :
  version_ints x = OK l -> x <> "".
Proof. by intros H ->. Qed.

Lemma version_ok_nonempty (old x : string) (ok : bool) :
  version_ok old x = OK ok -> x <> "".
Proof.
  unfold version_ok. destruct (version_ints old); [|done].
  destruct (version_ints x) eqn:Hx; [|done]. intros _.
  by eapply version_ints_nonempty.
Qed.

Section Written.
Context {E : Type} {L : Listing}.
Variable exec : list string -> gmap string string -> E -> Z * gmap string string * E.
Variable compile_escapes : string -> compiled.

Implicit Types (w : world E) (f v version : string) (dry_run : bool).

Lemma compile_repl_plain version :
  Py.has_char Py.BACKSLASH version = false ->
  compile_repl compile_escapes (version_line version)
  = Replaces (fun _ _ => version_line version).
Proof.
  intros H. unfold compile_repl.
  by rewrite version_line_has_char.
Qed.

(** What a successful [set_version] has found and done. *)
Lemma set_version_OK version dry_run w w' :
  set_version compile_escapes version dry_run w = (OK tt, w') ->
  exists old_version rest,
    found_versions w = (OK (old_version :: rest), w)
    /\ version_ok old_version version = OK true
    /\ rewrite_build_files compile_escapes version dry_run w = (OK tt, w').
Proof.
  rewrite set_version_eq. pose proof (found_versions_spec w) as Hf.
  destruct (found_versions w) as [[versions|e] w1]; cbn [fst]; [|done].
  destruct Hf as [-> _]. case_decide; [|done].
  destruct versions as [|old rest]; [done|].
  destruct (version_ok old version) as [[|]|] eqn:Hok; [|done..].
  eauto.
Qed.

Lemma found_versions_walk w versions :
  found_versions w = (OK versions, w) ->
  Forall (fun f => is_Some (declared w f)) (walk (files w))
  /\ (versions <> [] -> walk (files w) <> []).
Proof.
  intros H. pose proof (found_versions_spec w) as Hf. rewrite H in Hf.
  destruct Hf as [_ Hf]. split.
  - clear H. remember (walk (files w)) as names eqn:Hn. clear Hn.
    induction Hf as [|f x names vs Hx _ IH]; constructor; [|done].
    by rewrite Hx.
  - intros Hv Hw. rewrite Hw in Hf. by apply Forall2_nil_inv_l in Hf.
Qed.

(** What a successful [set_version] leaves in the files, outside dry-run
    mode. *)
Lemma set_version_written version dry_run w w' :
  dry_run = false ->
  set_version compile_escapes version dry_run w = (OK tt, w') ->
  exists repl,
    compile_repl compile_escapes (version_line version) = Replaces repl
    /\ version <> ""
    /\ ext w' = ext w
    /\ walk (files w') = walk (files w)
    /\ Forall (fun f => is_Some (declared w f)) (walk (files w))
    /\ forall f, files w' !! f =
         if decide (f ∈ walk (files w)) then rewritten repl <$> files w !! f
         else files w !! f.
Proof.
  intros Hd (old & rest & Hfound & Hok & Hrw)%set_version_OK.
  apply found_versions_walk in Hfound as [Hdecl Hne].
  apply rewrite_build_files_written in Hrw as (repl & Hc & Hext & Hfiles);
    [|done|by apply Hne].
  exists repl. repeat split; [done|by eapply version_ok_nonempty|done| |done..].
  apply walk_same_dom. intros f. rewrite Hfiles.
  case_decide; [|done]. by rewrite fmap_is_Some.
Qed.

End Written.

(** With a replacement on one line, the lines stay in place. *)
Lemma readlines_sub (R s : string) :
  R <> "" -> Py.has_char Py.LF R = false ->
  Forall (fun line => line_closed line = true) (readlines s) ->
  readlines (sub (fun _ _ => R) s) = rewrite_line (fun _ _ => R) <$> readlines s.
Proof.
  intros HR HRl. unfold sub.
  induction s as [|l Hl Hnil|l rest Hl IH] using line_ind.
  - intros _. by rewrite sub_from_nil.
  - rewrite readlines_last by done. intros [Hc _]%Forall_cons.
    cbn. unfold rewrite_line.
    destruct (match_at l) as [[v r]|] eqn:Hm.
    + rewrite (sub_from_Some _ true _ _ _ Hm).
      assert (Py.has_char Py.LF r = false) as Hr by (by eapply match_at_has_char).
      rewrite <- (append_nil_r r) at 1.
      rewrite sub_from_false_app, sub_from_nil, append_nil_r by done.
      apply readlines_last; [by rewrite has_char_app, HRl|by destruct R].
    + rewrite sub_from_true_None by done.
      rewrite <- (append_nil_r l) at 1.
      rewrite sub_from_false_app, sub_from_nil, append_nil_r by done.
      by apply readlines_last.
  - rewrite readlines_line by done. intros [Hc Hrest]%Forall_cons.
    cbn [fmap list_fmap]. fold (rewrite_line (fun _ _ => R) <$> readlines rest).
    rewrite <- (IH Hrest). unfold rewrite_line.
    assert (l +:+ String Py.LF rest = (l +:+ NL) +:+ rest) as Hs
      by (by rewrite append_assoc).
    destruct (match_at (l +:+ NL)) as [[v r]|] eqn:Hm.
    + pose proof (match_at_app _ rest _ _ Hm) as Hm'. rewrite <- Hs in Hm'.
      rewrite (sub_from_Some _ true _ _ _ Hm').
      apply match_at_line in Hm as (l' & -> & Hl'); [|done].
      rewrite !append_assoc. change (NL +:+ rest) with (String Py.LF rest).
      rewrite sub_from_false_app, sub_from_false_LF by done.
      rewrite <- !append_assoc. rewrite readlines_line; [done|].
      by rewrite has_char_app, HRl.
    + pose proof (match_at_None_line _ rest Hc Hm) as Hm'. rewrite <- Hs in Hm'.
      rewrite sub_from_true_None, sub_from_false_app, sub_from_false_LF by done.
      by rewrite readlines_line.
Qed.

Section Read_back.
Context {E : Type} {L : Listing}.
Variable exec : list string -> gmap string string -> E -> Z * gmap string string * E.
Variable compile_escapes : string -> compiled.

Implicit Types (w : world E) (f v version : string) (dry_run : bool).

(** After a [set_version] that succeeds outside dry-run mode, every build
    file declares the version, when this one is plain. *)
Lemma set_version_declares version w w' :
  plain version = true ->
  set_version compile_escapes version false w = (OK tt, w') ->
  Forall (fun f => declared w' f = Some version) (walk (files w')).
Proof.
  intros (Hq & Hb & Hl & Hr)%plain_chars
         (repl & Hc & Hne & _ & Hwalk & Hdecl & Hfiles)%set_version_written;
    [|done].
  rewrite compile_repl_plain in Hc by done. injection Hc as <-.
  rewrite Hwalk.
  apply Forall_forall. intros f Hf.
  apply (proj1 (Forall_forall _ _) Hdecl) in Hf as Hv. destruct Hv as [v Hv].
  unfold declared in *. rewrite Hfiles, decide_True by done.
  destruct (files w !! f) as [stored|]; [|done]. cbn [fmap option_fmap option_map].
  unfold rewritten. rewrite universal_newlines_id.
  - by eapply first_version_sub.
  - apply sub_from_has_char; [|apply universal_newlines_no_CR].
    by apply version_line_has_char.
Qed.

End Read_back.

(** ** The errors of [version_ints] and [next_version] *)

Lemma ints_spec (components : list string) :
  match ints components with
  | OK l => Forall2 (fun c n => Py.int c = Some n) components l
  | Raise e =>
      exists c, c ∈ components /\ Py.int c = None /\ e = ValueError (Int_refuses c)
  end.
Proof.
  induction components as [|c cs IH]; cbn [ints]; [constructor|].
  destruct (Py.int c) as [n|] eqn:Hc.
  - destruct (ints cs) as [l|e].
    + by constructor.
    + destruct IH as (d & Hd & Hn & ->). exists d. split; [by right|done].
  - exists c. split; [by left|done].
Qed.

Lemma ints_OK (components : list string) (l : list Z) :
  ints components = OK l <-> Forall2 (fun c n => Py.int c = Some n) components l.
Proof.
  split.
  - intros H. pose proof (ints_spec components) as Hs. by rewrite H in Hs.
  - induction 1 as [|c n cs l Hc _ IH]; [done|]. cbn [ints]. by rewrite Hc, IH.
Qed.

Lemma split_nonempty (sep : ascii) (s : string) : Py.split sep s <> [].
Proof.
  destruct s as [|c s]; [done|]. cbn [Py.split].
  destruct (Ascii.eqb c sep); [done|]. by destruct (Py.split sep s).
Qed.

Lemma version_ints_raises (version : string) (e : exn) :
  version_ints version = Raise e -> expected e.
Proof.
  unfold version_ints. intros H.
  pose proof (ints_spec (Py.split "." (sub_pre false version))) as Hs.
  rewrite H in Hs. by destruct Hs as (c & _ & Hc & ->).
Qed.

Lemma version_ints_OK_nonempty (version : string) (l : list Z) :
  version_ints version = OK l -> l <> [].
Proof.
  unfold version_ints. intros H%ints_OK ->.
  apply Forall2_nil_inv_r in H. by eapply split_nonempty.
Qed.


Lemma incr_last_snoc (init : list Z) (last : Z) :
  incr_last (init ++ [last]) = Some (init ++ [last + 1]).
Proof.
  induction init as [|x init IH]; [done|].
  cbn [app incr_last]. rewrite IH. by destruct init.
Qed.

Lemma str_Some (n : Z) (s : string) : Py.str n = Some s -> s = Py.decimal n.
Proof. unfold Py.str. case_match; congruence. Qed.

Lemma strs_spec (l : list Z) :
  match strs l with
  | OK components =>
      components = Py.decimal <$> l
      /\ Forall (fun n => Py.str n = Some (Py.decimal n)) l
  | Raise e =>
      exists n, n ∈ l /\ Py.str n = None /\ e = ValueError (Str_refuses n)
  end.
Proof.
  induction l as [|n l IH]; cbn [strs]; [done|].
  destruct (Py.str n) as [s|] eqn:Hn.
  - apply str_Some in Hn as Hs. subst s.
    destruct (strs l) as [components|e].
    + destruct IH as [-> IH]. split; [done|by constructor].
    + destruct IH as (m & Hm & Hr & ->). exists m. split; [by right|done].
  - exists n. split; [by left|done].
Qed.

Lemma next_version_spec (version : string) :
  match next_version version with
  | OK next =>
      exists init last,
        version_ints version = OK (init ++ [last])
        /\ next = Py.join "." (Py.decimal <$> init ++ [last + 1]) +:+ "-pre1"
        /\ Forall (fun n => Py.str n = Some (Py.decimal n)) (init ++ [last + 1])
  | Raise e => expected e
  end.
Proof.
  unfold next_version. destruct (version_ints version) as [l|e] eqn:Hv;
    [|by eapply version_ints_raises].
  destruct (exists_last (version_ints_OK_nonempty _ _ Hv)) as (init & last & ->).
  rewrite incr_last_snoc. pose proof (strs_spec (init ++ [last + 1])) as Hs.
  destruct (strs (init ++ [last + 1])) as [components|e].
  - destruct Hs as [-> Hs]. eauto.
  - by destruct Hs as (n & _ & Hn & ->).
Qed.

Section Raised.
Context {E : Type} {L : Listing}.
Variable exec : list string -> gmap string string -> E -> Z * gmap string string * E.
Variable compile_escapes : string -> compiled.

Implicit Types (w : world E) (f v version : string) (dry_run : bool).

(** ** What is raised *)








End Raised.

(** ** The characters of the next version *)

Lemma string_of_uint_has_char (c : ascii) (d : Decimal.uint) :
  Py.digit c = None -> Py.has_char c (NilEmpty.string_of_uint d) = false.
Proof.
  intros Hc.
  induction d as [|d IH|d IH|d IH|d IH|d IH|d IH|d IH|d IH|d IH|d IH];
    cbn [NilEmpty.string_of_uint Py.has_char]; [done|..];
    rewrite IH, orb_false_r; apply Ascii.eqb_neq; by intros <-.
Qed.

Lemma str_has_char (c : ascii) (n : Z) :
  not_numeric c -> Py.has_char c (Py.decimal n) = false.
Proof.
  intros [Hd Hm]. unfold Py.decimal, NilZero.string_of_int.
  assert (forall d, Py.has_char c (NilZero.string_of_uint d) = false) as Hu.
  { intros d. unfold NilZero.string_of_uint.
    destruct d; try apply (string_of_uint_has_char c _ Hd).
    cbn [Py.has_char]. rewrite orb_false_r. apply Ascii.eqb_neq. by intros <-. }
  destruct (Z.to_int n) as [d|d]; [apply Hu|].
  cbn [Py.has_char]. rewrite Hu, orb_false_r. by apply Ascii.eqb_neq.
Qed.

Lemma join_has_char (c : ascii) (sep : string) (l : list string) :
  Py.has_char c sep = false ->
  Forall (fun x => Py.has_char c x = false) l ->
  Py.has_char c (Py.join sep l) = false.
Proof.
  intros Hsep. induction 1 as [|x l Hx Hl IH]; [done|].
  cbn [Py.join]. destruct l as [|y l]; [done|].
  by rewrite !has_char_app, Hx, Hsep, IH.
Qed.

Lemma next_version_has_char (c : ascii) (version next : string) :
  not_numeric c -> Py.has_char c ".-pre1" = false ->
  next_version version = OK next -> Py.has_char c next = false.
Proof.
  intros Hc Hs H. pose proof (next_version_spec version) as Hn.
  rewrite H in Hn. destruct Hn as (init & last & _ & -> & _).
  rewrite has_char_app. apply orb_false_iff. split.
  - apply join_has_char.
    + cbn [Py.has_char] in *. by destruct (Ascii.eqb "." c).
    + apply Forall_fmap, Forall_forall. intros n _. by apply str_has_char.
  - cbn [Py.has_char] in *. by destruct (Ascii.eqb "." c).
Qed.

Lemma next_version_plain (version next : string) :
  next_version version = OK next -> plain next = true.
Proof.
  intros H. unfold plain.
  assert (forall c, Py.digit c = None -> c <> "-"%char ->
            Py.has_char c ".-pre1" = false -> Py.has_char c next = false) as Hc.
  { intros c Hd Hm Hs. by eapply next_version_has_char. }
  by rewrite !Hc.
Qed.

Lemma contains_app (needle a b : string) :
  Py.contains needle (a +:+ needle +:+ b) = true.
Proof.
  induction a as [|c a IH].
  - change ("" +:+ needle +:+ b) with (needle +:+ b).
    assert (Py.startswith needle (needle +:+ b) = true) as H.
    { induction needle as [|d n IHn]; [done|].
      rewrite append_cons. cbn [Py.startswith]. by rewrite Ascii.eqb_refl. }
    destruct (needle +:+ b); cbn [Py.contains]; by rewrite H.
  - rewrite append_cons. cbn [Py.contains]. rewrite IH. apply orb_true_r.
Qed.

Lemma list_le_refl (a : list Z) : Py.list_le a a = true.
Proof. apply list_le_lex. by left. Qed.

Lemma list_lt_irrefl (a : list Z) : Py.list_lt a a = false.
Proof.
  destruct (Py.list_lt a a) eqn:H; [|done].
  apply list_lt_lex in H. by apply lex_lt_irrefl in H.
Qed.

Section Commands.
Context {E : Type} {L : Listing}.
Variable exec : list string -> gmap string string -> E -> Z * gmap string string * E.
Variable compile_escapes : string -> compiled.

Implicit Types (w : world E) (f v version : string) (dry_run : bool).

(** ** The commands of a successful release *)

Lemma grows_along_run dry_run command :
  along (grows (E:=E)) (run_command exec command dry_run).
Proof. destruct dry_run; [apply grows_print|apply grows_run]. Qed.

Lemma run_command_OK command dry_run w w' :
  run_command exec command dry_run w = (OK tt, w') ->
  trace w' = trace w ++ [command_event dry_run command].
Proof.
  unfold run_command. destruct dry_run; [by intros [= <-]|].
  destruct (has_null command); [done|].
  destruct (exec command (files w) (ext w)) as [[rc fs] x].
  destruct (Z.eqb_spec rc 0) as [->|]; [|done]. by intros [= <-].
Qed.

Lemma git_push_OK dry_run w w' :
  git_push exec dry_run w = (OK tt, w') ->
  trace w' = trace w ++ [command_event dry_run ["git"; "push"];
                         command_event dry_run ["git"; "push"; "--tags"]].
Proof.
  intros ([] & w1 & H1%run_command_OK & H2%run_command_OK)%bind_OK_inv.
  by rewrite H2, H1, <- app_assoc.
Qed.

Lemma commit_version_bump_OK version auditors dry_run w w' :
  commit_version_bump exec version auditors dry_run w = (OK tt, w') ->
  exists evs,
    trace w' = trace w ++ evs ++
      [command_event dry_run
         ["git"; "commit"; "-m"; VERSION_BUMP_COMMIT version auditors]].
Proof.
  intros (names & w0 & [= <- <-] & ([] & w1 & H1 & H2%run_command_OK)%bind_OK_inv)%bind_OK_inv.
  assert (grows w w1) as [evs Hevs].
  { pose proof (along_for_each grows (@grows_refl E) (@grows_trans E) (walk (files w))
      (fun build_filename => run_command exec ["git"; "add"; build_filename] dry_run)
      (fun f => grows_along_run dry_run _) w) as Hg.
    by rewrite H1 in Hg. }
  exists evs. by rewrite H2, Hevs, <- app_assoc.
Qed.

Lemma grows_set_version version dry_run w w' r :
  set_version compile_escapes version dry_run w = (r, w') -> grows w w'.
Proof.
  intros H.
  pose proof (along_set_version exec compile_escapes grows (@grows_refl E)
    (@grows_trans E) dry_run (@grows_print E) (fun _ => @grows_write E)
    (fun _ => grows_run exec) version w) as Hg.
  by rewrite H in Hg.
Qed.

Lemma grows_commit_version_bump version auditors dry_run w w' r :
  commit_version_bump exec version auditors dry_run w = (r, w') -> grows w w'.
Proof.
  intros H.
  pose proof (along_commit_version_bump exec grows (@grows_refl E)
    (@grows_trans E) dry_run (@grows_print E) (fun _ => @grows_write E)
    (fun _ => grows_run exec) version auditors w) as Hg.
  by rewrite H in Hg.
Qed.

(** The nine steps of a release that succeeds. *)
Lemma do_release_OK version auditors dry_run w w' :
  do_release exec compile_escapes version auditors dry_run w = (OK tt, w') ->
  exists next evs1 evs2 w1 w2,
    next_version version = OK next
    /\ trace w1 = trace w ++ evs1 ++
         [command_event dry_run ["git"; "tag"; "v" +:+ version];
          command_event dry_run ["git"; "push"];
          command_event dry_run ["git"; "push"; "--tags"];
          command_event dry_run ["./gradlew"; "publish"]]
    /\ set_version compile_escapes next dry_run w1 = (OK tt, w2)
    /\ trace w' = trace w2 ++ evs2 ++
         [command_event dry_run
            ["git"; "commit"; "-m"; VERSION_BUMP_COMMIT next auditors];
          command_event dry_run ["git"; "push"];
          command_event dry_run ["git"; "push"; "--tags"]].
Proof.
  unfold do_release.
  intros ([] & wa & Ha%grows_set_version & H)%bind_OK_inv.
  apply bind_OK_inv in H as ([] & wb & Hb%grows_commit_version_bump & H).
  apply bind_OK_inv in H as ([] & wc & Hc%run_command_OK & H).
  apply bind_OK_inv in H as ([] & wd & Hd%git_push_OK & H).
  apply bind_OK_inv in H as ([] & w1 & H1%run_command_OK & H).
  apply bind_OK_inv in H as (next & w1' & [= Hnext <-] & H).
  apply bind_OK_inv in H as ([] & w2 & H2 & H).
  apply bind_OK_inv in H as ([] & w3 & (evs2 & H3)%commit_version_bump_OK & H4%git_push_OK).
  destruct Ha as [evsa Ha], Hb as [evsb Hb].
  exists next, (evsa ++ evsb), evs2, w1, w2. repeat split; [done| |done|].
  - rewrite H1, Hd, Hc, Hb, Ha, <- !app_assoc. done.
  - rewrite H4, H3, <- !app_assoc. done.
Qed.

End Commands.

(** The side conditions of the lemmas on [along], in dry-run mode. *)
Ltac dry_side :=
  solve [ apply only_printed_refl | apply only_printed_trans
        | apply only_printed_print | discriminate ].

(** ** The properties of the script *)

(** C6: [version_ints] drops the pre-release suffix, splits what is left at
    the dots and converts each component with [int]; a version and the same
    version with a suffix [-pre...] (up to the end of the line) have the
    same list of integers. *)
Theorem version_ints_ignores_suffix (v suffix : string) :
  Py.contains "-pre" v = false ->
  Py.has_char Py.LF suffix = false ->
  version_ints (v +:+ "-pre" +:+ suffix) = version_ints v
  /\ forall l, version_ints v = OK l <->
       Forall2 (fun c n => Py.int c = Some n) (Py.split "." v) l.
Proof.
  intros Hv Hs. split; [by apply version_ints_suffix|].
  intros l. unfold version_ints. rewrite sub_pre_id by done. apply ints_OK.
Qed.

Section Claims.
Context {E : Type} {L : Listing}.
Variable exec : list string -> gmap string string -> E -> Z * gmap string string * E.
Variable compile_escapes : string -> compiled.

Implicit Types (w : world E) (f v version : string) (dry_run : bool).

(** C1: with build files that agree on [old_version], [set_version] lets
    the change to [version] pass exactly when the policy permits it: the
    integers of the old version at most those of the new one when the old
    version has [-pre] in it, strictly below them otherwise. So a version
    without [-pre] cannot be set again, and the version of a pre-release
    can be set. *)
Theorem increase_policy (old_version version suffix : string)
    (old_i new_i : list Z) w dry_run :
  version_ints old_version = OK old_i ->
  version_ints version = OK new_i ->
  agree_on w old_version ->
  Py.has_char Py.LF suffix = false ->
  (version_ok old_version version = OK true
     <-> permitted old_version version old_i new_i)
  /\ (permitted old_version version old_i new_i ->
        set_version compile_escapes version dry_run w
        = rewrite_build_files compile_escapes version dry_run w)
  /\ (set_version compile_escapes version dry_run w
        = (Raise (InvalidVersionError (Not_allowed old_version version)), w)
      <-> ~ permitted old_version version old_i new_i)
  /\ (Py.contains "-pre" version = false -> version_ok version version = OK false)
  /\ version_ok (version +:+ "-pre" +:+ suffix) version = OK true.
Proof.
  intros Ho Hn Hw Hs.
  destruct (version_ok_spec _ _ _ _ Ho Hn) as (ok & Hok & Hperm).
  pose proof (set_version_agree compile_escapes version dry_run w _ Hw) as Hset.
  rewrite Hok in Hset. repeat split.
  - rewrite Hok. intros [= ->]. by apply Hperm.
  - intros ->%Hperm. done.
  - intros ->%Hperm. done.
  - intros Hraise Hp%Hperm. subst ok. rewrite Hset in Hraise.
    apply rewrite_build_files_raises in Hraise as (why & He & _).
    by destruct why.
  - intros Hnp. destruct ok; [|done]. destruct Hnp. by apply Hperm.
  - intros Hpre. unfold version_ok. by rewrite Hn, Hpre, list_lt_irrefl.
  - unfold version_ok. rewrite version_ints_suffix, Hn by done.
    by rewrite contains_app, list_le_refl.
Qed.

(** C3: when the build files declare more than one version, [set_version]
    raises [InvalidVersionError] with the versions found, in the order in
    which the walk comes to the build files, and leaves the world as it
    is: no file is written. *)
Theorem inconsistent_versions_rejected version dry_run w (versions : list string) :
  Forall2 (fun f v => declared w f = Some v) (walk (files w)) versions ->
  (1 < size (list_to_set versions : gset string))%nat ->
  set_version compile_escapes version dry_run w
  = (Raise (InvalidVersionError (Inconsistent versions)), w).
Proof.
  intros Hdecl Hsize.
  rewrite set_version_eq, (found_versions_declared _ _ Hdecl). cbn [fst].
  rewrite decide_False; [done|lia].
Qed.

(** C10: without any build file, [set_version] raises
    [InvalidVersionError], whatever the version, and leaves the world as it
    is. *)
Theorem no_build_file_rejected version dry_run w :
  walk (files w) = [] ->
  set_version compile_escapes version dry_run w
  = (Raise (InvalidVersionError (Inconsistent [])), w).
Proof.
  intros Hw. rewrite set_version_eq, (found_versions_declared w []).
  - done.
  - rewrite Hw. constructor.
Qed.

(** C4: in dry-run mode every operation leaves the files and what the
    commands act on as they are, and adds nothing to the trace but printed
    lines: no file is written and no command is run. *)
Theorem dry_run_only_prints version auditors w :
  only_printed w (set_version compile_escapes version true w).2
  /\ only_printed w (commit_version_bump exec version auditors true w).2
  /\ only_printed w (make_tag exec version true w).2
  /\ only_printed w (git_push exec true w).2
  /\ only_printed w (do_publish exec true w).2
  /\ only_printed w (do_release exec compile_escapes version auditors true w).2.
Proof.
  assert (forall command,
    along only_printed (run_command exec command true)) as Hrun.
  { intros command. apply only_printed_print. }
  split; [|split; [|split; [|split; [|split]]]].
  - apply (along_set_version exec compile_escapes only_printed); dry_side.
  - apply (along_commit_version_bump exec only_printed); dry_side.
  - apply Hrun.
  - apply (along_git_push exec only_printed); dry_side.
  - apply Hrun.
  - apply (along_do_release exec compile_escapes only_printed); dry_side.
Qed.


(** C7: the push that ends a release runs [git push] and then
    [git push --tags], as the push after the tag does: both pushes push
    the tags. *)
Theorem both_pushes_push_tags version auditors dry_run w w' :
  do_release exec compile_escapes version auditors dry_run w = (OK tt, w') ->
  exists (next : string) (evs1 evs2 : list event),
    next_version version = OK next
    /\ trace w' = trace w ++ evs1 ++
         [command_event dry_run ["git"; "tag"; "v" +:+ version];
          command_event dry_run ["git"; "push"];
          command_event dry_run ["git"; "push"; "--tags"];
          command_event dry_run ["./gradlew"; "publish"]] ++ evs2 ++
         [command_event dry_run
            ["git"; "commit"; "-m"; VERSION_BUMP_COMMIT next auditors];
          command_event dry_run ["git"; "push"];
          command_event dry_run ["git"; "push"; "--tags"]].
Proof.
  intros (next & evs1 & evs2 & w1 & w2 & Hnext & H1 & Hset & Htrace)%do_release_OK.
  apply grows_set_version in Hset as [evs Hset]; [|exact exec].
  exists next, evs1, (evs ++ evs2). split; [done|].
  rewrite Htrace, Hset, H1, <- !app_assoc. done.
Qed.

(** C5, amended: outside dry-run mode, after a [set_version] that succeeds
    for a version without double quote, backslash, line feed and carriage
    return, the build files are the same as before and each of them
    declares exactly that version. *)
Theorem set_version_roundtrip version w w' :
  plain version = true ->
  set_version compile_escapes version false w = (OK tt, w') ->
  walk (files w') = walk (files w)
  /\ Forall (fun f => declared w' f = Some version) (walk (files w')).
Proof.
  intros Hp Hset. split.
  - by apply set_version_written in Hset as (repl & _ & _ & _ & Hwalk & _).
  - by eapply set_version_declares.
Qed.

(** C9, amended: outside dry-run mode, for a version without backslash
    and line feed, a build file without carriage return in which every
    line that starts with [version = ] and a double quote has a second
    double quote is rewritten line by line: a line with a match at its
    start gets the new version line in place of the match, every other
    line stays as it is, at its place; a file that is not a build file is
    not touched. *)
Theorem set_version_rewrites_in_place version w w' f stored :
  set_version compile_escapes version false w = (OK tt, w') ->
  Py.has_char Py.BACKSLASH version = false ->
  Py.has_char Py.LF version = false ->
  is_build_file f = true ->
  files w !! f = Some stored ->
  Py.has_char Py.CR stored = false ->
  forallb line_closed (readlines stored) = true ->
  (exists stored',
     files w' !! f = Some stored' /\
     readlines stored'
     = rewrite_line (fun _ _ => version_line version) <$> readlines stored)
  /\ forall g, is_build_file g = false -> files w' !! g = files w !! g.
Proof.
  intros (repl & Hc & Hne & _ & Hwalk & Hdecl & Hfiles)%set_version_written
         Hb Hl Hf Hs Hcr Hclosed; [|done].
  rewrite compile_repl_plain in Hc by done. injection Hc as <-.
  split.
  - eexists. split.
    + rewrite Hfiles, decide_True, Hs; [done|].
      apply elem_of_walk. by rewrite Hs.
    + unfold rewritten. rewrite universal_newlines_id by done.
      apply readlines_sub.
      * by destruct version.
      * by apply version_line_has_char.
      * apply Forall_forall. intros line Hline.
        by apply (proj1 (forallb_forall _ _) Hclosed), list_elem_of_In.
  - intros g Hg. rewrite Hfiles, decide_False; [done|].
    intros [Hg' _]%elem_of_walk. congruence.
Qed.


End Claims.

(** ** More on the parts of the script *)

(** ** [int] of [str] *)

Lemma digits_of_uint_acc (d : Decimal.uint) (p : positive) :
  Py.digits (Z.pos p) false (NilEmpty.string_of_uint d)
  = Some (Z.pos (Pos.of_uint_acc d p)).
Proof.
  revert p.
  induction d as [|d IH|d IH|d IH|d IH|d IH|d IH|d IH|d IH|d IH|d IH];
    intros p; [done|..];
    cbn [NilEmpty.string_of_uint Py.digits Pos.of_uint_acc];
    change (Ascii.eqb _ "_") with false; cbv iota;
    match goal with
    | |- context [Py.digit ?c] =>
        let v := eval vm_compute in (Py.digit c) in
        change (Py.digit c) with v; cbv iota
    end;
    rewrite <- IH; f_equal; lia.
Qed.

Lemma digits_of_uint (d : Decimal.uint) :
  Py.digits 0 false (NilEmpty.string_of_uint d) = Some (Z.of_N (Pos.of_uint d)).
Proof.
  induction d as [|d IH|d IH|d IH|d IH|d IH|d IH|d IH|d IH|d IH|d IH];
    [done|exact IH|..];
    cbn [NilEmpty.string_of_uint Py.digits Pos.of_uint];
    change (Ascii.eqb _ "_") with false; cbv iota;
    match goal with
    | |- context [Py.digit ?c] =>
        let v := eval vm_compute in (Py.digit c) in
        change (Py.digit c) with v; cbv iota
    end;
    apply digits_of_uint_acc.
Qed.

Lemma unsigned_of_uint (d : Decimal.uint) :
  Py.unsigned (NilZero.string_of_uint d) = Some (Z.of_uint d).
Proof.
  unfold Z.of_uint.
  destruct d; [done|..];
    cbn [NilZero.string_of_uint NilEmpty.string_of_uint Py.unsigned Pos.of_uint];
    match goal with
    | |- context [Py.digit ?c] =>
        let v := eval vm_compute in (Py.digit c) in
        change (Py.digit c) with v; cbv iota
    end;
    [apply digits_of_uint|apply digits_of_uint_acc..].
Qed.

(** A string without white space is left as it is. *)
Lemma lstrip_id (s : string) :
  (forall c, Py.is_space c = true -> Py.has_char c s = false) -> Py.lstrip s = s.
Proof.
  destruct s as [|c s]; [done|]. intros H. cbn [Py.lstrip].
  destruct (Py.is_space c) eqn:Hc; [|done].
  specialize (H c Hc). cbn [Py.has_char] in H. by rewrite Ascii.eqb_refl in H.
Qed.

Lemma rstrip_id (s : string) :
  (forall c, Py.is_space c = true -> Py.has_char c s = false) -> Py.rstrip s = s.
Proof.
  induction s as [|c s IH]; [done|]. intros H. cbn [Py.rstrip].
  rewrite IH.
  - destruct s; [|done]. destruct (Py.is_space c) eqn:Hc; [|done].
    specialize (H c Hc). cbn [Py.has_char] in H. by rewrite Ascii.eqb_refl in H.
  - intros d Hd. specialize (H d Hd). cbn [Py.has_char] in H.
    by apply orb_false_iff in H as [_ H].
Qed.

Lemma is_space_not_numeric (c : ascii) : Py.is_space c = true -> not_numeric c.
Proof.
  destruct c as [[] [] [] [] [] [] [] []]; try discriminate; intros _; by split.
Qed.

(** The value of the decimal text of [n] is [n]. *)
Lemma literal_decimal (n : Z) : Py.literal (Py.decimal n) = Some n.
Proof.
  unfold Py.literal.
  assert (forall c, Py.is_space c = true -> Py.has_char c (Py.decimal n) = false)
    as Hs.
  { intros c Hc. by apply str_has_char, is_space_not_numeric. }
  rewrite (lstrip_id _ Hs), (rstrip_id _ Hs).
  rewrite <- (DecimalZ.of_to n) at 2.
  unfold Py.decimal, NilZero.string_of_int.
  destruct (Z.to_int n) as [d|d]; cbn [Z.of_int].
  - rewrite <- unsigned_of_uint.
    destruct d; try done;
      unfold NilZero.string_of_uint; cbn [NilEmpty.string_of_uint]; done.
  - by rewrite unsigned_of_uint.
Qed.

(** [int(str(n))] is [n], when [str] takes [n]. *)
Lemma int_str (n : Z) (s : string) : Py.str n = Some s -> Py.int s = Some n.
Proof.
  unfold Py.str, Py.int.
  destruct (Py.count_digits (Py.decimal n) <=? Py.max_str_digits) eqn:Hn; [|done].
  intros [= <-]. rewrite Hn. apply literal_decimal.
Qed.

Lemma strs_OK (l : list Z) (components : list string) :
  strs l = OK components ->
  components = Py.decimal <$> l /\ Forall2 (fun n s => Py.str n = Some s) l components.
Proof.
  intros H. pose proof (strs_spec l) as Hs. rewrite H in Hs.
  destruct Hs as [-> Hs]. split; [done|].
  apply Forall2_fmap_r, Forall_Forall2_diag. done.
Qed.

Lemma ints_strs (l : list Z) (components : list string) :
  strs l = OK components -> ints components = OK l.
Proof.
  intros [_ H]%strs_OK. apply ints_OK.
  induction H as [|n s l components Hn _ IH]; constructor; [|done].
  by apply int_str.
Qed.

(** ** [split] of [join] *)

Lemma split_no_sep (sep : ascii) (s : string) :
  Py.has_char sep s = false -> Py.split sep s = [s].
Proof.
  induction s as [|c s IH]; [done|]. cbn [Py.has_char Py.split].
  intros [H1 H2]%orb_false_iff. rewrite H1, (IH H2). done.
Qed.

Lemma split_app (sep : ascii) (s t : string) :
  Py.has_char sep s = false ->
  Py.split sep (s +:+ Py.chr sep +:+ t) = s :: Py.split sep t.
Proof.
  induction s as [|c s IH].
  - intros _. change (Py.split sep (String sep t) = "" :: Py.split sep t).
    cbn [Py.split]. by rewrite Ascii.eqb_refl.
  - cbn [Py.has_char]. intros [H1 H2]%orb_false_iff.
    rewrite append_cons. cbn [Py.split]. rewrite H1, (IH H2). done.
Qed.

Lemma split_join (sep : ascii) (l : list string) :
  l <> [] -> Forall (fun x => Py.has_char sep x = false) l ->
  Py.split sep (Py.join (Py.chr sep) l) = l.
Proof.
  intros Hl H. induction H as [|x l Hx H IH]; [done|].
  destruct l as [|y l]; [by apply split_no_sep|].
  change (Py.split sep (x +:+ Py.chr sep +:+ Py.join (Py.chr sep) (y :: l))
          = x :: y :: l).
  rewrite split_app by done. by rewrite IH.
Qed.

Lemma contains_pre_p (s : string) :
  Py.has_char "p" s = false -> Py.contains "-pre" s = false.
Proof.
  induction s as [|c s IH]; [done|]. cbn [Py.has_char]. 
  intros [H1 H2]%orb_false_iff. cbn [Py.contains]. rewrite (IH H2), orb_false_r.
  cbn [Py.startswith]. destruct (Ascii.eqb "-" c); [|done]. cbn [andb].
  destruct s as [|d s]; [done|]. cbn [Py.has_char] in H2.
  apply orb_false_iff in H2 as [H2 _]. rewrite Ascii.eqb_sym in H2.
  by rewrite H2.
Qed.

Lemma dotted_has_char (c : ascii) (l : list Z) :
  not_numeric c -> c <> "."%char ->
  Py.has_char c (Py.join "." (Py.decimal <$> l)) = false.
Proof.
  intros Hc Hd. apply join_has_char.
  - cbn [Py.has_char]. rewrite orb_false_r. apply Ascii.eqb_neq. congruence.
  - apply Forall_fmap, Forall_forall. intros n _. by apply str_has_char.
Qed.

Lemma version_ints_dotted (l : list Z) (components : list string) :
  l <> [] -> strs l = OK components ->
  version_ints (Py.join "." components) = OK l.
Proof.
  intros Hl Hs. pose proof (ints_strs _ _ Hs) as Hi.
  apply strs_OK in Hs as [-> _]. unfold version_ints.
  rewrite sub_pre_id by (by apply contains_pre_p, dotted_has_char).
  change "."%string with (Py.chr ".").
  rewrite split_join; [done|by destruct l|].
  apply Forall_fmap, Forall_forall. intros n _. by apply str_has_char.
Qed.

(** ** The order of the lists *)

Lemma lex_lt_trans (a b c : list Z) : lex_lt a b -> lex_lt b c -> lex_lt a c.
Proof.
  intros Hab. revert c. induction Hab as [y b|x y a b Hxy|x a b Hab IH];
    intros c Hbc; inversion Hbc; subst.
  - constructor.
  - constructor.
  - apply lex_lt_head. lia.
  - by apply lex_lt_head.
  - by apply lex_lt_head.
  - apply lex_lt_tail. by apply IH.
Qed.

Lemma lex_lt_asym (a b : list Z) : lex_lt a b -> ~ lex_lt b a.
Proof. intros H1 H2. by apply (lex_lt_irrefl a), (lex_lt_trans a b a). Qed.


Lemma lex_lt_not_le (a b : list Z) : lex_lt a b -> ~ lex_le b a.
Proof.
  intros H [->|H']; [by apply lex_lt_irrefl in H|by apply lex_lt_asym in H].
Qed.

Lemma lex_lt_snoc (init : list Z) (x y : Z) :
  x < y -> lex_lt (init ++ [x]) (init ++ [y]).
Proof.
  intros H. induction init as [|z init IH]; [by constructor|].
  by apply lex_lt_tail.
Qed.

Lemma list_le_false (a b : list Z) : lex_lt b a -> Py.list_le a b = false.
Proof.
  intros H. apply not_true_is_false. rewrite list_le_lex.
  by apply lex_lt_not_le.
Qed.

Lemma list_lt_false (a b : list Z) : lex_lt b a -> Py.list_lt a b = false.
Proof.
  intros H. apply not_true_is_false. rewrite list_lt_lex.
  by apply lex_lt_asym.
Qed.

Lemma version_ok_lt (old_version version : string) (old_i new_i : list Z) :
  version_ints old_version = OK old_i ->
  version_ints version = OK new_i ->
  lex_lt old_i new_i ->
  version_ok old_version version = OK true.
Proof.
  intros Ho Hn Hlt. unfold version_ok. rewrite Ho, Hn. f_equal.
  destruct (Py.contains "-pre" old_version).
  - apply list_le_lex. by right.
  - by apply list_lt_lex.
Qed.

Lemma version_ok_gt (old_version version : string) (old_i new_i : list Z) :
  version_ints old_version = OK old_i ->
  version_ints version = OK new_i ->
  lex_lt new_i old_i ->
  version_ok old_version version = OK false.
Proof.
  intros Ho Hn Hlt. unfold version_ok. rewrite Ho, Hn. f_equal.
  destruct (Py.contains "-pre" old_version).
  - by apply list_le_false.
  - by apply list_lt_false.
Qed.

Lemma version_ok_true (old_version version : string) :
  version_ok old_version version = OK true ->
  exists old_i new_i,
    version_ints old_version = OK old_i /\
    version_ints version = OK new_i /\
    lex_le old_i new_i.
Proof.
  unfold version_ok.
  destruct (version_ints old_version) as [old_i|] eqn:Ho; [|done].
  destruct (version_ints version) as [new_i|] eqn:Hn; [|done].
  intros [= H]. exists old_i, new_i. split; [done|]. split; [done|].
  destruct (Py.contains "-pre" old_version).
  - by apply list_le_lex.
  - right. by apply list_lt_lex.
Qed.

(** The version after [version], with what it converts to. *)
Lemma next_version_OK (version next : string) (version_i : list Z) :
  version_ints version = OK version_i ->
  next_version version = OK next ->
  exists init last,
    version_i = init ++ [last]
    /\ next = Py.join "." (Py.decimal <$> init ++ [last + 1]) +:+ "-pre1"
    /\ version_ints next = OK (init ++ [last + 1]).
Proof.
  intros Hv. unfold next_version. rewrite Hv.
  destruct (exists_last (version_ints_OK_nonempty _ _ Hv)) as (init & last & ->).
  rewrite incr_last_snoc.
  destruct (strs (init ++ [last + 1])) as [components|] eqn:Hs; [|done].
  intros [= <-]. exists init, last. split; [done|]. split.
  - by apply strs_OK in Hs as [-> _].
  - rewrite (version_ints_suffix _ "1") by done.
    apply (version_ints_dotted (init ++ [last + 1])); [by destruct init|done].
Qed.

(** [next_version] fails only when [str] refuses the number it has
    increased. *)
Lemma next_version_Raise (version : string) (init : list Z) (last : Z) (e : exn) :
  version_ints version = OK (init ++ [last]) ->
  next_version version = Raise e ->
  exists n, n ∈ init ++ [last + 1]
            /\ Py.str n = None /\ e = ValueError (Str_refuses n).
Proof.
  intros Hv. unfold next_version. rewrite Hv, incr_last_snoc.
  pose proof (strs_spec (init ++ [last + 1])) as Hs.
  destruct (strs (init ++ [last + 1])) as [components|e']; [done|].
  intros [= <-]. destruct Hs as (n & Hn & Hr & ->). eauto.
Qed.

(** ** Numbers of many digits *)

Lemma count_digits_of (c : ascii) (d : Z) (n : nat) :
  Py.digit c = Some d -> Py.count_digits (digits_of c n) = Z.of_nat n.
Proof.
  intros Hc. induction n as [|n IH]; [done|].
  cbn [digits_of Py.count_digits]. rewrite Hc, IH. lia.
Qed.

Lemma of_uint_acc_nines (n : nat) (p : positive) :
  Z.pos (Pos.of_uint_acc (numeral_of Decimal.D9 n) p)
  = (Z.pos p + 1) * 10 ^ Z.of_nat n - 1.
Proof.
  revert p. induction n as [|n IH]; intros p.
  - cbn [numeral_of Pos.of_uint_acc]. change (10 ^ Z.of_nat 0) with 1. lia.
  - rewrite Nat2Z.inj_succ, Z.pow_succ_r by lia.
    cbn [numeral_of Pos.of_uint_acc].
    rewrite IH, Pos2Z.inj_add, Pos2Z.inj_mul. ring.
Qed.

Lemma of_uint_acc_zeros (n : nat) (p : positive) :
  Z.pos (Pos.of_uint_acc (numeral_of Decimal.D0 n) p) = Z.pos p * 10 ^ Z.of_nat n.
Proof.
  revert p. induction n as [|n IH]; intros p.
  - cbn [numeral_of Pos.of_uint_acc]. change (10 ^ Z.of_nat 0) with 1. lia.
  - rewrite Nat2Z.inj_succ, Z.pow_succ_r by lia.
    cbn [numeral_of Pos.of_uint_acc].
    rewrite IH, Pos2Z.inj_mul. ring.
Qed.

Lemma string_of_nines (n : nat) :
  NilEmpty.string_of_uint (numeral_of Decimal.D9 n) = digits_of "9" n.
Proof. induction n as [|n IH]; [done|]. cbn [numeral_of NilEmpty.string_of_uint digits_of]. by rewrite IH. Qed.

Lemma string_of_zeros (n : nat) :
  NilEmpty.string_of_uint (numeral_of Decimal.D0 n) = digits_of "0" n.
Proof. induction n as [|n IH]; [done|]. cbn [numeral_of NilEmpty.string_of_uint digits_of]. by rewrite IH. Qed.

(** The number of [n + 1] nines. *)
Lemma of_int_nines (n : nat) :
  Z.of_uint (numeral_of Decimal.D9 (S n)) = 10 ^ Z.of_nat (S n) - 1.
Proof.
  unfold Z.of_uint. cbn [numeral_of Pos.of_uint Z.of_N].
  rewrite of_uint_acc_nines, Nat2Z.inj_succ, Z.pow_succ_r by lia. ring.
Qed.

Lemma of_int_one_zeros (n : nat) :
  Z.of_uint (Decimal.D1 (numeral_of Decimal.D0 n)) = 10 ^ Z.of_nat n.
Proof.
  unfold Z.of_uint. cbn [numeral_of Pos.of_uint Z.of_N].
  rewrite of_uint_acc_zeros. lia.
Qed.

Lemma decimal_nines (n : nat) :
  Py.decimal (10 ^ Z.of_nat (S n) - 1) = digits_of "9" (S n).
Proof.
  rewrite <- of_int_nines, <- string_of_nines.
  change (Z.of_uint ?d) with (Z.of_int (Decimal.Pos d)).
  unfold Py.decimal. by rewrite DecimalZ.to_of.
Qed.

Lemma decimal_minus_nines (n : nat) :
  Py.decimal (- (10 ^ Z.of_nat (S n) - 1)) = String "-" (digits_of "9" (S n)).
Proof.
  rewrite <- of_int_nines, <- string_of_nines.
  change (- Z.of_uint ?d) with (Z.of_int (Decimal.Neg d)).
  unfold Py.decimal. by rewrite DecimalZ.to_of.
Qed.

Lemma decimal_one_zeros (n : nat) :
  Py.decimal (10 ^ Z.of_nat n) = String "1" (digits_of "0" n).
Proof.
  rewrite <- of_int_one_zeros, <- string_of_zeros.
  change (Z.of_uint ?d) with (Z.of_int (Decimal.Pos d)).
  unfold Py.decimal. by rewrite DecimalZ.to_of.
Qed.

(** [int] and [str] at a number of nines, and at the power of ten after
    it. *)
Lemma int_nines (n : nat) :
  Py.int (digits_of "9" (S n))
  = if Z.of_nat (S n) <=? Py.max_str_digits
    then Some (10 ^ Z.of_nat (S n) - 1) else None.
Proof.
  unfold Py.int. rewrite (count_digits_of "9" 9) by done.
  by rewrite <- decimal_nines, literal_decimal.
Qed.

Lemma int_minus_nines (n : nat) :
  Py.int (String "-" (digits_of "9" (S n)))
  = if Z.of_nat (S n) <=? Py.max_str_digits
    then Some (- (10 ^ Z.of_nat (S n) - 1)) else None.
Proof.
  unfold Py.int. rewrite <- decimal_minus_nines, literal_decimal.
  rewrite decimal_minus_nines.
  change (Py.count_digits (String "-" ?s)) with (Py.count_digits s).
  by rewrite (count_digits_of "9" 9).
Qed.

Lemma str_nines (n : nat) :
  Py.str (10 ^ Z.of_nat (S n) - 1)
  = if Z.of_nat (S n) <=? Py.max_str_digits
    then Some (digits_of "9" (S n)) else None.
Proof.
  unfold Py.str. by rewrite decimal_nines, (count_digits_of "9" 9).
Qed.

Lemma str_minus_nines (n : nat) :
  Py.str (- (10 ^ Z.of_nat (S n) - 1))
  = if Z.of_nat (S n) <=? Py.max_str_digits
    then Some (String "-" (digits_of "9" (S n))) else None.
Proof.
  unfold Py.str. rewrite decimal_minus_nines.
  change (Py.count_digits (String "-" ?s)) with (Py.count_digits s).
  by rewrite (count_digits_of "9" 9).
Qed.

Lemma str_one_zeros (n : nat) :
  Py.str (10 ^ Z.of_nat n)
  = if Z.of_nat (S n) <=? Py.max_str_digits
    then Some (String "1" (digits_of "0" n)) else None.
Proof.
  unfold Py.str. rewrite decimal_one_zeros.
  change (Py.count_digits (String "1" ?s)) with (1 + Py.count_digits s).
  rewrite (count_digits_of "0" 0) by done.
  by replace (1 + Z.of_nat n) with (Z.of_nat (S n)) by lia.
Qed.

(** A version of as many nines as [str] takes digits: its number is read,
    it is above a version that starts with a smaller number, and [str]
    refuses the number after it. *)
Lemma version_ints_nines (n : nat) :
  Z.of_nat (S n) <= Py.max_str_digits ->
  version_ints (digits_of "9" (S n)) = OK [10 ^ Z.of_nat (S n) - 1].
Proof.
  intros Hn.
  apply (version_ints_dotted [10 ^ Z.of_nat (S n) - 1] [digits_of "9" (S n)]);
    [done|].
  cbn [strs]. rewrite str_nines.
  by destruct (Z.leb_spec (Z.of_nat (S n)) Py.max_str_digits); [|lia].
Qed.

Lemma version_ok_nines (old_version : string) (x : Z) (rest : list Z) (n : nat) :
  version_ints old_version = OK (x :: rest) ->
  x < 9 ->
  Z.of_nat (S n) <= Py.max_str_digits ->
  version_ok old_version (digits_of "9" (S n)) = OK true.
Proof.
  intros Ho Hx Hn.
  apply (version_ok_lt _ _ _ _ Ho (version_ints_nines n Hn)).
  apply lex_lt_head.
  rewrite Nat2Z.inj_succ, Z.pow_succ_r by lia.
  pose proof (Z.pow_pos_nonneg 10 (Z.of_nat n)). lia.
Qed.

Lemma next_version_nines (n : nat) :
  Z.of_nat (S n) = Py.max_str_digits ->
  next_version (digits_of "9" (S n))
  = Raise (ValueError (Str_refuses (10 ^ Z.of_nat (S n)))).
Proof.
  intros Hn. unfold next_version.
  rewrite version_ints_nines by lia.
  cbn [incr_last strs]. rewrite Z.sub_add, str_one_zeros.
  by destruct (Z.leb_spec (Z.of_nat (S (S n))) Py.max_str_digits); [lia|].
Qed.

Section Outcomes.
Context {E : Type} {L : Listing}.
Variable exec : list string -> gmap string string -> E -> Z * gmap string string * E.
Variable compile_escapes : string -> compiled.

(** *** The second loop, in both modes *)

Lemma commands_set_events dry_run repl fs (names : list string) :
  commands (set_event dry_run repl fs <$> names) = [].
Proof. induction names as [|f names IH]; [done|]. by destruct dry_run. Qed.

Lemma commands_command_events dry_run (cs : list (list string)) :
  commands (command_event dry_run <$> cs) = cs.
Proof.
  induction cs as [|c cs IH]; [done|].
  rewrite <- IH at 2. by destruct dry_run.
Qed.

Lemma commands_app (evs evs' : list event) :
  commands (evs ++ evs') = commands evs ++ commands evs'.
Proof. apply omap_app. Qed.

Lemma rewrite_loop_events version (dry_run : bool) repl (fs0 : gmap string string)
    (names : list string) :
  compile_repl compile_escapes (version_line version) = Replaces repl ->
  NoDup names ->
  Forall (fun f => is_Some (fs0 !! f)) names ->
  forall w : world E, (forall f, f ∈ names -> files w !! f = fs0 !! f) ->
  exists w',
    for_each names (fun build_filename =>
      contents <~ read build_filename ;
      contents' <~ VERSION_RE_sub compile_escapes (version_line version) contents ;
      if dry_run then print (Would_set_contents build_filename contents')
      else write build_filename contents') w = (OK tt, w')
    /\ trace w' = trace w ++ (set_event dry_run repl fs0 <$> names).
Proof.
  intros Hc. induction 1 as [|x names Hx _ IH]; intros Hall w Hw.
  - exists w. split; [done|]. by rewrite app_nil_r.
  - apply Forall_cons in Hall as [[stored Hf] Hall].
    assert (files w !! x = Some stored) as Hwx.
    { rewrite Hw; [done|by left]. }
    cbn [for_each]. unfold bind at 1. rewrite (rewrite_step _ _ _ _ _ _ Hwx), Hc.
    assert (set_event dry_run repl fs0 x
            = if dry_run then Printed (Would_set_contents x (rewritten repl stored))
              else Wrote x (rewritten repl stored)) as Hev.
    { unfold set_event, new_contents. by rewrite Hf. }
    destruct dry_run.
    + cbn [print log]. set (w1 := World _ _ _).
      destruct (IH Hall w1) as (w' & Hrun & Htr).
      { intros f Hin. subst w1. cbn [files]. apply Hw. by right. }
      exists w'. split; [exact Hrun|].
      rewrite Htr, fmap_cons, Hev. subst w1. cbn [trace].
      by rewrite <- app_assoc.
    + cbn [write]. set (w1 := World _ _ _).
      destruct (IH Hall w1) as (w' & Hrun & Htr).
      { intros f Hin. subst w1. cbn [files].
        rewrite lookup_insert_ne by (by intros ->). apply Hw. by right. }
      exists w'. split; [exact Hrun|].
      rewrite Htr, fmap_cons, Hev. subst w1. cbn [trace].
      by rewrite <- app_assoc.
Qed.

(** Whether the second loop succeeds does not depend on the mode, and what
    it leaves in the trace is one event for each build file. *)
Lemma rewrite_build_files_outcome version dry_run (w : world E) :
  match compile_repl compile_escapes (version_line version) with
  | Replaces repl =>
      exists w',
        rewrite_build_files compile_escapes version dry_run w = (OK tt, w')
        /\ trace w' = trace w ++ (set_event dry_run repl (files w) <$> walk (files w))
  | Refuses why =>
      rewrite_build_files compile_escapes version dry_run w
      = match walk (files w) with
        | [] => (OK tt, w)
        | _ :: _ => (Raise (template_exn why (version_line version)), w)
        end
  end.
Proof.
  assert (Forall (fun f => is_Some (files w !! f)) (walk (files w))) as Hall.
  { apply Forall_forall. by intros f [_ ?]%elem_of_walk. }
  destruct (compile_repl _ _) as [repl|why] eqn:Hc.
  - unfold rewrite_build_files, bind at 1, build_filenames.
    apply (rewrite_loop_events _ _ _ (files w)); [done|apply NoDup_walk|done|done].
  - unfold rewrite_build_files, bind at 1, build_filenames.
    destruct (walk (files w)) as [|f names]; [done|].
    apply Forall_cons in Hall as [Hf _].
    by apply rewrite_loop_refused.
Qed.

Lemma rewrite_build_files_raises_same version dry_run (w : world E) e w' :
  rewrite_build_files compile_escapes version dry_run w = (Raise e, w') -> w' = w.
Proof.
  intros H. pose proof (rewrite_build_files_outcome version dry_run w) as Ho.
  destruct (compile_repl _ _) as [repl|why].
  - destruct Ho as (w1 & Ho & _). congruence.
  - rewrite H in Ho. destruct (walk (files w)); congruence.
Qed.

(** *** [set_version] *)

Lemma set_version_raises_same version dry_run (w : world E) e w' :
  set_version compile_escapes version dry_run w = (Raise e, w') -> w' = w.
Proof.
  rewrite set_version_eq.
  destruct (found_versions w).1 as [versions|e1]; [|congruence].
  case_decide; [|congruence].
  destruct versions as [|old rest]; [congruence|].
  destruct (version_ok old version) as [[|]|]; [|congruence..].
  apply rewrite_build_files_raises_same.
Qed.

Lemma set_version_events version dry_run (w w' : world E) :
  set_version compile_escapes version dry_run w = (OK tt, w') ->
  exists repl,
    compile_repl compile_escapes (version_line version) = Replaces repl
    /\ trace w' = trace w ++ (set_event dry_run repl (files w) <$> walk (files w)).
Proof.
  intros (old & rest & Hfound & _ & Hrw)%set_version_OK.
  apply found_versions_walk in Hfound as [_ Hne].
  pose proof (rewrite_build_files_outcome version dry_run w) as Ho.
  destruct (compile_repl _ _) as [repl|why].
  - destruct Ho as (w1 & Ho & Htr). exists repl. split; [done|]. congruence.
  - rewrite Hrw in Ho. destruct (walk (files w)); [|done].
    by destruct Hne.
Qed.

Lemma set_version_only_printed version (w : world E) :
  only_printed w (set_version compile_escapes version true w).2.
Proof.
  apply (along_set_version (fun _ fs x => (0, fs, x)) compile_escapes only_printed);
    dry_side.
Qed.

(** What [set_version] leaves alone, whatever its outcome. *)
Lemma set_version_frame version dry_run (w : world E) r w' :
  set_version compile_escapes version dry_run w = (r, w') ->
  ext w' = ext w
  /\ walk (files w') = walk (files w)
  /\ (forall g, is_Some (files w' !! g) <-> is_Some (files w !! g))
  /\ (forall g, is_build_file g = false -> files w' !! g = files w !! g).
Proof.
  intros H. destruct r as [[]|e].
  - destruct dry_run.
    + pose proof (set_version_only_printed version w) as Hp.
      rewrite H in Hp. destruct Hp as (Hf & Hx & _). cbn [snd] in *.
      rewrite Hf. done.
    + destruct (set_version_written compile_escapes _ _ _ _ eq_refl H)
        as (repl & _ & _ & Hx & Hwalk & _ & Hfiles).
      split; [done|]. split; [done|]. split.
      * intros g. rewrite Hfiles. case_decide; [|done].
        by rewrite fmap_is_Some.
      * intros g Hg. rewrite Hfiles. rewrite decide_False; [done|].
        intros [Hb _]%elem_of_walk. congruence.
  - apply set_version_raises_same in H as ->. done.
Qed.

(** What [set_version] raises. *)
Lemma version_ok_ValueError old_version version e :
  version_ok old_version version = Raise e -> exists literal, e = ValueError literal.
Proof.
  assert (forall x, version_ints x = Raise e -> exists literal, e = ValueError literal)
    as Hv.
  { unfold version_ints. intros x H.
    pose proof (ints_spec (Py.split "." (sub_pre false x))) as Hs.
    rewrite H in Hs. destruct Hs as (c & _ & _ & ->). eauto. }
  unfold version_ok.
  destruct (version_ints old_version) eqn:Ho; [|intros [= <-]; by eapply Hv].
  destruct (version_ints version) eqn:Hn; [done|].
  intros [= <-]. by eapply Hv.
Qed.

Lemma set_version_not_a_command version dry_run (w : world E) command returncode w' :
  set_version compile_escapes version dry_run w
  <> (Raise (CalledProcessError command returncode), w').
Proof.
  rewrite set_version_eq. pose proof (found_versions_spec w) as Hf.
  destruct (found_versions w) as [[versions|e1] w1]; cbn [fst].
  - case_decide; [|congruence].
    destruct versions as [|old rest]; [congruence|].
    destruct (version_ok old version) as [[|]|e1] eqn:Hok; [|congruence|].
    + intros (why & Hr & _)%rewrite_build_files_raises. by destruct why.
    + apply version_ok_ValueError in Hok as [c ->]. congruence.
  - destruct Hf as (_ & f & _ & _ & ->). congruence.
Qed.






End Outcomes.

Section Steps.
Context {E : Type} {L : Listing}.
Variable exec : list string -> gmap string string -> E -> Z * gmap string string * E.
Variable compile_escapes : string -> compiled.

(** *** Commands that fail *)

Lemma fails_last_bind {A B : Type} dry_run (m : M E A) (k : A -> M E B) :
  fails_last dry_run m -> (forall a, fails_last dry_run (k a)) ->
  fails_last dry_run (bind m k).
Proof.
  intros Hm Hk w c rc w' [H|(a & w1 & _ & H)]%bind_Raise_inv.
  - by eapply Hm.
  - by eapply Hk.
Qed.

Lemma fails_last_for_each {A : Type} dry_run (l : list A) (body : A -> M E unit) :
  (forall x, fails_last dry_run (body x)) -> fails_last dry_run (for_each l body).
Proof.
  intros Hb. induction l as [|x l IH]; [done|].
  cbn [for_each]. apply fails_last_bind; [apply Hb|by intros _].
Qed.

Lemma fails_last_run_command command dry_run :
  fails_last dry_run (run_command exec command dry_run).
Proof.
  intros w c rc w'. unfold run_command. destruct dry_run; [done|].
  destruct (has_null command); [done|].
  destruct (exec command (files w) (ext w)) as [[returncode fs'] x'].
  destruct (Z.eqb_spec returncode 0) as [->|Hne]; [done|].
  intros [= <- <- <-]. cbn [trace]. by rewrite last_snoc.
Qed.

Lemma fails_last_set_version version dry_run :
  fails_last (E:=E) dry_run (set_version compile_escapes version dry_run).
Proof. intros w c rc w' H. by apply set_version_not_a_command in H. Qed.

Lemma fails_last_next_version version dry_run :
  fails_last (E:=E) dry_run (lift (next_version version)).
Proof.
  intros w c rc w'. unfold lift.
  destruct (version_ints version) as [l|e] eqn:Hv.
  - destruct (exists_last (version_ints_OK_nonempty _ _ Hv)) as (init & lst & ->).
    intros [= Hn _].
    by apply (next_version_Raise _ _ _ _ Hv) in Hn as (? & _ & _ & ?).
  - unfold next_version. rewrite Hv. unfold version_ints in Hv.
    pose proof (ints_spec (Py.split "." (sub_pre false version))) as Hs.
    rewrite Hv in Hs. destruct Hs as (lit & _ & _ & ->). done.
Qed.

Lemma fails_last_commit_version_bump version auditors dry_run :
  fails_last dry_run (commit_version_bump exec version auditors dry_run).
Proof.
  unfold commit_version_bump.
  apply fails_last_bind; [done|intros names].
  apply fails_last_bind; [|intros _; apply fails_last_run_command].
  apply fails_last_for_each. intros f. apply fails_last_run_command.
Qed.

Lemma fails_last_git_push dry_run : fails_last dry_run (git_push exec dry_run).
Proof.
  unfold git_push.
  apply fails_last_bind; [|intros _]; apply fails_last_run_command.
Qed.

(** *** Commands that succeed *)

Lemma for_each_run_OK (cmd : string -> list string) dry_run (names : list string)
    (w w' : world E) :
  for_each names (fun f => run_command exec (cmd f) dry_run) w = (OK tt, w') ->
  trace w' = trace w ++ (command_event dry_run <$> (cmd <$> names)).
Proof.
  revert w. induction names as [|f names IH]; intros w.
  - intros [= <-]. by rewrite app_nil_r.
  - cbn [for_each].
    intros ([] & w1 & H1%run_command_OK & H2%IH)%bind_OK_inv.
    by rewrite H2, H1, !fmap_cons, <- app_assoc.
Qed.

Lemma commit_version_bump_events version auditors dry_run (w w' : world E) :
  commit_version_bump exec version auditors dry_run w = (OK tt, w') ->
  trace w' = trace w ++
    (command_event dry_run <$>
       add_commands (walk (files w)) ++
       [["git"; "commit"; "-m"; VERSION_BUMP_COMMIT version auditors]]).
Proof.
  unfold commit_version_bump, bind at 1, build_filenames.
  intros ([] & w1 & H1%for_each_run_OK & H2%run_command_OK)%bind_OK_inv.
  by rewrite H2, H1, fmap_app, <- app_assoc.
Qed.

Lemma keeps_files_bind fs (m k : M E unit) :
  keeps_files fs m -> keeps_files fs k -> keeps_files fs (m >> k).
Proof.
  intros Hm Hk w Hw. destruct (Hm w Hw) as (w1 & H1 & Hf1).
  destruct (Hk w1 Hf1) as (w2 & H2 & Hf2).
  exists w2. unfold bind. by rewrite H1, H2.
Qed.

Lemma keeps_files_for_each {A : Type} fs (l : list A) (body : A -> M E unit) :
  (forall x, x ∈ l -> keeps_files fs (body x)) -> keeps_files fs (for_each l body).
Proof.
  intros Hb. induction l as [|x l IH]; [by intros w; exists w|].
  cbn [for_each]. apply keeps_files_bind.
  - apply Hb. by left.
  - apply IH. intros y Hy. apply Hb. by right.
Qed.

Lemma keeps_files_run_command fs command dry_run :
  dry_run = true \/ (harmless exec /\ has_null command = false) ->
  keeps_files fs (run_command exec command dry_run).
Proof.
  intros Hm w Hw. unfold run_command. destruct dry_run.
  - by eexists.
  - destruct Hm as [|[Hh ->]]; [done|].
    destruct (Hh command (files w) (ext w)) as [x' ->]. by eexists.
Qed.

Lemma has_null_message version auditors :
  no_null version -> no_null auditors ->
  Py.has_char Py.NUL (VERSION_BUMP_COMMIT version auditors) = false.
Proof.
  unfold no_null, VERSION_BUMP_COMMIT. intros Hv Ha.
  rewrite !has_char_app, Hv, Ha. done.
Qed.

Lemma quiet_walk version auditors dry_run (fs fs' : gmap string string) :
  walk fs' = walk fs ->
  quiet exec dry_run version auditors fs -> quiet exec dry_run version auditors fs'.
Proof. unfold quiet. by intros ->. Qed.

Lemma quiet_next version next auditors dry_run (fs : gmap string string) :
  next_version version = OK next ->
  quiet exec dry_run version auditors fs -> quiet exec dry_run next auditors fs.
Proof.
  intros Hnext [Hd|(Hh & _ & Ha & Hfs)]; [by left|right].
  split; [done|]. split; [|done].
  by apply (next_version_has_char Py.NUL version).
Qed.

Lemma keeps_files_commit_version_bump fs version auditors dry_run :
  quiet exec dry_run version auditors fs ->
  keeps_files fs (commit_version_bump exec version auditors dry_run).
Proof.
  intros Hq w Hw. unfold commit_version_bump, bind at 1, build_filenames.
  rewrite Hw. revert w Hw. apply keeps_files_bind.
  - apply keeps_files_for_each. intros f Hf. apply keeps_files_run_command.
    destruct Hq as [Hd|(Hh & _ & _ & Hfs)]; [by left|right].
    split; [done|]. rewrite Forall_forall in Hfs. specialize (Hfs f Hf).
    unfold has_null. cbn [existsb Py.has_char]. by rewrite Hfs.
  - apply keeps_files_run_command.
    destruct Hq as [Hd|(Hh & Hv & Ha & _)]; [by left|right].
    split; [done|]. unfold has_null. cbn [existsb].
    rewrite (has_null_message _ _ Hv Ha). done.
Qed.

Lemma keeps_files_git_push fs dry_run :
  dry_run = true \/ harmless exec -> keeps_files fs (git_push exec dry_run).
Proof.
  intros Hm. apply keeps_files_bind; apply keeps_files_run_command;
    (destruct Hm as [Hd|Hh]; [by left|by right]).
Qed.

(** The steps of [do_release] between the two calls of [set_version], and
    those after the second one. *)
Lemma keeps_files_release_steps fs version auditors dry_run :
  quiet exec dry_run version auditors fs ->
  keeps_files fs (commit_version_bump exec version auditors dry_run >>
                  make_tag exec version dry_run >>
                  git_push exec dry_run >>
                  do_publish exec dry_run).
Proof.
  intros Hq.
  assert (dry_run = true \/ harmless exec) as Hm.
  { destruct Hq as [Hd|(Hh & _)]; [by left|by right]. }
  apply keeps_files_bind; [by apply keeps_files_commit_version_bump|].
  apply keeps_files_bind.
  { apply keeps_files_run_command.
    destruct Hq as [Hd|(Hh & Hv & _)]; [by left|right].
    split; [done|]. unfold has_null. cbn [existsb].
    unfold no_null in Hv. by rewrite has_char_app, Hv. }
  apply keeps_files_bind; [by apply keeps_files_git_push|].
  apply keeps_files_run_command. destruct Hm as [Hd|Hh]; [by left|by right].
Qed.

Lemma keeps_files_closing_steps fs version auditors dry_run :
  quiet exec dry_run version auditors fs ->
  keeps_files fs (commit_version_bump exec version auditors dry_run >>
                  git_push exec dry_run).
Proof.
  intros Hq.
  apply keeps_files_bind; [by apply keeps_files_commit_version_bump|].
  apply keeps_files_git_push.
  destruct Hq as [Hd|(Hh & _)]; [by left|by right].
Qed.

(** [do_release], cut at its two calls of [set_version]. *)
Lemma do_release_cut version auditors dry_run (w : world E) :
  do_release exec compile_escapes version auditors dry_run w =
  (set_version compile_escapes version dry_run >>
   (commit_version_bump exec version auditors dry_run >>
    make_tag exec version dry_run >>
    git_push exec dry_run >>
    do_publish exec dry_run) >>
   next <~ lift (next_version version) ;
   set_version compile_escapes next dry_run >>
   (commit_version_bump exec next auditors dry_run >>
    git_push exec dry_run)) w.
Proof.
  unfold do_release, bind.
  destruct (set_version compile_escapes version dry_run w) as [[[]|] wa]; [|done].
  destruct (commit_version_bump exec version auditors dry_run wa) as [[[]|] wb];
    [|done].
  destruct (make_tag exec version dry_run wb) as [[[]|] wc]; [|done].
  destruct (git_push exec dry_run wc) as [[[]|] wd]; [|done].
  by destruct (do_publish exec dry_run wd) as [[[]|] we].
Qed.

(** When the commands leave the files alone, a release whose first
    [set_version] succeeds comes to its second one with the files that the
    first one left, and succeeds when the second one does. *)
Lemma do_release_second_step version auditors dry_run (w w1 : world E) next :
  quiet exec dry_run version auditors (files w) ->
  set_version compile_escapes version dry_run w = (OK tt, w1) ->
  next_version version = OK next ->
  exists w5 : world E,
    files w5 = files w1 /\
    forall w6, set_version compile_escapes next dry_run w5 = (OK tt, w6) ->
      exists w',
        do_release exec compile_escapes version auditors dry_run w = (OK tt, w')
        /\ files w' = files w6.
Proof.
  intros Hq H1 Hnext.
  destruct (set_version_frame compile_escapes _ _ _ _ _ H1) as (_ & Hwalk1 & _).
  destruct (keeps_files_release_steps (files w1) version auditors dry_run
              (quiet_walk _ _ _ _ _ Hwalk1 Hq) w1 eq_refl)
    as (w5 & H5 & Hf5).
  exists w5. split; [done|]. intros w6 H6.
  destruct (set_version_frame compile_escapes _ _ _ _ _ H6) as (_ & Hwalk6 & _).
  rewrite Hf5 in Hwalk6.
  destruct (keeps_files_closing_steps (files w6) next auditors dry_run
              (quiet_next _ _ _ _ _ Hnext
                 (quiet_walk _ _ _ _ _ (eq_trans Hwalk6 Hwalk1) Hq)) w6 eq_refl)
    as (w' & H' & Hf').
  exists w'. split; [|done].
  rewrite do_release_cut. unfold bind at 1. rewrite H1.
  unfold bind at 1. rewrite H5.
  unfold bind at 1. unfold lift at 1. rewrite Hnext.
  unfold bind at 1. by rewrite H6.
Qed.

(** When the commands leave the files alone, a release whose first
    [set_version] succeeds raises what the computation of the next version
    raises. *)
Lemma do_release_next_version_raises version auditors dry_run (w w1 : world E) e :
  quiet exec dry_run version auditors (files w) ->
  set_version compile_escapes version dry_run w = (OK tt, w1) ->
  next_version version = Raise e ->
  (do_release exec compile_escapes version auditors dry_run w).1 = Raise e.
Proof.
  intros Hq H1 Hnext.
  destruct (set_version_frame compile_escapes _ _ _ _ _ H1) as (_ & Hwalk1 & _).
  destruct (keeps_files_release_steps (files w1) version auditors dry_run
              (quiet_walk _ _ _ _ _ Hwalk1 Hq) w1 eq_refl)
    as (w5 & H5 & Hf5).
  rewrite do_release_cut. unfold bind at 1. rewrite H1.
  unfold bind at 1. rewrite H5.
  unfold bind at 1. unfold lift at 1. by rewrite Hnext.
Qed.

End Steps.

Section More_steps.
Context {E : Type} {L : Listing}.
Variable exec : list string -> gmap string string -> E -> Z * gmap string string * E.
Variable compile_escapes : string -> compiled.

Lemma run_command_Raise command dry_run (w : world E) e w' :
  run_command exec command dry_run w = (Raise e, w') ->
  dry_run = false /\ command_failed command e.
Proof.
  unfold run_command. destruct dry_run; [done|].
  destruct (has_null command) eqn:Hnull.
  { intros [= <- _]. split; [done|by left]. }
  destruct (exec command (files w) (ext w)) as [[returncode fs'] x'].
  destruct (Z.eqb_spec returncode 0); [done|]. intros [= <- _].
  split; [done|]. right. eauto.
Qed.

Lemma for_each_run_Raise (cmd : string -> list string) dry_run
    (names : list string) (w : world E) e w' :
  for_each names (fun f => run_command exec (cmd f) dry_run) w = (Raise e, w') ->
  dry_run = false /\ exists f, f ∈ names /\ command_failed (cmd f) e.
Proof.
  revert w. induction names as [|f names IH]; intros w; [done|].
  cbn [for_each].
  intros [[Hd He]%run_command_Raise|(_ & w1 & _ & (Hd & g & Hg & He)%IH)]%bind_Raise_inv.
  - split; [done|]. exists f. split; [by left|done].
  - split; [done|]. exists g. split; [by right|done].
Qed.

Lemma commit_version_bump_Raise version auditors dry_run (w : world E) e w' :
  commit_version_bump exec version auditors dry_run w = (Raise e, w') ->
  dry_run = false /\
  exists command,
    command ∈ add_commands (walk (files w)) ++
      [["git"; "commit"; "-m"; VERSION_BUMP_COMMIT version auditors]]
    /\ command_failed command e.
Proof.
  unfold commit_version_bump, bind at 1, build_filenames.
  intros [(Hd & f & Hf & He)%for_each_run_Raise
         |(_ & w1 & _ & [Hd He]%run_command_Raise)]%bind_Raise_inv.
  - split; [done|]. eexists. split; [|exact He]. apply elem_of_app. left.
    unfold add_commands. apply list_elem_of_fmap. by exists f.
  - split; [done|]. eexists. split; [|exact He]. apply elem_of_app. right. by left.
Qed.

(** The commands between the two calls of [set_version] add and remove no
    file when no command does. *)
Lemma same_paths_run command dry_run :
  dry_run = true \/ keeps_paths exec ->
  along (same_paths (E:=E)) (run_command exec command dry_run).
Proof.
  intros Hm w. unfold run_command, same_paths. destruct dry_run; [done|].
  destruct (has_null command); [done|].
  destruct Hm as [|Hk]; [done|]. specialize (Hk command (files w) (ext w)).
  destruct (exec command (files w) (ext w)) as [[rc fs] x].
  by destruct (rc =? 0).
Qed.

Lemma release_steps_same_paths version auditors dry_run :
  dry_run = true \/ keeps_paths exec ->
  along same_paths
    (commit_version_bump exec version auditors dry_run >>
     make_tag exec version dry_run >>
     git_push exec dry_run >>
     do_publish exec dry_run).
Proof.
  intros Hm.
  assert (forall w1 w2 w3 : world E,
    same_paths w1 w2 -> same_paths w2 w3 -> same_paths w1 w3) as Htrans.
  { unfold same_paths. congruence. }
  assert (forall command, along same_paths (run_command exec command dry_run))
    as Hrun by (intros command; by apply same_paths_run).
  apply along_bind; [done| |intros _].
  { unfold commit_version_bump.
    apply along_bind; [done|done|intros names].
    apply along_bind; [done| |intros _; apply Hrun].
    apply along_for_each; [done|done|]. intros f. apply Hrun. }
  apply along_bind; [done|apply Hrun|intros _].
  apply along_bind; [done| |intros _; apply Hrun].
  unfold git_push. apply along_bind; [done|apply Hrun|intros _; apply Hrun].
Qed.

(** Whether a build file declares a version is a matter of the files. *)
Lemma agree_on_files (w w2 : world E) v :
  files w2 = files w -> agree_on w v -> agree_on w2 v.
Proof. unfold agree_on, declared. by intros ->. Qed.

(** When [set_version] succeeds. *)
Lemma set_version_OK_iff version dry_run (w : world E) :
  (set_version compile_escapes version dry_run w).1 = OK tt <->
  exists old_version rest,
    (found_versions w).1 = OK (old_version :: rest)
    /\ size (list_to_set (old_version :: rest) : gset string) = 1%nat
    /\ version_ok old_version version = OK true
    /\ exists repl,
         compile_repl compile_escapes (version_line version) = Replaces repl.
Proof.
  rewrite set_version_eq. pose proof (found_versions_spec w) as Hf.
  destruct (found_versions w) as [[versions|e] w1]; cbn [fst];
    [|split; [done|by intros (? & ? & ? & _)]].
  destruct Hf as [_ Hf].
  case_decide as Hsize; cycle 1.
  { split; [done|]. intros (old & rest & [= ->] & ? & _). done. }
  destruct versions as [|old rest].
  { split; [done|]. by intros (? & ? & ? & _). }
  assert (walk (files w) <> []) as Hne.
  { intros Hw. rewrite Hw in Hf. by apply Forall2_nil_inv_l in Hf. }
  pose proof (rewrite_build_files_outcome compile_escapes version dry_run w) as Ho.
  destruct (version_ok old version) as [[|]|e] eqn:Hok; cycle 1.
  { split; [done|]. by intros (? & ? & [= <- <-] & _ & ? & _); congruence. }
  { split; [done|]. by intros (? & ? & [= <- <-] & _ & ? & _); congruence. }
  destruct (compile_repl _ _) as [repl|why].
  - destruct Ho as (w' & -> & _). split; [|done]. intros _.
    exists old, rest. eauto.
  - rewrite Ho. destruct (walk (files w)); [done|].
    split; [done|]. by intros (? & ? & _ & _ & _ & ? & ?).
Qed.


End More_steps.

(** ** The shape of a match *)

Lemma strip_prefix_Some (p s r : string) :
  strip_prefix p s = Some r -> s = p +:+ r.
Proof.
  revert s. induction p as [|a p IH]; intros s.
  - by intros [= ->].
  - destruct s as [|b s]; cbn [strip_prefix]; [done|].
    destruct (Ascii.eqb_spec a b) as [->|]; [|done].
    intros H%IH. by rewrite H.
Qed.

Lemma until_quote_Some (s v r : string) :
  until_quote s = Some (v, r) ->
  s = v +:+ String Py.DQUOTE r /\ Py.has_char Py.DQUOTE v = false.
Proof.
  revert v. induction s as [|c s IH]; intros v; cbn [until_quote]; [done|].
  destruct (Ascii.eqb_spec c Py.DQUOTE) as [->|Hc].
  - by intros [= <- <-].
  - destruct (until_quote s) as [[v' r']|]; [|done].
    intros [= <- <-]. destruct (IH v' eq_refl) as [-> Hv].
    split; [done|]. cbn [Py.has_char]. rewrite Hv, orb_false_r.
    by apply Ascii.eqb_neq.
Qed.

Lemma match_at_Some (s v r : string) :
  match_at s = Some (v, r) ->
  s = version_line v +:+ r /\ v <> "" /\ Py.has_char Py.DQUOTE v = false.
Proof.
  unfold match_at.
  destruct (strip_prefix PREFIX s) as [s1|] eqn:Hp; [|done].
  destruct (until_quote s1) as [[[|c v'] r']|] eqn:Hq; [done| |done].
  intros [= <- <-]. apply strip_prefix_Some in Hp as ->.
  apply until_quote_Some in Hq as [-> Hv].
  split; [|done]. unfold version_line. by rewrite !append_assoc.
Qed.

Lemma append_NL_inj (a b : string) : a +:+ NL = b +:+ NL -> a = b.
Proof.
  revert b. induction a as [|c a IH]; intros [|d b]; [done|..].
  - intros [= <- H]. by destruct b.
  - intros [= -> H]. by destruct a.
  - rewrite !append_cons. intros [= <- H%IH]. by rewrite H.
Qed.

Lemma line_start_line (l before : string) :
  line_start before -> line_start (l +:+ String Py.LF before).
Proof.
  intros [->|[b ->]]; right.
  - by exists l.
  - exists (l +:+ String Py.LF b). by rewrite append_assoc.
Qed.

(** The version found in a text: it stands in a line of the text that
    starts with the text of a version line, and it has at least one
    character, none of them a double quote or a line feed. *)
Lemma first_version_shape (t v : string) :
  first_version (readlines t) = Some v ->
  v <> "" /\ Py.has_char Py.DQUOTE v = false /\ Py.has_char Py.LF v = false
  /\ (forall c, Py.has_char c t = false -> Py.has_char c v = false)
  /\ exists before after,
       t = before +:+ version_line v +:+ after /\ line_start before.
Proof.
  revert v.
  induction t as [|l Hl Hnil|l rest Hl IH] using line_ind; intros v.
  - done.
  - rewrite readlines_last by done. cbn [first_version].
    destruct (match_at l) as [[v' r]|] eqn:Hm; [|by rewrite search_last].
    rewrite (search_match _ _ _ Hm). intros [= ->].
    apply match_at_Some in Hm as (-> & Hne & Hq).
    assert (forall c, Py.has_char c (version_line v +:+ r) = false ->
              Py.has_char c v = false) as Hc.
    { intros c. unfold version_line. rewrite !has_char_app.
      by intros [[_ [? _]%orb_false_iff]%orb_false_iff _]%orb_false_iff. }
    split; [done|]. split; [done|]. split; [by apply Hc|]. split; [done|].
    exists "", r. split; [done|by left].
  - rewrite readlines_line by done. cbn [first_version].
    destruct (match_at (l +:+ NL)) as [[v' r]|] eqn:Hm.
    + rewrite (search_match _ _ _ Hm). intros [= ->].
      destruct (match_at_line _ _ _ Hl Hm) as (l' & -> & _).
      apply match_at_Some in Hm as (Hl' & Hne & Hq).
      rewrite <- append_assoc in Hl'. apply append_NL_inj in Hl' as ->.
      assert (forall c, Py.has_char c (version_line v +:+ l') = false ->
                Py.has_char c v = false) as Hc.
      { intros c. unfold version_line. rewrite !has_char_app.
        by intros [[_ [? _]%orb_false_iff]%orb_false_iff _]%orb_false_iff. }
      split; [done|]. split; [done|]. split; [by apply Hc|]. split.
      * intros c. rewrite has_char_app. intros [? _]%orb_false_iff. by apply Hc.
      * exists "", (l' +:+ String Py.LF rest). split; [|by left].
        by rewrite append_assoc.
    + rewrite search_line by done. intros (Hne & Hq & Hlf & Hc & Hplace)%IH.
      split; [done|]. split; [done|]. split; [done|]. split.
      * intros c. rewrite has_char_app. cbn [Py.has_char].
        intros [_ [_ ?]%orb_false_iff]%orb_false_iff. by apply Hc.
      * destruct Hplace as (before & after & -> & Hb).
        exists (l +:+ String Py.LF before), after. split.
        -- by rewrite append_assoc.
        -- by apply line_start_line.
Qed.

Section First_failure.
Context {E : Type} {L : Listing}.

(** The first loop stops at the first build file without a version. *)
Lemma collect_versions_stops (before after : list string) (f : string) (w : world E) :
  Forall (fun g => is_Some (declared w g)) before ->
  is_Some (files w !! f) ->
  declared w f = None ->
  collect (before ++ f :: after) get_version_from_build w
  = (Raise (VersionParsingError f), w).
Proof.
  intros Hb [stored Hf] Hnone. induction Hb as [|g before [v Hg] _ IH].
  - cbn [app collect]. unfold bind at 1.
    by rewrite get_version_from_build_eq, Hf, Hnone.
  - cbn [app collect]. unfold bind at 1.
    rewrite get_version_from_build_eq, Hg.
    assert (is_Some (files w !! g)) as [s ->].
    { unfold declared in Hg. by destruct (files w !! g). }
    unfold bind at 1. by rewrite IH.
Qed.

End First_failure.

(** ** Further properties of the script *)

(** X1: [version_ints] reads back the numbers of a version that is written
    as [do_release] writes the next one: when [str] takes every number of
    a list, none of them having more digits than the limit, the texts
    joined by dots, with or without the suffix [-pre1], are converted back
    to the list. *)
Theorem version_ints_of_formatted (l : list Z) (components : list string) :
  l <> [] ->
  strs l = OK components ->
  version_ints (Py.join "." components) = OK l
  /\ version_ints (Py.join "." components +:+ "-pre1") = OK l.
Proof.
  intros Hl Hs. split; [by apply version_ints_dotted|].
  rewrite (version_ints_suffix _ "1") by done. by apply version_ints_dotted.
Qed.

(** X2: when the numbers of the released version are known, computing the
    version that [do_release] sets next either raises the [ValueError] of
    [str], for a number of the increased list that has more digits than
    the limit, or gives a version that has the numbers of the released one
    with the last increased by one, comes after it in the order of
    [set_version], and is a pre-release; so [set_version] accepts the step
    from the released version to it, and refuses the step back. *)
Theorem next_version_is_higher (version : string) (init : list Z) (last : Z) :
  version_ints version = OK (init ++ [last]) ->
  match next_version version with
  | OK next =>
      version_ints next = OK (init ++ [last + 1])
      /\ lex_lt (init ++ [last]) (init ++ [last + 1])
      /\ Py.contains "-pre" next = true
      /\ version_ok version next = OK true
      /\ version_ok next version = OK false
  | Raise e =>
      exists n, n ∈ init ++ [last + 1]
                /\ Py.str n = None /\ e = ValueError (Str_refuses n)
  end.
Proof.
  intros Hv. destruct (next_version version) as [next|e] eqn:Hnext;
    [|by eapply next_version_Raise].
  destruct (next_version_OK _ _ _ Hv Hnext) as (init' & last' & Heq & -> & Hni).
  apply app_inj_tail in Heq as [<- <-].
  assert (lex_lt (init ++ [last]) (init ++ [last + 1])) as Hlt.
  { apply lex_lt_snoc. lia. }
  split; [exact Hni|]. split; [done|].
  split; [apply (contains_app "-pre" _ "1")|].
  split; [by eapply version_ok_lt|by eapply version_ok_gt].
Qed.

(** X3: versions are compared by their numbers, not as text. For two
    versions written as numbers joined by dots, the numbers being such
    that [str] takes them, [set_version] permits the step from the first
    to the second exactly when the list of the first is below the list of
    the second; from a pre-release of the first, also when the two lists
    are the same. *)
Theorem formatted_versions_compare_as_numbers (a b : list Z)
    (texts_a texts_b : list string) :
  a <> [] -> b <> [] ->
  strs a = OK texts_a -> strs b = OK texts_b ->
  version_ok (Py.join "." texts_a) (Py.join "." texts_b) = OK (Py.list_lt a b)
  /\ version_ok (Py.join "." texts_a +:+ "-pre1") (Py.join "." texts_b)
     = OK (Py.list_le a b).
Proof.
  intros Ha Hb Hsa Hsb. unfold version_ok.
  rewrite (version_ints_suffix _ "1") by done.
  rewrite (version_ints_dotted _ _ Ha Hsa), (version_ints_dotted _ _ Hb Hsb).
  rewrite (contains_app "-pre" _ "1").
  apply strs_OK in Hsa as [-> _].
  by rewrite contains_pre_p by (by apply dotted_has_char).
Qed.

Section Further.
Context {E : Type} {L : Listing}.
Variable exec : list string -> gmap string string -> E -> Z * gmap string string * E.
Variable compile_escapes : string -> compiled.


(** X5: a build file without a version stops [set_version] before
    anything else is looked at. Whatever version is asked for, it raises
    [VersionParsingError] for the first build file, in the order of
    [build_filenames], that declares no version, and changes nothing. *)
Theorem set_version_stops_at_file_without_version version dry_run (w : world E)
    (before after : list string) (f : string) :
  walk (files w) = before ++ f :: after ->
  Forall (fun g => is_Some (declared w g)) before ->
  declared w f = None ->
  set_version compile_escapes version dry_run w
  = (Raise (VersionParsingError f), w).
Proof.
  intros Hwalk Hb Hnone.
  assert (is_Some (files w !! f)) as Hf.
  { apply (elem_of_walk (files w) f). rewrite Hwalk.
    apply elem_of_app. right. by left. }
  rewrite set_version_eq.
  unfold found_versions, bind at 1, build_filenames. rewrite Hwalk.
  by rewrite collect_versions_stops.
Qed.

(** X6: two calls of [set_version] in a row. After a call that has set a
    version without double quote, backslash and line break, the next call
    is judged against that version alone: it rewrites the files when the
    step is permitted and refuses it otherwise, so the numbers that
    successive calls set never go down; and setting a version again that
    is not a pre-release is refused. *)
Theorem set_version_twice x y dry_run (w w1 : world E) :
  plain x = true ->
  set_version compile_escapes x false w = (OK tt, w1) ->
  set_version compile_escapes y dry_run w1
  = match version_ok x y with
    | Raise e => (Raise e, w1)
    | OK true => rewrite_build_files compile_escapes y dry_run w1
    | OK false => (Raise (InvalidVersionError (Not_allowed x y)), w1)
    end
  /\ (forall w2,
        set_version compile_escapes y dry_run w1 = (OK tt, w2) ->
        exists x_i y_i,
          version_ints x = OK x_i /\ version_ints y = OK y_i
          /\ lex_le x_i y_i /\ ~ lex_lt y_i x_i)
  /\ (Py.contains "-pre" x = false ->
      set_version compile_escapes x dry_run w1
      = (Raise (InvalidVersionError (Not_allowed x x)), w1)).
Proof.
  intros Hplain H1.
  assert (agree_on w1 x) as Hagree.
  { split; [|by eapply set_version_declares].
    destruct (set_version_frame compile_escapes _ _ _ _ _ H1)
      as (_ & -> & _).
    destruct (set_version_OK _ _ _ _ _ H1) as (old & rest & Hfound & _).
    apply found_versions_walk in Hfound as [_ Hne]. by apply Hne. }
  pose proof (fun v d => set_version_agree compile_escapes v d w1 x Hagree) as Hs.
  split; [apply Hs|]. split.
  - intros w2 H2. rewrite Hs in H2.
    destruct (version_ok x y) as [[|]|] eqn:Hok; [|done..].
    apply version_ok_true in Hok as (x_i & y_i & Hx & Hy & Hle).
    exists x_i, y_i. repeat (split; [done|]).
    intros Hlt. by apply (lex_lt_not_le _ _ Hlt).
  - intros Hpre. rewrite Hs.
    assert (exists x_i, version_ints x = OK x_i) as [x_i Hx].
    { apply set_version_OK in H1 as (old & rest & _ & Hok & _).
      apply version_ok_true in Hok as (? & x_i & _ & Hx & _). eauto. }
    unfold version_ok. by rewrite Hx, Hpre, list_lt_irrefl.
Qed.

(** X7: [set_version] leaves no carriage return in a build file: the
    text is read with every line end as a line feed and written back as
    it was read, so when the version has no carriage return and no
    backslash, no build file has one after a call that succeeds. *)
Theorem set_version_writes_line_feeds version (w w' : world E) f stored' :
  set_version compile_escapes version false w = (OK tt, w') ->
  Py.has_char Py.BACKSLASH version = false ->
  Py.has_char Py.CR version = false ->
  is_build_file f = true ->
  files w' !! f = Some stored' ->
  Py.has_char Py.CR stored' = false
  /\ universal_newlines false stored' = stored'.
Proof.
  intros H Hb Hcr Hf Hs.
  destruct (set_version_written compile_escapes _ _ _ _ eq_refl H)
    as (repl & Hc & _ & _ & _ & _ & Hfiles).
  rewrite compile_repl_plain in Hc by done. injection Hc as <-.
  assert (Py.has_char Py.CR stored' = false) as Hno.
  { rewrite Hfiles in Hs. case_decide as Hin.
    - destruct (files w !! f) as [stored|]; [|done]. injection Hs as <-.
      unfold rewritten, sub. apply sub_from_has_char.
      + by apply version_line_has_char.
      + apply universal_newlines_no_CR.
    - destruct Hin. apply elem_of_walk. split; [done|]. by rewrite Hs. }
  split; [done|]. by apply universal_newlines_id.
Qed.


(** X9: the version that [get_version_from_build] returns stands in the
    file, between double quotes, in a line that starts with
    [version = ]; it has at least one character, and no double quote, line
    feed or carriage return. The world is left as it is. *)
Theorem version_read_from_build_file build_filename (w : world E) v w' :
  get_version_from_build build_filename w = (OK v, w') ->
  w' = w
  /\ v <> ""
  /\ Py.has_char Py.DQUOTE v = false
  /\ Py.has_char Py.LF v = false
  /\ Py.has_char Py.CR v = false
  /\ exists stored before after,
       files w !! build_filename = Some stored
       /\ universal_newlines false stored = before +:+ version_line v +:+ after
       /\ line_start before.
Proof.
  rewrite get_version_from_build_eq. unfold declared.
  destruct (files w !! build_filename) as [stored|]; [|done].
  destruct (first_version _) as [v'|] eqn:Hv; [|done].
  intros [= -> <-].
  apply first_version_shape in Hv as (Hne & Hq & Hlf & Hc & before & after & Ht & Hb).
  repeat (split; [done|]). split.
  - apply Hc, universal_newlines_no_CR.
  - by exists stored, before, after.
Qed.

(** X11: when the commands add and remove no file, or in a dry run,
    [commit_version_bump] stages every build file, in the order of
    [build_filenames], and then commits with the message of the template:
    when it succeeds these commands, and no other, have been run (or
    shown, in a dry run); when it raises, it is not a dry run and one of
    them has failed, for a null character in it or with a status other
    than zero, and in the second case it is the last that was run. *)
Theorem commit_version_bump_stages_then_commits version auditors dry_run
    (w : world E) :
  dry_run = true \/ keeps_paths exec ->
  (forall w',
     commit_version_bump exec version auditors dry_run w = (OK tt, w') ->
     trace w' = trace w ++
       (command_event dry_run <$>
          add_commands (walk (files w)) ++
          [["git"; "commit"; "-m"; VERSION_BUMP_COMMIT version auditors]]))
  /\ (forall e w',
        commit_version_bump exec version auditors dry_run w = (Raise e, w') ->
        dry_run = false
        /\ exists command,
             command ∈ add_commands (walk (files w)) ++
               [["git"; "commit"; "-m"; VERSION_BUMP_COMMIT version auditors]]
             /\ command_failed command e
             /\ forall returncode,
                  e = CalledProcessError command returncode ->
                  last (trace w') = Some (Ran command returncode)).
Proof.
  intros _. split.
  - intros w'. apply commit_version_bump_events.
  - intros e w' H.
    destruct (commit_version_bump_Raise _ _ _ _ _ _ _ H) as (Hd & c & Hc & He).
    split; [done|]. exists c. split; [done|]. split; [done|].
    intros rc ->. by eapply fails_last_commit_version_bump.
Qed.


(** X13: a release stops at the first command that fails. When [do_release]
    raises [CalledProcessError], it is not a dry run, the status is not
    zero, and the failed command is the last thing that has happened:
    no later step has run. *)
Theorem failed_command_is_last version auditors dry_run (w : world E)
    command returncode w' :
  do_release exec compile_escapes version auditors dry_run w
  = (Raise (CalledProcessError command returncode), w') ->
  dry_run = false /\ returncode <> 0
  /\ last (trace w') = Some (Ran command returncode).
Proof.
  revert w command returncode w'.
  change (fails_last dry_run
            (do_release exec compile_escapes version auditors dry_run)).
  unfold do_release.
  apply fails_last_bind; [apply fails_last_set_version|intros _].
  apply fails_last_bind; [apply fails_last_commit_version_bump|intros _].
  apply fails_last_bind; [apply fails_last_run_command|intros _].
  apply fails_last_bind; [apply fails_last_git_push|intros _].
  apply fails_last_bind; [apply fails_last_run_command|intros _].
  apply fails_last_bind; [apply fails_last_next_version|intros next].
  apply fails_last_bind; [apply fails_last_set_version|intros _].
  apply fails_last_bind; [apply fails_last_commit_version_bump|intros _].
  apply fails_last_git_push.
Qed.


(** X15: when every command succeeds and leaves the files alone, and
    nothing that goes into a command has a null character, a release of a
    version without double quote, backslash and line break succeeds as
    soon as its first [set_version] does and the next version can be
    written. The build files are then the same as before, they all declare
    the next version, and the other files are unchanged. *)
Theorem release_succeeds_when_commands_do version next auditors (w : world E) :
  harmless exec ->
  plain version = true ->
  no_null version -> no_null auditors -> Forall no_null (walk (files w)) ->
  (set_version compile_escapes version false w).1 = OK tt ->
  next_version version = OK next ->
  exists w',
    do_release exec compile_escapes version auditors false w = (OK tt, w')
    /\ walk (files w') = walk (files w)
    /\ agree_on w' next
    /\ forall g, is_build_file g = false -> files w' !! g = files w !! g.
Proof.
  intros Hh Hplain Hnv Hna Hnf H1 Hnext.
  assert (quiet exec false version auditors (files w)) as Hq by (by right).
  pose proof (proj1 (set_version_OK_iff _ _ _ _) H1)
    as (old & rest & Hfound & _ & Hok & _).
  apply version_ok_true in Hok as (old_i & new_i & _ & Hn & _).
  destruct (next_version_OK _ _ _ Hn Hnext) as (init & last & -> & Heq & Hni).
  assert (walk (files w) <> []) as Hne.
  { pose proof (found_versions_spec w) as Hs.
    destruct (found_versions w) as [[versions|e] w0]; cbn [fst] in Hfound; [|done].
    injection Hfound as ->. destruct Hs as [_ Hs]. intros Hw.
    rewrite Hw in Hs. by apply Forall2_nil_inv_l in Hs. }
  destruct (set_version compile_escapes version false w) as [r w1] eqn:Hs1.
  cbn [fst] in H1. subst r.
  destruct (set_version_frame compile_escapes _ _ _ _ _ Hs1)
    as (_ & Hwalk1 & _ & Hother1).
  pose proof (set_version_declares compile_escapes _ _ _ Hplain Hs1) as Hdecl1.
  destruct (do_release_second_step exec compile_escapes version auditors
              false w w1 _ Hq Hs1 Hnext)
    as (w5 & Hf5 & Hrest).
  assert (agree_on w5 version) as Hagree5.
  { apply (agree_on_files w1); [done|]. split; [by rewrite Hwalk1|done]. }
  pose proof (set_version_agree compile_escapes next false w5 version Hagree5)
    as Hs2.
  assert (version_ok version next = OK true) as Hok2.
  { eapply version_ok_lt; [done|done|]. apply lex_lt_snoc. lia. }
  rewrite Hok2 in Hs2.
  pose proof (next_version_plain _ _ Hnext) as Hplain2.
  pose proof (rewrite_build_files_outcome compile_escapes next false w5) as Ho.
  rewrite compile_repl_plain in Ho by (by apply plain_chars in Hplain2 as (_ & ? & _)).
  destruct Ho as (w6 & Hrw & _). rewrite Hrw in Hs2.
  destruct (set_version_frame compile_escapes _ _ _ _ _ Hs2)
    as (_ & Hwalk6 & _ & Hother6).
  pose proof (set_version_declares compile_escapes _ _ _ Hplain2 Hs2) as Hdecl6.
  destruct (Hrest w6 Hs2) as (w' & Hrun & Hf').
  exists w'. split; [done|].
  assert (walk (files w') = walk (files w)) as Hwalk by congruence.
  split; [done|]. split.
  - apply (agree_on_files w6); [done|]. split; [|done]. congruence.
  - intros g Hg. rewrite Hf', Hother6, Hf5, Hother1 by done. done.
Qed.

(** X16: the commands of a release that succeeds, in the order in which
    they are run (or shown, in a dry run), when the commands add and remove
    no file: the build files are staged, in the order of
    [build_filenames], and the version committed, the tag made, the branch
    and the tags pushed and the library published; then the same build
    files are staged and the next version committed, and the branch and
    the tags pushed. Nothing else is run. *)
Theorem release_commands_in_order version auditors dry_run (w w' : world E) :
  dry_run = true \/ keeps_paths exec ->
  do_release exec compile_escapes version auditors dry_run w = (OK tt, w') ->
  exists next evs,
    next_version version = OK next
    /\ trace w' = trace w ++ evs
    /\ commands evs =
         add_commands (walk (files w)) ++
         [["git"; "commit"; "-m"; VERSION_BUMP_COMMIT version auditors];
          ["git"; "tag"; "v" +:+ version];
          ["git"; "push"];
          ["git"; "push"; "--tags"];
          ["./gradlew"; "publish"]] ++
         add_commands (walk (files w)) ++
         [["git"; "commit"; "-m"; VERSION_BUMP_COMMIT next auditors];
          ["git"; "push"];
          ["git"; "push"; "--tags"]].
Proof.
  intros Hm. rewrite do_release_cut.
  intros ([] & wa & Ha & H)%bind_OK_inv.
  apply bind_OK_inv in H as ([] & w1 & Hsteps & H).
  apply bind_OK_inv in H as (next & w1' & [= Hnext <-] & H).
  apply bind_OK_inv in H as ([] & w2 & H2 & Hclose).
  pose proof (release_steps_same_paths exec version auditors dry_run Hm wa) as Hp.
  rewrite Hsteps in Hp. cbn [snd] in Hp.
  apply bind_OK_inv in Hsteps as ([] & wb & Hb%commit_version_bump_events & Hsteps).
  apply bind_OK_inv in Hsteps as ([] & wc & Hc%run_command_OK & Hsteps).
  apply bind_OK_inv in Hsteps as ([] & wd & Hd%git_push_OK & He%run_command_OK).
  apply bind_OK_inv in Hclose
    as ([] & w3 & H3%commit_version_bump_events & H4%git_push_OK).
  destruct (set_version_events _ _ _ _ _ Ha) as (repl1 & _ & Hta).
  destruct (set_version_events _ _ _ _ _ H2) as (repl2 & _ & Ht2).
  destruct (set_version_frame compile_escapes _ _ _ _ _ Ha) as (_ & Hwa & _).
  destruct (set_version_frame compile_escapes _ _ _ _ _ H2) as (_ & Hw2 & _).
  rewrite Hwa in Hb.
  assert (walk (files w2) = walk (files w)) as Hsame.
  { rewrite Hw2, <- Hwa. unfold walk. by rewrite Hp. }
  rewrite Hsame in H3.
  exists next,
    ((set_event dry_run repl1 (files w) <$> walk (files w)) ++
     (command_event dry_run <$>
        add_commands (walk (files w)) ++
        [["git"; "commit"; "-m"; VERSION_BUMP_COMMIT version auditors];
         ["git"; "tag"; "v" +:+ version];
         ["git"; "push"];
         ["git"; "push"; "--tags"];
         ["./gradlew"; "publish"]]) ++
     (set_event dry_run repl2 (files w1) <$> walk (files w1)) ++
     (command_event dry_run <$>
        add_commands (walk (files w)) ++
        [["git"; "commit"; "-m"; VERSION_BUMP_COMMIT next auditors];
         ["git"; "push"];
         ["git"; "push"; "--tags"]])).
  split; [done|]. split.
  - rewrite H4, H3, Ht2, He, Hd, Hc, Hb, Hta.
    rewrite !fmap_app, <- !app_assoc. done.
  - rewrite !commands_app, !commands_set_events, !commands_command_events.
    rewrite !app_nil_l, <- !app_assoc. done.
Qed.

End Further.

(** ** Examples *)

(** The examples, the counterexamples and the witnesses are on a file
    system that lists every directory in the order of the names. *)
#[local] Existing Instance top_down.

Lemma exec_ok_harmless : harmless exec_ok.
Proof. intros command fs x. by exists x. Qed.

Lemma exec_ok_keeps_paths : keeps_paths exec_ok.
Proof. by intros command fs x. Qed.

Example str_ex :
  Py.str 0 = Some "0" /\ Py.str 11 = Some "11" /\ Py.str (-3) = Some "-3".
Proof. repeat split; reflexivity. Qed.

(** The limit of 4300 digits: [int] counts leading zeros, and neither
    conversion counts the sign. *)
Example limit_ex :
  Py.int (digits_of "9" 4300) = Some (10 ^ 4300 - 1)
  /\ Py.int (digits_of "9" 4301) = None
  /\ Py.int (digits_of "0" 4301) = None
  /\ Py.int ("-" +:+ digits_of "9" 4300) = Some (- (10 ^ 4300 - 1))
  /\ Py.str (10 ^ 4300 - 1) = Some (digits_of "9" 4300)
  /\ Py.str (10 ^ 4300) = None
  /\ Py.str (- (10 ^ 4300 - 1)) = Some ("-" +:+ digits_of "9" 4300).
Proof.
  split; [exact (int_nines 4299)|].
  split; [exact (int_nines 4300)|].
  split.
  { unfold Py.int. by rewrite (count_digits_of "0" 0). }
  split; [exact (int_minus_nines 4299)|].
  split; [exact (str_nines 4299)|].
  split; [exact (str_one_zeros 4300)|].
  exact (str_minus_nines 4299).
Qed.

(** The first [set_version] of a release of 4300 nines from 0.1.9. *)
Lemma set_version_nines (dry_run : bool) :
  (set_version no_escapes (digits_of "9" 4300) dry_run world_019).1 = OK tt.
Proof.
  apply set_version_OK_iff. exists "0.1.9", ["0.1.9"].
  split; [vm_compute; reflexivity|]. split; [vm_compute; reflexivity|].
  split.
  - apply (version_ok_nines "0.1.9" 0 [1; 9] 4299); [reflexivity|lia|by vm_compute].
  - eexists. vm_compute. reflexivity.
Qed.

(** What the library functions raise in a release from 0.1.9: [re] for a
    backslash in the version, [subprocess.run] for a null character, and
    [str] and [int] for a number with too many digits. *)
Example library_errors_ex :
  (do_release exec_ok no_group_x "0.2-pre\g<x>" "alice" false world_019).1
  = Raise (IndexError (Unknown_group (version_line "0.2-pre\g<x>")))
  /\ (do_release exec_ok no_group_x "0.2-pre\q" "alice" false world_019).1
     = Raise (re_error (version_line "0.2-pre\q"))
  /\ (do_release exec_ok no_escapes ("0.2-pre" +:+ Py.chr Py.NUL) "alice" false
        world_019).1
     = Raise (ValueError (Embedded_null
                ["git"; "commit"; "-m";
                 VERSION_BUMP_COMMIT ("0.2-pre" +:+ Py.chr Py.NUL) "alice"]))
  /\ (do_release exec_ok no_escapes (digits_of "9" 4300) "alice" false world_019).1
     = Raise (ValueError (Str_refuses (10 ^ 4300)))
  /\ (do_release exec_ok no_escapes (digits_of "9" 4301) "alice" false world_019).1
     = Raise (ValueError (Int_refuses (digits_of "9" 4301))).
Proof.
  split; [vm_compute; reflexivity|]. split; [vm_compute; reflexivity|].
  split; [vm_compute; reflexivity|]. split; [|vm_compute; reflexivity].
  pose proof (set_version_nines false) as Hset.
  destruct (set_version no_escapes (digits_of "9" 4300) false world_019)
    as [r w1] eqn:H1.
  cbn [fst] in Hset. subst r.
  assert (quiet exec_ok false (digits_of "9" 4300) "alice" (files world_019))
    as Hq.
  { right. split; [exact exec_ok_harmless|]. split; [by vm_compute|].
    split; [reflexivity|]. vm_compute. repeat constructor. }
  exact (do_release_next_version_raises exec_ok no_escapes _ _ _ _ _ _
           Hq H1 (next_version_nines 4299 eq_refl)).
Qed.

(** The walk of the examples comes to the root before the directory in
    it. *)
Example walk_ex :
  walk tree_019 = ["./build.gradle.kts"; "./sub/build.gradle.kts"]
  /\ walk tree_deep
     = ["./build.gradle.kts"; "./a/build.gradle.kts"; "./a/x/build.gradle.kts";
        "./b/build.gradle.kts"].
Proof. vm_compute. repeat split. Qed.

Example int_ex :
  Py.int "10" = Some 10 /\ Py.int " 007 " = Some 7 /\ Py.int "-3" = Some (-3)
  /\ Py.int "1_000" = Some 1000 /\ Py.int "" = None /\ Py.int "abc" = None
  /\ Py.int "1__0" = None /\ Py.int "1_" = None /\ Py.int "+ 1" = None.
Proof. repeat split; reflexivity. Qed.

Example split_ex :
  Py.split "." "0.1.10" = ["0"; "1"; "10"] /\ Py.split "." "" = [""]
  /\ Py.split "." "1." = ["1"; ""].
Proof. repeat split; reflexivity. Qed.

Example sub_pre_ex :
  sub_pre false "1.2.3-pre1" = "1.2.3" /\ sub_pre false "1.2.3" = "1.2.3"
  /\ sub_pre false ("1-pre1" +:+ NL +:+ ".2-pre") = "1" +:+ NL +:+ ".2".
Proof. repeat split; reflexivity. Qed.

Example search_ex :
  VERSION_RE.search ("version = " +:+ Q +:+ "0.1.9" +:+ Q +:+ NL) = Some "0.1.9"
  /\ VERSION_RE.search (" version = " +:+ Q +:+ "0.1.9" +:+ Q +:+ NL) = None
  /\ VERSION_RE.search ("version = " +:+ Q +:+ Q +:+ NL) = None.
Proof. repeat split; reflexivity. Qed.

Example sub_ex :
  VERSION_RE.sub (fun _ _ => "V")
    ("a" +:+ NL +:+ "version = " +:+ Q +:+ "0.1.9" +:+ Q +:+ " // x" +:+ NL)
  = "a" +:+ NL +:+ "V // x" +:+ NL.
Proof. reflexivity. Qed.

Example readlines_ex :
  readlines ("a" +:+ NL +:+ NL +:+ "b") = ["a" +:+ NL; NL; "b"]
  /\ universal_newlines false (String "a" (String Py.CR (String Py.LF (String Py.CR "b"))))
     = "a" +:+ NL +:+ NL +:+ "b".
Proof. repeat split; reflexivity. Qed.

Example version_ints_ex :
  version_ints "1.2.3" = OK [1; 2; 3] /\ version_ints "1.2.3-pre1" = OK [1; 2; 3]
  /\ version_ints "0.1.10" = OK [0; 1; 10] /\ version_ints "abc" = Raise (ValueError (Int_refuses "abc")).
Proof. repeat split; reflexivity. Qed.

Example version_ok_ex :
  version_ok "0.2.0-pre3" "0.2.0" = OK true /\ version_ok "0.2.0-pre3" "0.1.9" = OK false
  /\ version_ok "0.1.9" "0.1.10" = OK true /\ version_ok "0.1.10" "0.1.10" = OK false.
Proof. repeat split; reflexivity. Qed.

Example next_version_ex : next_version "0.1.10" = OK "0.1.11-pre1".
Proof. reflexivity. Qed.

(** C5, counterexample: a version with a double quote in its suffix is
    set, and read back without what follows the quote. *)
Lemma roundtrip_fails_with_quote : ~ roundtrip_for_every_version.
Proof.
  intros H.
  assert (set_version no_escapes ("0.2-pre" +:+ Q) false world_019
          = (OK tt, (set_version no_escapes ("0.2-pre" +:+ Q) false world_019).2))
    as Hrun by (vm_compute; reflexivity).
  apply H in Hrun. vm_compute in Hrun. apply Forall_cons in Hrun as [[=] _].
Qed.

(** C7, counterexample: the release of 0.1.10 ends with a push of the
    tags. *)
Lemma last_push_pushes_tags : ~ last_push_without_tags.
Proof.
  intros H.
  assert (do_release exec_ok no_escapes "0.1.10" "alice" false world_019
          = (OK tt, (do_release exec_ok no_escapes "0.1.10" "alice" false world_019).2))
    as Hrun by (vm_compute; reflexivity).
  apply H in Hrun. apply Hrun. vm_compute. reflexivity.
Qed.


(** C9, counterexample: in a file with CR LF line ends the line after the
    version line loses its carriage return. *)
Lemma crlf_lines_change : ~ other_lines_kept.
Proof.
  intros H.
  assert (set_version no_escapes "0.2" false world_crlf
          = (OK tt, (set_version no_escapes "0.2" false world_crlf).2))
    as Hrun by (vm_compute; reflexivity).
  specialize (H unit top_down no_escapes _ _ "0.2" "./build.gradle.kts"
    (version_line "0.1.9" +:+ CRLF +:+ "plugins {}" +:+ CRLF)
    (version_line "0.2" +:+ NL +:+ "plugins {}" +:+ NL)
    1%nat ("plugins {}" +:+ CRLF) Hrun).
  assert (readlines (version_line "0.2" +:+ NL +:+ "plugins {}" +:+ NL) !! 1%nat
          = Some ("plugins {}" +:+ CRLF)) as Hline.
  { apply H; vm_compute; reflexivity. }
  vm_compute in Hline. discriminate Hline.
Qed.

(** A value that goes over two lines: the second version line has no
    match on its line, and is rewritten with the line that follows it. *)
Example value_over_two_lines :
  (readlines <$> files world_open_quote !! "./build.gradle.kts")
  = Some [version_line "0.1.9" +:+ NL;
          "version = " +:+ Q +:+ "a" +:+ NL; "b" +:+ Q +:+ NL]
  /\ VERSION_RE.search ("version = " +:+ Q +:+ "a" +:+ NL) = None
  /\ (readlines <$>
        files (set_version no_escapes "0.2" false world_open_quote).2
          !! "./build.gradle.kts")
     = Some [version_line "0.2" +:+ NL; version_line "0.2" +:+ NL].
Proof. vm_compute. repeat split. Qed.

(** ** Witnesses *)

Lemma version_ints_ignores_suffix_witness :
  version_ints ("1.2.3" +:+ "-pre" +:+ "1") = version_ints "1.2.3"
  /\ forall l, version_ints "1.2.3" = OK l <->
       Forall2 (fun c n => Py.int c = Some n) (Py.split "." "1.2.3") l.
Proof. apply (version_ints_ignores_suffix "1.2.3" "1"); reflexivity. Defined.

Lemma increase_policy_witness :
  version_ints "0.1.9" = OK [0; 1; 9]
  /\ version_ints "0.1.10" = OK [0; 1; 10]
  /\ agree_on world_019 "0.1.9"
  /\ Py.has_char Py.LF "3" = false
  /\ (version_ok "0.1.9" "0.1.10" = OK true
        <-> permitted "0.1.9" "0.1.10" [0; 1; 9] [0; 1; 10])
  /\ (permitted "0.1.9" "0.1.10" [0; 1; 9] [0; 1; 10] ->
        set_version no_escapes "0.1.10" false world_019
        = rewrite_build_files no_escapes "0.1.10" false world_019)
  /\ (set_version no_escapes "0.1.10" false world_019
        = (Raise (InvalidVersionError (Not_allowed "0.1.9" "0.1.10")), world_019)
      <-> ~ permitted "0.1.9" "0.1.10" [0; 1; 9] [0; 1; 10])
  /\ (Py.contains "-pre" "0.1.10" = false -> version_ok "0.1.10" "0.1.10" = OK false)
  /\ version_ok ("0.1.10" +:+ "-pre" +:+ "3") "0.1.10" = OK true.
Proof.
  assert (agree_on world_019 "0.1.9") as Hagree.
  { split; [by vm_compute|]. vm_compute. repeat constructor. }
  split; [reflexivity|]. split; [reflexivity|]. split; [exact Hagree|].
  split; [reflexivity|].
  exact (increase_policy no_escapes "0.1.9" "0.1.10" "3" [0; 1; 9] [0; 1; 10]
           world_019 false eq_refl eq_refl Hagree eq_refl).
Defined.

Lemma inconsistent_versions_rejected_witness :
  Forall2 (fun f v => declared world_mixed f = Some v)
    (walk (files world_mixed)) ["0.1.9"; "0.2.0"]
  /\ (1 < size (list_to_set ["0.1.9"; "0.2.0"] : gset string))%nat
  /\ set_version no_escapes "0.3.0" false world_mixed
     = (Raise (InvalidVersionError (Inconsistent ["0.1.9"; "0.2.0"])), world_mixed).
Proof.
  assert (Forall2 (fun f v => declared world_mixed f = Some v)
            (walk (files world_mixed)) ["0.1.9"; "0.2.0"]) as Hdecl.
  { vm_compute. repeat constructor. }
  assert (1 < size (list_to_set ["0.1.9"; "0.2.0"] : gset string))%nat as Hsize.
  { vm_compute. lia. }
  split; [exact Hdecl|]. split; [exact Hsize|].
  exact (inconsistent_versions_rejected no_escapes "0.3.0" false world_mixed
           ["0.1.9"; "0.2.0"] Hdecl Hsize).
Defined.

Lemma no_build_file_rejected_witness :
  walk (files world_bare) = []
  /\ set_version no_escapes "0.1.10" false world_bare
     = (Raise (InvalidVersionError (Inconsistent [])), world_bare).
Proof.
  assert (walk (files world_bare) = []) as Hwalk by (vm_compute; reflexivity).
  split; [exact Hwalk|].
  exact (no_build_file_rejected no_escapes "0.1.10" false world_bare Hwalk).
Defined.

Lemma set_version_roundtrip_witness :
  plain "0.1.10" = true
  /\ set_version no_escapes "0.1.10" false world_019
     = (OK tt, (set_version no_escapes "0.1.10" false world_019).2)
  /\ walk (files (set_version no_escapes "0.1.10" false world_019).2)
     = walk (files world_019)
  /\ Forall (fun f => declared (set_version no_escapes "0.1.10" false world_019).2 f
                      = Some "0.1.10")
       (walk (files (set_version no_escapes "0.1.10" false world_019).2)).
Proof.
  assert (set_version no_escapes "0.1.10" false world_019
          = (OK tt, (set_version no_escapes "0.1.10" false world_019).2))
    as Hrun by (vm_compute; reflexivity).
  split; [reflexivity|]. split; [exact Hrun|].
  exact (set_version_roundtrip no_escapes "0.1.10" world_019 _ eq_refl Hrun).
Defined.

Lemma set_version_rewrites_in_place_witness :
  set_version no_escapes "0.1.10" false world_019
  = (OK tt, (set_version no_escapes "0.1.10" false world_019).2)
  /\ (exists stored',
        files (set_version no_escapes "0.1.10" false world_019).2
          !! "./build.gradle.kts" = Some stored' /\
        readlines stored'
        = rewrite_line (fun _ _ => version_line "0.1.10") <$>
            readlines ("plugins {}" +:+ NL +:+ version_line "0.1.9" +:+ NL))
  /\ forall g, is_build_file g = false ->
       files (set_version no_escapes "0.1.10" false world_019).2 !! g
       = files world_019 !! g.
Proof.
  assert (set_version no_escapes "0.1.10" false world_019
          = (OK tt, (set_version no_escapes "0.1.10" false world_019).2))
    as Hrun by (vm_compute; reflexivity).
  assert (files world_019 !! "./build.gradle.kts"
          = Some ("plugins {}" +:+ NL +:+ version_line "0.1.9" +:+ NL))
    as Hstored by (vm_compute; reflexivity).
  split; [exact Hrun|].
  exact (set_version_rewrites_in_place no_escapes "0.1.10" world_019 _
           "./build.gradle.kts" _ Hrun eq_refl eq_refl eq_refl Hstored
           eq_refl eq_refl).
Defined.


Definition released_019 : world unit :=
  (do_release exec_ok no_escapes "0.1.10" "alice" false world_019).2.

Lemma release_019_succeeds :
  do_release exec_ok no_escapes "0.1.10" "alice" false world_019
  = (OK tt, released_019).
Proof. vm_compute. reflexivity. Qed.


Lemma both_pushes_push_tags_witness :
  do_release exec_ok no_escapes "0.1.10" "alice" false world_019
  = (OK tt, released_019)
  /\ exists (next : string) (evs1 evs2 : list event),
       next_version "0.1.10" = OK next
       /\ trace released_019 = trace world_019 ++ evs1 ++
            [command_event false ["git"; "tag"; "v" +:+ "0.1.10"];
             command_event false ["git"; "push"];
             command_event false ["git"; "push"; "--tags"];
             command_event false ["./gradlew"; "publish"]] ++ evs2 ++
            [command_event false
               ["git"; "commit"; "-m"; VERSION_BUMP_COMMIT next "alice"];
             command_event false ["git"; "push"];
             command_event false ["git"; "push"; "--tags"]].
Proof.
  split; [exact release_019_succeeds|].
  exact (both_pushes_push_tags exec_ok no_escapes "0.1.10" "alice" false
           world_019 released_019 release_019_succeeds).
Defined.

Lemma version_ints_of_formatted_witness :
  [0; 1; 10] <> []
  /\ strs [0; 1; 10] = OK ["0"; "1"; "10"]
  /\ version_ints (Py.join "." ["0"; "1"; "10"]) = OK [0; 1; 10]
  /\ version_ints (Py.join "." ["0"; "1"; "10"] +:+ "-pre1") = OK [0; 1; 10].
Proof.
  assert ([0; 1; 10] <> []) as Hne by discriminate.
  split; [exact Hne|]. split; [reflexivity|].
  exact (version_ints_of_formatted [0; 1; 10] ["0"; "1"; "10"] Hne eq_refl).
Defined.

Lemma next_version_is_higher_witness :
  version_ints "0.1.9" = OK ([0; 1] ++ [9])
  /\ match next_version "0.1.9" with
     | OK next =>
         version_ints next = OK ([0; 1] ++ [9 + 1])
         /\ lex_lt ([0; 1] ++ [9]) ([0; 1] ++ [9 + 1])
         /\ Py.contains "-pre" next = true
         /\ version_ok "0.1.9" next = OK true
         /\ version_ok next "0.1.9" = OK false
     | Raise e =>
         exists n, n ∈ [0; 1] ++ [9 + 1]
                   /\ Py.str n = None /\ e = ValueError (Str_refuses n)
     end.
Proof.
  split; [reflexivity|].
  exact (next_version_is_higher "0.1.9" [0; 1] 9 eq_refl).
Defined.

Lemma formatted_versions_compare_as_numbers_witness :
  [0; 1; 9] <> [] /\ [0; 1; 10] <> []
  /\ strs [0; 1; 9] = OK ["0"; "1"; "9"]
  /\ strs [0; 1; 10] = OK ["0"; "1"; "10"]
  /\ version_ok (Py.join "." ["0"; "1"; "9"]) (Py.join "." ["0"; "1"; "10"])
     = OK (Py.list_lt [0; 1; 9] [0; 1; 10])
  /\ version_ok (Py.join "." ["0"; "1"; "9"] +:+ "-pre1")
                (Py.join "." ["0"; "1"; "10"])
     = OK (Py.list_le [0; 1; 9] [0; 1; 10]).
Proof.
  assert ([0; 1; 9] <> []) as Ha by discriminate.
  assert ([0; 1; 10] <> []) as Hb by discriminate.
  split; [exact Ha|]. split; [exact Hb|].
  split; [reflexivity|]. split; [reflexivity|].
  exact (formatted_versions_compare_as_numbers [0; 1; 9] [0; 1; 10]
           ["0"; "1"; "9"] ["0"; "1"; "10"] Ha Hb eq_refl eq_refl).
Defined.

Lemma bump_019_succeeds :
  set_version no_escapes "0.1.10" false world_019 = (OK tt, bumped_019).
Proof. vm_compute. reflexivity. Qed.



Lemma failed_command_is_last_witness :
  do_release exec_no_remote no_escapes "0.1.10" "alice" false world_019
  = (Raise (CalledProcessError ["git"; "push"] 128),
     (do_release exec_no_remote no_escapes "0.1.10" "alice" false world_019).2)
  /\ false = false /\ 128 <> 0
  /\ last (trace (do_release exec_no_remote no_escapes "0.1.10" "alice" false
                    world_019).2)
     = Some (Ran ["git"; "push"] 128).
Proof.
  assert (do_release exec_no_remote no_escapes "0.1.10" "alice" false world_019
          = (Raise (CalledProcessError ["git"; "push"] 128),
             (do_release exec_no_remote no_escapes "0.1.10" "alice" false
                world_019).2)) as Hrun by (vm_compute; reflexivity).
  split; [exact Hrun|].
  exact (failed_command_is_last exec_no_remote no_escapes "0.1.10" "alice" false
           world_019 _ _ _ Hrun).
Defined.

Lemma version_read_from_build_file_witness :
  get_version_from_build "./build.gradle.kts" world_019 = (OK "0.1.9", world_019)
  /\ world_019 = world_019
  /\ "0.1.9" <> ""
  /\ Py.has_char Py.DQUOTE "0.1.9" = false
  /\ Py.has_char Py.LF "0.1.9" = false
  /\ Py.has_char Py.CR "0.1.9" = false
  /\ exists stored before after,
       files world_019 !! "./build.gradle.kts" = Some stored
       /\ universal_newlines false stored = before +:+ version_line "0.1.9" +:+ after
       /\ line_start before.
Proof.
  assert (get_version_from_build "./build.gradle.kts" world_019
          = (OK "0.1.9", world_019)) as Hrun by (vm_compute; reflexivity).
  split; [exact Hrun|].
  exact (version_read_from_build_file "./build.gradle.kts" world_019 "0.1.9"
           world_019 Hrun).
Defined.

Lemma release_succeeds_when_commands_do_witness :
  harmless exec_ok
  /\ plain "0.1.10" = true
  /\ no_null "0.1.10" /\ no_null "alice"
  /\ Forall no_null (walk (files world_019))
  /\ (set_version no_escapes "0.1.10" false world_019).1 = OK tt
  /\ next_version "0.1.10" = OK "0.1.11-pre1"
  /\ exists w',
       do_release exec_ok no_escapes "0.1.10" "alice" false world_019 = (OK tt, w')
       /\ walk (files w') = walk (files world_019)
       /\ agree_on w' "0.1.11-pre1"
       /\ forall g, is_build_file g = false -> files w' !! g = files world_019 !! g.
Proof.
  assert ((set_version no_escapes "0.1.10" false world_019).1 = OK tt) as Hrun
    by (vm_compute; reflexivity).
  assert (Forall no_null (walk (files world_019))) as Hpaths.
  { vm_compute. repeat constructor. }
  split; [exact exec_ok_harmless|]. split; [reflexivity|].
  split; [reflexivity|]. split; [reflexivity|]. split; [exact Hpaths|].
  split; [exact Hrun|]. split; [reflexivity|].
  exact (release_succeeds_when_commands_do exec_ok no_escapes "0.1.10"
           "0.1.11-pre1" "alice" world_019 exec_ok_harmless eq_refl eq_refl
           eq_refl Hpaths Hrun eq_refl).
Defined.

Lemma release_commands_in_order_witness :
  (false = true \/ keeps_paths exec_ok)
  /\ do_release exec_ok no_escapes "0.1.10" "alice" false world_019
     = (OK tt, released_019)
  /\ walk (files world_019) = ["./build.gradle.kts"; "./sub/build.gradle.kts"]
  /\ exists next evs,
       next_version "0.1.10" = OK next
       /\ trace released_019 = trace world_019 ++ evs
       /\ commands evs =
            add_commands (walk (files world_019)) ++
            [["git"; "commit"; "-m"; VERSION_BUMP_COMMIT "0.1.10" "alice"];
             ["git"; "tag"; "v" +:+ "0.1.10"];
             ["git"; "push"];
             ["git"; "push"; "--tags"];
             ["./gradlew"; "publish"]] ++
            add_commands (walk (files world_019)) ++
            [["git"; "commit"; "-m"; VERSION_BUMP_COMMIT next "alice"];
             ["git"; "push"];
             ["git"; "push"; "--tags"]].
Proof.
  split; [right; exact exec_ok_keeps_paths|].
  split; [exact release_019_succeeds|].
  split; [vm_compute; reflexivity|].
  exact (release_commands_in_order exec_ok no_escapes "0.1.10" "alice" false
           world_019 released_019 (or_intror exec_ok_keeps_paths)
           release_019_succeeds).
Defined.

Lemma commit_version_bump_stages_then_commits_witness :
  (false = true \/ keeps_paths exec_ok)
  /\ walk (files world_019) = ["./build.gradle.kts"; "./sub/build.gradle.kts"]
  /\ (forall w',
        commit_version_bump exec_ok "0.1.10" "alice" false world_019 = (OK tt, w') ->
        trace w' = trace world_019 ++
          (command_event false <$>
             add_commands (walk (files world_019)) ++
             [["git"; "commit"; "-m"; VERSION_BUMP_COMMIT "0.1.10" "alice"]]))
  /\ (forall e w',
        commit_version_bump exec_ok "0.1.10" "alice" false world_019 = (Raise e, w') ->
        false = false
        /\ exists command,
             command ∈ add_commands (walk (files world_019)) ++
               [["git"; "commit"; "-m"; VERSION_BUMP_COMMIT "0.1.10" "alice"]]
             /\ command_failed command e
             /\ forall returncode,
                  e = CalledProcessError command returncode ->
                  last (trace w') = Some (Ran command returncode)).
Proof.
  split; [right; exact exec_ok_keeps_paths|].
  split; [vm_compute; reflexivity|].
  exact (commit_version_bump_stages_then_commits exec_ok "0.1.10" "alice" false
           world_019 (or_intror exec_ok_keeps_paths)).
Defined.



Lemma set_version_twice_witness :
  plain "0.1.10" = true
  /\ set_version no_escapes "0.1.10" false world_019 = (OK tt, bumped_019)
  /\ set_version no_escapes "0.1.11-pre1" false bumped_019
     = match version_ok "0.1.10" "0.1.11-pre1" with
       | Raise e => (Raise e, bumped_019)
       | OK true => rewrite_build_files no_escapes "0.1.11-pre1" false bumped_019
       | OK false =>
           (Raise (InvalidVersionError (Not_allowed "0.1.10" "0.1.11-pre1")),
            bumped_019)
       end
  /\ (forall w2,
        set_version no_escapes "0.1.11-pre1" false bumped_019 = (OK tt, w2) ->
        exists x_i y_i,
          version_ints "0.1.10" = OK x_i /\ version_ints "0.1.11-pre1" = OK y_i
          /\ lex_le x_i y_i /\ ~ lex_lt y_i x_i)
  /\ (Py.contains "-pre" "0.1.10" = false ->
      set_version no_escapes "0.1.10" false bumped_019
      = (Raise (InvalidVersionError (Not_allowed "0.1.10" "0.1.10")), bumped_019)).
Proof.
  split; [reflexivity|]. split; [exact bump_019_succeeds|].
  exact (set_version_twice no_escapes "0.1.10" "0.1.11-pre1" false
           world_019 bumped_019 eq_refl bump_019_succeeds).
Defined.

Lemma set_version_writes_line_feeds_witness :
  set_version no_escapes "0.2" false world_crlf
  = (OK tt, (set_version no_escapes "0.2" false world_crlf).2)
  /\ Py.has_char Py.BACKSLASH "0.2" = false
  /\ Py.has_char Py.CR "0.2" = false
  /\ is_build_file "./build.gradle.kts" = true
  /\ files (set_version no_escapes "0.2" false world_crlf).2 !! "./build.gradle.kts"
     = Some (version_line "0.2" +:+ NL +:+ "plugins {}" +:+ NL)
  /\ Py.has_char Py.CR (version_line "0.2" +:+ NL +:+ "plugins {}" +:+ NL) = false
  /\ universal_newlines false (version_line "0.2" +:+ NL +:+ "plugins {}" +:+ NL)
     = version_line "0.2" +:+ NL +:+ "plugins {}" +:+ NL.
Proof.
  assert (set_version no_escapes "0.2" false world_crlf
          = (OK tt, (set_version no_escapes "0.2" false world_crlf).2))
    as Hrun by (vm_compute; reflexivity).
  assert (files (set_version no_escapes "0.2" false world_crlf).2
            !! "./build.gradle.kts"
          = Some (version_line "0.2" +:+ NL +:+ "plugins {}" +:+ NL))
    as Hfile by (vm_compute; reflexivity).
  split; [exact Hrun|]. split; [reflexivity|]. split; [reflexivity|].
  split; [reflexivity|]. split; [exact Hfile|].
  exact (set_version_writes_line_feeds no_escapes "0.2" world_crlf _
           "./build.gradle.kts" _ Hrun eq_refl eq_refl eq_refl Hfile).
Defined.

Lemma set_version_stops_at_file_without_version_witness :
  walk (files world_no_version)
  = [] ++ "./build.gradle.kts" :: ["./sub/build.gradle.kts"]
  /\ Forall (fun g => is_Some (declared world_no_version g)) []
  /\ declared world_no_version "./build.gradle.kts" = None
  /\ set_version no_escapes "abc" false world_no_version
     = (Raise (VersionParsingError "./build.gradle.kts"), world_no_version).
Proof.
  assert (walk (files world_no_version)
          = [] ++ "./build.gradle.kts" :: ["./sub/build.gradle.kts"])
    as Hwalk by (vm_compute; reflexivity).
  assert (declared world_no_version "./build.gradle.kts" = None)
    as Hnone by (vm_compute; reflexivity).
  split; [exact Hwalk|]. split; [constructor|]. split; [exact Hnone|].
  exact (set_version_stops_at_file_without_version no_escapes "abc" false
           world_no_version [] ["./sub/build.gradle.kts"] "./build.gradle.kts"
           Hwalk (Forall_nil_2 _) Hnone).
Defined.
